(** * Content pipeline: keyword normalisation, grouping and batch orchestration

    A shallow embedding of the keyword processor ([app/keyword/processor.py]),
    the keyword grouper ([app/keyword/grouper.py]), the cache manager
    ([app/storage/cache.py]), the store ([app/storage/database.py]) and the
    slash-command handlers ([app/slack/commands.py]), with the properties of
    the pipeline stated and proved over it.

    Conventions.
    - A Python [str] is a [string]; the character-level functions follow
      Python on code points below 128 (the ASCII range).
    - A Python float is the rational it denotes ([Q]): the score literals
      1.0, 0.8 and 0.5 stand for themselves, and the quotient of two counts
      is the double nearest to it, as Python's [/] computes it.
    - Time is counted in whole seconds.
    - Exceptions are values: a computation returns [Ok] or [Raise] together
      with the state it leaves behind.
    - What lies outside the repository (the embedding model, k-means, the
      store's and Slack's own failures, the generators) is a parameter of
      the code that uses it. *)

From Stdlib Require Import ZArith QArith Ascii String List Lia Permutation.
From stdpp Require Import base option list strings gmap pretty.

Local Open Scope string_scope.
Local Open Scope list_scope.
Local Open Scope nat_scope.

(** ** Python string primitives *)

Module Py.

Definition ord (c : ascii) : nat := nat_of_ascii c.

(** [str.isspace] on one character: TAB..CR, FS..US and the blank. *)
Definition isspace (c : ascii) : bool :=
  let n := ord c in
  ((9 <=? n) && (n <=? 13)) || ((28 <=? n) && (n <=? 32)).

Definition isupper (c : ascii) : bool :=
  let n := ord c in (65 <=? n) && (n <=? 90).

Definition islower (c : ascii) : bool :=
  let n := ord c in (97 <=? n) && (n <=? 122).

Definition isdigit_char (c : ascii) : bool :=
  let n := ord c in (48 <=? n) && (n <=? 57).

Definition isalpha (c : ascii) : bool := isupper c || islower c.

(** The regular-expression class [\w]: letters, digits and underscore. *)
Definition isword (c : ascii) : bool :=
  isalpha c || isdigit_char c || (ord c =? 95).

Definition lower_char (c : ascii) : ascii :=
  if isupper c then ascii_of_nat (ord c + 32) else c.

Definition chars (s : string) : list ascii := list_ascii_of_string s.
Definition str (l : list ascii) : string := string_of_list_ascii l.

(** [s.lower()] *)
Definition lower (s : string) : string := str (map lower_char (chars s)).

Fixpoint lstrip_by (p : ascii -> bool) (l : list ascii) : list ascii :=
  match l with
  | c :: l' => if p c then lstrip_by p l' else l
  | [] => []
  end.

Definition strip_by (p : ascii -> bool) (l : list ascii) : list ascii :=
  rev (lstrip_by p (rev (lstrip_by p l))).

(** [s.strip()] *)
Definition strip (s : string) : string := str (strip_by isspace (chars s)).

(** [s.strip(cs)]: strip the characters that occur in [cs]. *)
Definition strip_chars (cs : string) (s : string) : string :=
  str (strip_by (fun c => bool_decide (c ∈ chars cs)) (chars s)).

(** [re.sub(r'\s+', ' ', s)]: every maximal run of whitespace becomes
    one blank.  [in_run] tells that the previous character was
    whitespace, so that the run has already been replaced. *)
Fixpoint collapse_ws_go (in_run : bool) (l : list ascii) : list ascii :=
  match l with
  | [] => []
  | c :: l' =>
      if isspace c
      then (if in_run then collapse_ws_go true l'
            else " "%char :: collapse_ws_go true l')
      else c :: collapse_ws_go false l'
  end.

Definition collapse_ws (l : list ascii) : list ascii :=
  collapse_ws_go false l.

(** [re.sub(r'[^\w\s-]', '', s)]: keep word characters, whitespace and
    the hyphen, delete everything else. *)
Definition keep_word_space_hyphen (l : list ascii) : list ascii :=
  filter (fun c => isword c || isspace c || (ord c =? 45)) l.

(** [s.split()]: the maximal runs of non-whitespace characters. *)
Fixpoint split_ws_go (cur : list ascii) (l : list ascii) : list string :=
  match l with
  | [] => match cur with [] => [] | _ => [str (rev cur)] end
  | c :: l' =>
      if isspace c
      then match cur with
           | [] => split_ws_go [] l'
           | _ => str (rev cur) :: split_ws_go [] l'
           end
      else split_ws_go (c :: cur) l'
  end.

Definition split_ws (s : string) : list string := split_ws_go [] (chars s).

(** [s.split(d)] for a one-character delimiter: never empty, keeps the
    empty fragments. *)
Fixpoint split_on_go (d : ascii) (cur : list ascii) (l : list ascii)
  : list string :=
  match l with
  | [] => [str (rev cur)]
  | c :: l' =>
      if Ascii.eqb c d then str (rev cur) :: split_on_go d [] l'
      else split_on_go d (c :: cur) l'
  end.

Definition split_on (d : ascii) (s : string) : list string :=
  split_on_go d [] (chars s).

(** [s.isdigit()]: non-empty and made of digits only. *)
Definition isdigit (s : string) : bool :=
  match chars s with
  | [] => false
  | l => forallb isdigit_char l
  end.

(** [len(s)] *)
Definition len (s : string) : nat := String.length s.

(** [list(dict.fromkeys(l))]: first occurrences, in order. *)
Fixpoint fromkeys (seen : list string) (l : list string) : list string :=
  match l with
  | [] => []
  | x :: l' =>
      if bool_decide (x ∈ seen) then fromkeys seen l'
      else x :: fromkeys (x :: seen) l'
  end.

(** [range(start, stop, step)] for a positive step. *)
Definition range_step (start stop step : nat) : list nat :=
  map (fun k => start + k * step) (seq 0 ((stop - start + step - 1) / step)).

(** [l[i:j]] for [0 <= i <= j]. *)
Definition slice {A} (l : list A) (i j : nat) : list A :=
  take (j - i) (drop i l).

(** [s.count(c)] for a one-character [c]. *)
Definition count (c : ascii) (s : string) : nat :=
  length (filter (fun x => Ascii.eqb x c = true) (chars s)).

(** [s.replace(a, b)] for one-character [a] and [b]. *)
Definition replace_char (a b : ascii) (s : string) : string :=
  str (map (fun x => if Ascii.eqb x a then b else x) (chars s)).

End Py.

(** ** The keyword processor ([KeywordProcessor], app/keyword/processor.py) *)

Module KeywordProcessor.

Definition stop_words : list string :=
  [ "a"; "an"; "and"; "are"; "as"; "at"; "be"; "by"; "for"; "from";
    "has"; "he"; "in"; "is"; "it"; "its"; "of"; "on"; "that"; "the";
    "to"; "was"; "will"; "with" ].

(** [_clean_keyword]: lower-case and strip, collapse whitespace, delete
    the special characters, strip hyphens, strip again. *)
Definition _clean_keyword (keyword : string) : string :=
  if bool_decide (keyword = "") then ""
  else
    let keyword := Py.strip (Py.lower keyword) in
    let keyword := Py.str (Py.collapse_ws (Py.chars keyword)) in
    let keyword := Py.str (Py.keep_word_space_hyphen (Py.chars keyword)) in
    let keyword := Py.strip_chars "-" keyword in
    Py.strip keyword.

(** [re.match(r'^[^\w\s]+$', keyword)]: one or more characters that are
    neither word characters nor whitespace, up to the end of the string or
    up to a final newline. *)
Definition only_punctuation (keyword : string) : bool :=
  let punct := fun c => negb (Py.isword c || Py.isspace c) in
  let all_punct := fun l =>
    match l with [] => false | _ => forallb punct l end in
  let l := Py.chars keyword in
  all_punct l ||
  match rev l with
  | c :: body => (Py.ord c =? 10) && all_punct (rev body)
  | [] => false
  end.

(** [_is_valid_keyword] *)
Definition _is_valid_keyword (keyword : string) : bool :=
  if bool_decide (keyword = "") then false
  else if (Py.len keyword <? 2) || (100 <? Py.len keyword) then false
  else if negb (existsb Py.isalpha (Py.chars keyword)) then false
  else if Py.isdigit keyword then false
  else if bool_decide (keyword ∈ stop_words) then false
  else if only_punctuation keyword then false
  else true.

(** [parse_keywords]: split on each delimiter in turn, clean, validate,
    drop duplicates.  No step of the body raises on a string, so the
    [except] branch (which returns the empty list) is never taken. *)
Definition parse_keywords (text : string) : list string :=
  let delimiters := [","%char; ascii_of_nat 10; ";"%char; ascii_of_nat 9] in
  let keywords :=
    fold_left
      (fun keywords delimiter => concat (map (Py.split_on delimiter) keywords))
      delimiters [text] in
  let cleaned_keywords :=
    concat
      (map (fun keyword =>
              let cleaned := _clean_keyword (Py.strip keyword) in
              if negb (bool_decide (cleaned = "")) && _is_valid_keyword cleaned
              then [cleaned] else [])
           keywords) in
  Py.fromkeys [] cleaned_keywords.

(** [set(s.lower().split())] *)
Definition word_set (s : string) : gset string :=
  list_to_set (Py.split_ws (Py.lower s)).

(** Rounding of the quotient [n / d] of two integers ([0 <= n], [0 < d])
    to the nearest integer, ties to the even one. *)
Definition round_half_even (n d : Z) : Z :=
  let q := (n / d)%Z in
  let r := (n mod d)%Z in
  if (d <? 2 * r)%Z || ((2 * r =? d)%Z && Z.odd q) then (q + 1)%Z else q.

(** [a / b] for two Python integers [0 <= a], [0 < b]: the double nearest
    to the quotient (ties to even), as the rational it denotes.  With
    [2^e <= a/b < 2^(e+1)] the doubles near the quotient are the multiples
    of [2^(e-52)], and those of [2^(-1074)] in the subnormal range
    [e < -1022].  (A quotient of [2^1024] or more overflows; the callers
    here divide a number by one that is not smaller.) *)
Definition true_divide (a b : nat) : Q :=
  if a =? 0 then 0%Q
  else
    let a := Z.of_nat a in
    let b := Z.of_nat b in
    let e0 := (Z.log2 a - Z.log2 b)%Z in
    let e :=
      if (b * 2 ^ Z.max 0 e0 <=? a * 2 ^ Z.max 0 (- e0))%Z then e0
      else (e0 - 1)%Z in
    let quantum := (Z.max e (-1022) - 52)%Z in
    let mantissa :=
      round_half_even (a * 2 ^ Z.max 0 (- quantum))
        (b * 2 ^ Z.max 0 quantum) in
    Qmake (mantissa * 2 ^ Z.max 0 quantum)
      (Z.to_pos (2 ^ Z.max 0 (- quantum))).

(** [_calculate_similarity]: the Jaccard index of the two word sets, a
    float. *)
Definition _calculate_similarity (str1 str2 : string) : Q :=
  if bool_decide (str1 = "") || bool_decide (str2 = "") then 0%Q
  else
    let words1 := word_set str1 in
    let words2 := word_set str2 in
    if bool_decide (words1 = ∅) || bool_decide (words2 = ∅) then 0%Q
    else
      let intersection := size (words1 ∩ words2) in
      let union := size (words1 ∪ words2) in
      if 0 <? union
      then true_divide intersection union
      else 0%Q.

(** [a > b] on floats, each given by the rational it denotes. *)
Definition Qgtb (a b : Q) : bool := negb (Qle_bool a b).

(** [list.remove(x)]: delete the first element equal to [x]. *)
Fixpoint list_remove (x : string) (l : list string) : list string :=
  match l with
  | [] => []
  | y :: l' => if bool_decide (y = x) then l' else y :: list_remove x l'
  end.

(** The inner loop of [filter_similar_keywords]: walk the accepted
    keywords up to the first one whose similarity with [keyword] exceeds
    the threshold (where the loop breaks). *)
Fixpoint first_similar (threshold : Q) (keyword : string)
  (filtered : list string) : option string :=
  match filtered with
  | [] => None
  | existing :: rest =>
      if Qgtb (_calculate_similarity keyword existing) threshold
      then Some existing
      else first_similar threshold keyword rest
  end.

(** One round of the outer loop. *)
Definition filter_step (threshold : Q) (filtered : list string)
  (keyword : string) : list string :=
  match first_similar threshold keyword filtered with
  | Some existing =>
      if Py.len keyword <? Py.len existing
      then list_remove existing filtered ++ [keyword]
      else filtered
  | None => filtered ++ [keyword]
  end.

(** [filter_similar_keywords] *)
Definition filter_similar_keywords (keywords : list string) (threshold : Q)
  : list string :=
  fold_left (filter_step threshold) keywords [].

(** [_extract_keyword_from_row]: the only cell of a one-cell row; else
    the first cell that, stripped, is longer than one character and not a
    number; else the first cell that is not blank; else nothing. *)
Definition _extract_keyword_from_row (row : list string) : string :=
  match row with
  | [] => ""
  | [cell] => Py.strip cell
  | _ =>
      match find (fun cell =>
                    let cell := Py.strip cell in
                    negb (bool_decide (cell = "")) && (1 <? Py.len cell)
                    && negb (Py.isdigit cell))
              row with
      | Some cell => Py.strip cell
      | None =>
          match find (fun cell => negb (bool_decide (Py.strip cell = ""))) row with
          | Some cell => Py.strip cell
          | None => ""
          end
      end
  end.

(** The loop of [deduplicate_keywords]: [seen] holds the lower-cased,
    stripped forms met so far. *)
Fixpoint deduplicate_loop (seen : gset string) (keywords : list string)
  : list string :=
  match keywords with
  | [] => []
  | keyword :: rest =>
      let normalized := Py.strip (Py.lower keyword) in
      if bool_decide (normalized ∈ seen) then deduplicate_loop seen rest
      else keyword :: deduplicate_loop ({[ normalized ]} ∪ seen) rest
  end.

(** [deduplicate_keywords] *)
Definition deduplicate_keywords (keywords : list string) : list string :=
  deduplicate_loop ∅ keywords.

(** What [get_keyword_stats] returns; the distribution is the dictionary
    from word count to frequency, in insertion order. *)
Record KeywordStats := mkStats {
  total_count : nat;
  avg_length : Q;
  avg_words : Q;
  shortest : string;
  longest : string;
  word_count_distribution : list (nat * nat)
}.

(** [min(keywords, key=len)] and [max(keywords, key=len)]: the first
    keyword of the least, respectively the greatest, length. *)
Fixpoint min_by_len (best : string) (rest : list string) : string :=
  match rest with
  | [] => best
  | k :: rest' =>
      if Py.len k <? Py.len best then min_by_len k rest'
      else min_by_len best rest'
  end.

Fixpoint max_by_len (best : string) (rest : list string) : string :=
  match rest with
  | [] => best
  | k :: rest' =>
      if Py.len best <? Py.len k then max_by_len k rest'
      else max_by_len best rest'
  end.

(** [word_dist[count] = word_dist.get(count, 0) + 1] *)
Fixpoint tally (word_dist : list (nat * nat)) (count : nat) : list (nat * nat) :=
  match word_dist with
  | [] => [(count, 1)]
  | (c, n) :: rest =>
      if c =? count then (c, S n) :: rest else (c, n) :: tally rest count
  end.

(** [sum(xs) / len(xs)] *)
Definition mean (xs : list nat) : Q :=
  Qmake (Z.of_nat (list_sum xs)) (Pos.of_nat (length xs)).

(** [get_keyword_stats] *)
Definition get_keyword_stats (keywords : list string) : KeywordStats :=
  match keywords with
  | [] => mkStats 0 0 0 "" "" []
  | first :: rest =>
      let lengths := map Py.len keywords in
      let word_counts := map (fun k => length (Py.split_ws k)) keywords in
      let word_dist := fold_left tally word_counts [] in
      mkStats (length keywords) (mean lengths) (mean word_counts)
        (min_by_len first rest) (max_by_len first rest) word_dist
  end.

End KeywordProcessor.

(** ** The keyword grouper ([KeywordGrouper], app/keyword/grouper.py) *)

Module KeywordGrouper.

(** A group as the grouper returns it: the dictionary with the keys
    [id], [name], [keywords] and [score]. *)
Record Group := mkGroup {
  id : string;
  name : string;
  keywords : list string;
  score : Q
}.

(** [word_freq[word] = word_freq.get(word, 0) + 1] on a dictionary, which
    keeps its keys in insertion order. *)
Fixpoint bump (word_freq : list (string * nat)) (word : string)
  : list (string * nat) :=
  match word_freq with
  | [] => [(word, 1)]
  | (w, n) :: rest =>
      if bool_decide (w = word) then (w, S n) :: rest
      else (w, n) :: bump rest word
  end.

Definition count_words (keywords : list string) : list (string * nat) :=
  fold_left
    (fun word_freq keyword =>
       fold_left
         (fun word_freq word =>
            if 2 <? Py.len word then bump word_freq word else word_freq)
         (Py.split_ws keyword) word_freq)
    keywords [].

(** [max(word_freq, key=word_freq.get)]: the first key whose count is the
    largest. *)
Fixpoint max_key (best : string * nat) (rest : list (string * nat)) : string :=
  match rest with
  | [] => fst best
  | (w, n) :: rest' =>
      if snd best <? n then max_key (w, n) rest' else max_key best rest'
  end.

(** [_generate_group_name] *)
Definition _generate_group_name (keywords : list string) : string :=
  match keywords with
  | [] => "Empty Group"
  | [keyword] => keyword
  | first :: _ =>
      match count_words keywords with
      | best :: rest => max_key best rest +:+ " related"
      | [] => first +:+ " group"
      end
  end.

(** The body of the loop of [_fallback_grouping]: append the group of
    the slice that starts at index [i]. *)
Definition fallback_step (keywords : list string) (group_size : nat)
  (groups : list Group) (i : nat) : list Group :=
  let group_keywords := Py.slice keywords i (i + group_size) in
  groups ++
    [ {| id := "group_" +:+ pretty (length groups + 1);
         name := _generate_group_name group_keywords;
         keywords := group_keywords;
         score := 1 # 2 |} ].

(** [_fallback_grouping]: one group per index of
    [range(0, len(keywords), group_size)]. *)
Definition _fallback_grouping (keywords : list string) : list Group :=
  match keywords with
  | [] => []
  | _ =>
      let group_size := Nat.max 3 (length keywords / 5) in
      fold_left (fallback_step keywords group_size)
        (Py.range_step 0 (length keywords) group_size) []
  end.

Section WithModel.

(** The grouper's surroundings: the setting [max_groups_per_batch], the
    sentence-embedding model ([self.model], absent when it failed to
    load; [encode] may raise, which is [None]) and k-means
    ([KMeans(n_clusters).fit_predict], which returns one label per
    embedding or raises). *)
Variable max_groups_per_batch : Z.
Variable Embeddings : Type.
Variable model : option (list string -> option Embeddings).
Variable fit_predict : nat -> Embeddings -> option (list nat).

(** [_generate_embeddings] *)
Definition _generate_embeddings (keywords : list string) : option Embeddings :=
  match model with
  | None => None
  | Some encode => encode keywords
  end.

(** [[keywords[i] for i in range(len(keywords)) if cluster_labels[i] ==
    cluster_id]], over the given indices; [None] is the [IndexError] of
    a label array that is too short. *)
Fixpoint cluster_members (keywords : list string) (cluster_labels : list nat)
  (cluster_id : nat) (indices : list nat) : option (list string) :=
  match indices with
  | [] => Some []
  | i :: indices' =>
      match cluster_labels !! i, keywords !! i with
      | Some label, Some keyword =>
          match cluster_members keywords cluster_labels cluster_id indices' with
          | Some rest =>
              Some (if label =? cluster_id then keyword :: rest else rest)
          | None => None
          end
      | _, _ => None
      end
  end.

(** The loop of [_cluster_keywords] over [range(n_clusters)]. *)
Fixpoint cluster_loop (keywords : list string) (cluster_labels : list nat)
  (cluster_ids : list nat) (groups : list Group) : option (list Group) :=
  match cluster_ids with
  | [] => Some groups
  | cluster_id :: cluster_ids' =>
      match cluster_members keywords cluster_labels cluster_id
              (seq 0 (length keywords)) with
      | Some cluster_keywords =>
          cluster_loop keywords cluster_labels cluster_ids'
            (match cluster_keywords with
             | [] => groups
             | _ =>
                 groups ++
                   [ {| id := "group_" +:+ pretty (cluster_id + 1);
                        name := _generate_group_name cluster_keywords;
                        keywords := cluster_keywords;
                        score := 4 # 5 |} ]
             end)
      | None => None
      end
  end.

(** [_cluster_keywords]; whatever raises inside ends in the fallback. *)
Definition _cluster_keywords (keywords : list string) (embeddings : Embeddings)
  : list Group :=
  let n_clusters :=
    Z.min max_groups_per_batch (Z.max 1 (Z.of_nat (length keywords) / 3)) in
  if (n_clusters <=? 1)%Z then
    [ {| id := "group_1"; name := _generate_group_name keywords;
         keywords := keywords; score := 1 |} ]
  else
    match fit_predict (Z.to_nat n_clusters) embeddings with
    | Some cluster_labels =>
        match cluster_loop keywords cluster_labels
                (seq 0 (Z.to_nat n_clusters)) [] with
        | Some groups => groups
        | None => _fallback_grouping keywords
        end
    | None => _fallback_grouping keywords
    end.

(** [group_keywords] *)
Definition group_keywords (keywords : list string) : list Group :=
  if length keywords <? 2 then
    [ {| id := "group_1";
         name := match keywords with k :: _ => k | [] => "empty" end;
         keywords := keywords; score := 1 |} ]
  else
    match _generate_embeddings keywords with
    | None => _fallback_grouping keywords
    | Some embeddings => _cluster_keywords keywords embeddings
    end.

End WithModel.

Arguments _generate_embeddings {Embeddings} model keywords.
Arguments _cluster_keywords max_groups_per_batch {Embeddings} fit_predict
  keywords embeddings.
Arguments group_keywords max_groups_per_batch {Embeddings} model fit_predict
  keywords.

End KeywordGrouper.


(** ** The cache ([CacheManager], app/storage/cache.py) *)

(** The values the handlers keep in the cache, as [CacheManager.get]
    returns them after [json.loads]: an integer (the request counter) or a
    plain string (the processing marker). *)
Inductive cache_value : Type :=
| VInt (n : Z)
| VStr (s : string).

(** The Redis server behind the client.  [up] says whether the server
    answers (otherwise every command raises); [now] is its clock in
    seconds; each key holds a value and, after [SETEX], the time at which
    it expires. *)
Module Redis.

Record t := mk {
  up : bool;
  now : nat;
  store : gmap string (cache_value * option nat)
}.

(** The entry of a key that has not expired: the server drops a key
    once its clock has passed the expiry time. *)
Definition live (r : t) (key : string) : option (cache_value * option nat) :=
  match store r !! key with
  | Some (v, Some expiry) =>
      if now r <=? expiry then Some (v, Some expiry) else None
  | Some (v, None) => Some (v, None)
  | None => None
  end.

(** The commands return [None] when the client raises.  [SETEX] with a
    time to live of 0 is an error. *)
Definition setex (key : string) (ttl : nat) (v : cache_value) (r : t)
  : option (bool * t) :=
  if up r && (0 <? ttl)
  then Some (true, mk (up r) (now r) (<[key := (v, Some (now r + ttl))]> (store r)))
  else None.

Definition get (key : string) (r : t) : option (option cache_value) :=
  if up r then Some (fst <$> live r key) else None.

Definition delete (key : string) (r : t) : option (Z * t) :=
  if up r
  then Some (match live r key with Some _ => 1%Z | None => 0%Z end,
             mk (up r) (now r) (base.delete key (store r)))
  else None.

Definition exists_ (key : string) (r : t) : option Z :=
  if up r
  then Some (match live r key with Some _ => 1%Z | None => 0%Z end)
  else None.

(** The integers the server counts with: signed 64-bit. *)
Definition int64 (n : Z) : bool := (- 2 ^ 63 <=? n)%Z && (n <? 2 ^ 63)%Z.

(** [INCRBY]: a missing key counts as 0 and gets no expiry; the expiry of
    an existing key is kept; a value that is not an integer, and an
    increment, a value or a sum outside the 64-bit integers, is an
    error. *)
Definition incrby (key : string) (amount : Z) (r : t) : option (Z * t) :=
  if up r && int64 amount then
    match live r key with
    | None =>
        Some (amount, mk (up r) (now r) (<[key := (VInt amount, None)]> (store r)))
    | Some (VInt n, expiry) =>
        if int64 n && int64 (n + amount)
        then Some ((n + amount)%Z,
                   mk (up r) (now r)
                     (<[key := (VInt (n + amount), expiry)]> (store r)))
        else None
    | Some (VStr _, _) => None
    end
  else None.

(** Time passing on the server. *)
Definition advance (seconds : nat) (r : t) : t :=
  mk (up r) (now r + seconds) (store r).

(** [SET key value NX EX ttl]: set only when the key is not there; the
    answer is [True] when the key was set and [None] otherwise.  A time
    to live of 0 is an error. *)
Definition set_nx_ex (key : string) (v : cache_value) (ttl : nat) (r : t)
  : option (bool * t) :=
  if up r && (0 <? ttl) then
    match live r key with
    | Some _ => Some (false, r)
    | None =>
        Some (true,
              mk (up r) (now r) (<[key := (v, Some (now r + ttl))]> (store r)))
    end
  else None.

End Redis.

Module CacheManager.

(** [self.client]: [None] when Redis is not configured or the connection
    failed at start-up. *)
Record t := mk { client : option Redis.t }.

(** [set] *)
Definition set (key : string) (value : cache_value) (ttl : nat) (self : t)
  : bool * t :=
  match client self with
  | None => (false, self)
  | Some r =>
      match Redis.setex key ttl value r with
      | Some (result, r') => (result, mk (Some r'))
      | None => (false, self)
      end
  end.

(** [get] *)
Definition get (key : string) (self : t) : option cache_value * t :=
  match client self with
  | None => (None, self)
  | Some r =>
      match Redis.get key r with
      | Some value => (value, self)
      | None => (None, self)
      end
  end.

(** [delete] *)
Definition delete (key : string) (self : t) : bool * t :=
  match client self with
  | None => (false, self)
  | Some r =>
      match Redis.delete key r with
      | Some (result, r') => ((0 <? result)%Z, mk (Some r'))
      | None => (false, self)
      end
  end.

(** [exists] *)
Definition exists_ (key : string) (self : t) : bool * t :=
  match client self with
  | None => (false, self)
  | Some r =>
      match Redis.exists_ key r with
      | Some result => ((0 <? result)%Z, self)
      | None => (false, self)
      end
  end.

(** [increment] *)
Definition increment (key : string) (amount : Z) (self : t) : Z * t :=
  match client self with
  | None => (0%Z, self)
  | Some r =>
      match Redis.incrby key amount r with
      | Some (result, r') => (result, mk (Some r'))
      | None => (0%Z, self)
      end
  end.

(** Time passing on the server, if there is one. *)
Definition advance (seconds : nat) (self : t) : t :=
  mk (Redis.advance seconds <$> client self).

(** The key of [set_processing_lock]: [f"lock:{batch_id}"]. *)
Definition processing_lock_key (batch_id : string) : string :=
  "lock:" +:+ batch_id.

(** [set_processing_lock]; the value ["1"] reads back as the number 1. *)
Definition set_processing_lock (batch_id : string) (ttl : nat) (self : t)
  : bool * t :=
  let key := processing_lock_key batch_id in
  match client self with
  | None => (false, self)
  | Some r =>
      match Redis.set_nx_ex key (VInt 1) ttl r with
      | Some (result, r') => (result, mk (Some r'))
      | None => (false, self)
      end
  end.

(** [release_processing_lock] *)
Definition release_processing_lock (batch_id : string) (self : t) : bool * t :=
  delete (processing_lock_key batch_id) self.

(** The cache backend is unavailable: there is no client, or the server
    does not answer. *)
Definition unavailable (self : t) : bool :=
  match client self with
  | None => true
  | Some r => negb (Redis.up r)
  end.

End CacheManager.

(** ** The store ([DatabaseManager], app/storage/database.py) *)

(** Exceptions as values. *)
Inductive Result (A : Type) : Type :=
| Ok (a : A)
| Raise (e : string).
Arguments Ok {A} a.
Arguments Raise {A} e.

(** A row of [keyword_batches], which is also the [batch] dictionary the
    handlers pass around. *)
Module Batch.
Record t := mk {
  id : string;
  user_id : string;
  keywords : list string;
  keyword_count : nat;
  status : string;
  source : string;
  completed_at : option string
}.
End Batch.

(** A row of [keyword_groups]. *)
Module GroupRow.
Record t := mk {
  id : string;
  batch_id : string;
  keywords : list string;
  cluster_name : string;
  similarity_score : Q
}.
End GroupRow.

(** An outline as the outline generator returns it. *)
Module Outline.
Record Section_ := mkSection {
  heading : string;
  level : nat;
  description : option string;
  estimated_words : nat
}.
Record t := mk {
  title : string;
  meta_description : string;
  target_keywords : list string;
  estimated_word_count : nat;
  sections : list Section_
}.
End Outline.

(** A post idea as the idea generator returns it. *)
Module PostIdea.
Record t := mk {
  id : string;
  group_id : string;
  title : string;
  content_type : string;
  target_keywords : list string;
  estimated_word_count : nat;
  difficulty : string;
  description : string
}.
End PostIdea.

(** A row of [outlines]. *)
Module OutlineRow.
Record t := mk {
  group_id : string;
  outline_data : Outline.t
}.
End OutlineRow.

Module DatabaseManager.

Section WithStore.

(** The tables, and the number of requests made so far. *)
Record t := mk {
  keyword_batches : gmap string Batch.t;
  keyword_groups : list GroupRow.t;
  outlines : list (OutlineRow.t);
  calls : nat
}.

(** The store's own failures (transport errors and the like): request
    number [n] raises when [fault n] holds. *)
Variable fault : nat -> bool.

(** The identifier the store gives to a new row. *)
Variable new_id : t -> string.

Definition request (self : t) : t :=
  mk (keyword_batches self) (keyword_groups self) (outlines self)
     (S (calls self)).

(** [get_keyword_batch]: the row, or [None] when there is none or the
    request fails. *)
Definition get_keyword_batch (batch_id : string) (self : t)
  : option Batch.t * t :=
  if fault (calls self) then (None, request self)
  else (keyword_batches self !! batch_id, request self).

(** [update_keyword_batch] with the fields [status] and, when given,
    [completed_at]; raises when the request fails or no row comes back. *)
Definition update_keyword_batch (batch_id : string) (status : string)
  (completed_at : option string) (self : t) : Result Batch.t * t :=
  if fault (calls self) then (Raise "store", request self)
  else
    match keyword_batches self !! batch_id with
    | Some b =>
        let b' :=
          Batch.mk (Batch.id b) (Batch.user_id b) (Batch.keywords b)
            (Batch.keyword_count b) status (Batch.source b)
            (match completed_at with
             | Some c => Some c
             | None => Batch.completed_at b
             end) in
        (Ok b',
         mk (<[batch_id := b']> (keyword_batches self)) (keyword_groups self)
            (outlines self) (S (calls self)))
    | None => (Raise "No data returned from update", request self)
    end.

(** [create_keyword_batch] *)
Definition create_keyword_batch (user_id : string) (keywords : list string)
  (keyword_count : nat) (status source : string) (self : t)
  : Result Batch.t * t :=
  if fault (calls self) then (Raise "store", request self)
  else
    let b := Batch.mk (new_id self) user_id keywords keyword_count status
               source None in
    match keyword_batches self !! new_id self with
    | None =>
        (Ok b,
         mk (<[new_id self := b]> (keyword_batches self)) (keyword_groups self)
            (outlines self) (S (calls self)))
    | Some _ => (Raise "No data returned from insert", request self)
    end.

(** [create_keyword_group]: the row gets its identifier from the store. *)
Definition create_keyword_group (batch_id : string) (keywords : list string)
  (cluster_name : string) (similarity_score : Q) (self : t)
  : Result GroupRow.t * t :=
  if fault (calls self) then (Raise "store", request self)
  else
    let row := GroupRow.mk (new_id self) batch_id keywords cluster_name
                 similarity_score in
    (Ok row,
     mk (keyword_batches self) (keyword_groups self ++ [row]) (outlines self)
        (S (calls self))).

(** [get_keyword_groups_by_batch]: the rows, or the empty list when the
    request fails. *)
Definition get_keyword_groups_by_batch (batch_id : string) (self : t)
  : list GroupRow.t * t :=
  if fault (calls self) then ([], request self)
  else
    (filter (fun row => GroupRow.batch_id row = batch_id) (keyword_groups self),
     request self).

(** [create_outline] *)
Definition create_outline (group_id : string) (outline_data : Outline.t)
  (self : t) : Result (OutlineRow.t) * t :=
  if fault (calls self) then (Raise "store", request self)
  else
    let row := OutlineRow.mk group_id outline_data in
    (Ok row,
     mk (keyword_batches self) (keyword_groups self) (outlines self ++ [row])
        (S (calls self))).

(** [update_outline]: rewrite the outlines of the group; raises when the
    request fails or no row comes back. *)
Definition update_outline (group_id : string) (outline_data : Outline.t)
  (self : t) : Result (OutlineRow.t) * t :=
  if fault (calls self) then (Raise "store", request self)
  else
    match filter (fun row => OutlineRow.group_id row = group_id)
            (outlines self) with
    | _ :: _ =>
        let row := OutlineRow.mk group_id outline_data in
        (Ok row,
         mk (keyword_batches self) (keyword_groups self)
            (map (fun r =>
                    if bool_decide (OutlineRow.group_id r = group_id)
                    then row else r)
                 (outlines self))
            (S (calls self)))
    | [] => (Raise "No data returned from update", request self)
    end.

End WithStore.

End DatabaseManager.

(** ** The messages ([MessageFormatter], app/slack/formatter.py) *)

Module MessageFormatter.

(** One constructor per formatter method the handlers call; [text] is the
    top-level ["text"] field of the payload. *)
Inductive Message : Type :=
| format_upload_instructions
| format_paste_instructions
| format_keywords_uploaded (batch_id : string) (keyword_count : nat)
| format_processing_started (batch_id : string) (keyword_count : nat)
| format_processing_step (step_name : string) (current total : nat)
| format_processing_completed (batch_id : string) (groups_count ideas_count : nat)
    (download_url : string)
| format_no_keywords_found
| format_batch_not_found
| format_unauthorized_batch
| format_already_processing
| format_processing_failed (batch_id : string)
| format_rate_limit_exceeded
| format_error_message
| format_email_sent
| format_process_usage
| format_regenerate_usage
| format_no_groups_found
| format_regeneration_started (batch_id : string)
| format_regeneration_completed (batch_id : string).

Definition text (m : Message) : string :=
  match m with
  | format_upload_instructions => "📁 Upload Keywords"
  | format_paste_instructions => "📝 Paste Keywords"
  | format_keywords_uploaded batch_id _ =>
      "✅ Keywords uploaded successfully! Batch ID: " +:+ batch_id
  | format_processing_started batch_id _ =>
      "🚀 Processing started for batch " +:+ batch_id
  | format_processing_step step_name current total =>
      "🔄 Step " +:+ pretty current +:+ "/" +:+ pretty total +:+ ": " +:+ step_name
  | format_processing_completed batch_id _ _ _ =>
      "✅ Processing completed for batch " +:+ batch_id
  | format_no_keywords_found => "❌ No keywords found"
  | format_batch_not_found => "❌ Batch not found"
  | format_unauthorized_batch => "🔒 Access denied"
  | format_already_processing => "⚠️ Already processing"
  | format_processing_failed batch_id =>
      "❌ Processing failed for batch " +:+ batch_id
  | format_rate_limit_exceeded => "⚠️ Rate limit exceeded"
  | format_error_message => "❌ An error occurred"
  | format_email_sent => "📧 Report emailed"
  | format_process_usage => "Usage: /process <batch_id>"
  | format_regenerate_usage => "Usage: /regenerate <batch_id>"
  | format_no_groups_found => "❌ No groups found"
  | format_regeneration_started batch_id =>
      "🔄 Regenerating outlines for batch " +:+ batch_id
  | format_regeneration_completed batch_id =>
      "✅ Outlines regenerated for batch " +:+ batch_id
  end.

End MessageFormatter.

(** ** The command handlers ([CommandHandler], app/slack/commands.py) *)

Module CommandHandler.

Import MessageFormatter.

(** A slash command as Slack delivers it. *)
Record Command := mkCommand {
  user_id : string;
  channel_id : string;
  text : string
}.

(** Modelled from the spec: the result of the report generator
    ([PDFGenerator.generate_report] of [app/reports/pdf_generator.py],
    a module the handler imports), a download reference and an
    email-sent flag; the handler reads them as [report["download_url"]]
    and [report.get("email_sent")]. *)
Record Report := mkReport {
  download_url : string;
  email_sent : bool
}.

Section WithCollaborators.

(** The collaborators of the handler: the grouper's setting and models,
    the store's failures and identifiers, the Slack client's failures
    ([chat_postMessage] raises on the messages [slack_fault] selects), and
    the outline, idea and report generators, each of which may raise
    ([None]). *)
Variable Embeddings : Type.
Variable max_groups_per_batch : Z.
Variable model : option (list string -> option Embeddings).
Variable fit_predict : nat -> Embeddings -> option (list nat).
Variable db_fault : nat -> bool.
Variable new_id : DatabaseManager.t -> string.
Variable slack_fault : string -> Message -> bool.
Variable generate_outline : list string -> option Outline.t.
Variable generate_ideas : list KeywordGrouper.Group -> option (list PostIdea.t).
Variable generate_report :
  string -> list KeywordGrouper.Group -> list PostIdea.t -> option Report.

(** The state the handlers act on: the store, the cache, the messages
    posted to Slack so far (channel and payload), and the background tasks
    created so far (batch and channel of each
    [_process_batch_background]). *)
Record World := mkWorld {
  db : DatabaseManager.t;
  cache : CacheManager.t;
  sent : list (string * Message);
  tasks : list (Batch.t * string)
}.

(** A handler step: a result or an exception, and the state left behind. *)
Definition M (A : Type) : Type := World -> Result A * World.

Definition ret {A} (a : A) : M A := fun w => (Ok a, w).

Definition raise {A} (e : string) : M A := fun w => (Raise e, w).

Definition bind {A B} (m : M A) (k : A -> M B) : M B :=
  fun w =>
    match m w with
    | (Ok a, w') => k a w'
    | (Raise e, w') => (Raise e, w')
    end.

(** [try: body except Exception as e: handler] *)
Definition try_except {A} (body : M A) (handler : string -> M A) : M A :=
  fun w =>
    match body w with
    | (Ok a, w') => (Ok a, w')
    | (Raise e, w') => handler e w'
    end.

Notation "x <- m ;; k" := (bind m (fun x => k))
  (at level 100, m at next level, right associativity).
Notation "m ;; k" := (bind m (fun _ => k))
  (at level 100, right associativity).

(** [for x in l: body(x)] *)
Fixpoint for_each {A} (l : list A) (body : A -> M unit) : M unit :=
  match l with
  | [] => ret tt
  | x :: l' => body x ;; for_each l' body
  end.

(** A collaborator's answer, [None] being an exception. *)
Definition call {A} (e : string) (r : option A) : M A :=
  match r with
  | Some a => ret a
  | None => raise e
  end.

(** The cache and the store inside the world. *)
Definition on_cache {A} (op : CacheManager.t -> A * CacheManager.t) : M A :=
  fun w =>
    let (a, c) := op (cache w) in
    (Ok a, mkWorld (db w) c (sent w) (tasks w)).

Definition on_db {A}
  (op : DatabaseManager.t -> A * DatabaseManager.t) : M A :=
  fun w =>
    let (a, d) := op (db w) in
    (Ok a, mkWorld d (cache w) (sent w) (tasks w)).

Definition on_db_raising {A}
  (op : DatabaseManager.t -> Result A * DatabaseManager.t)
  : M A :=
  fun w =>
    let (r, d) := op (db w) in
    (r, mkWorld d (cache w) (sent w) (tasks w)).

(** [client.chat_postMessage(channel=..., **message)] *)
Definition chat_postMessage (channel : string) (message : Message) : M unit :=
  fun w =>
    if slack_fault channel message then (Raise "SlackApiError", w)
    else
      (Ok tt, mkWorld (db w) (cache w) (sent w ++ [(channel, message)]) (tasks w)).

(** [asyncio.create_task(self._process_batch_background(batch, channel_id,
    client))]: the task is only created here, it runs later. *)
Definition create_task (batch : Batch.t) (channel : string) : M unit :=
  fun w =>
    (Ok tt, mkWorld (db w) (cache w) (sent w) (tasks w ++ [(batch, channel)])).

(** [_send_rate_limit_message] *)
Definition _send_rate_limit_message (channel : string) : M unit :=
  chat_postMessage channel format_rate_limit_exceeded.

(** [_send_error_message] *)
Definition _send_error_message (channel : string) : M unit :=
  chat_postMessage channel format_error_message.

(** The counter key of a user: [f"rate_limit:{user_id}"]. *)
Definition rate_limit_key (user : string) : string := "rate_limit:" +:+ user.

(** [_check_rate_limit]; comparing a string with 10 is a [TypeError]. *)
Definition _check_rate_limit (user : string) : M bool :=
  let key := rate_limit_key user in
  current <- on_cache (CacheManager.get key) ;;
  match current with
  | None =>
      on_cache (CacheManager.set key (VInt 1) 900) ;;
      ret true
  | Some (VInt n) =>
      if (10 <=? n)%Z then ret false
      else
        (on_cache (CacheManager.increment key 1) ;;
         ret true)
  | Some (VStr _) => raise "TypeError"
  end.

(** [_process_keywords_from_text] *)
Definition _process_keywords_from_text (text user channel : string) : M unit :=
  try_except
    (let keywords := KeywordProcessor.parse_keywords text in
     match keywords with
     | [] => chat_postMessage channel format_no_keywords_found
     | _ =>
         batch <- on_db_raising
                    (DatabaseManager.create_keyword_batch db_fault new_id
                       user keywords (length keywords) "uploaded" "text") ;;
         chat_postMessage channel
           (format_keywords_uploaded (Batch.id batch) (length keywords))
     end)
    (fun _ => _send_error_message channel).

(** [handle_keywords_command] *)
Definition handle_keywords_command (command : Command) : M unit :=
  try_except
    (let user := user_id command in
     let channel := channel_id command in
     let text := Py.strip (text command) in
     allowed <- _check_rate_limit user ;;
     if negb allowed then _send_rate_limit_message channel
     else if bool_decide (text = "") || bool_decide (text = "upload")
     then chat_postMessage channel format_upload_instructions
     else if bool_decide (text = "paste")
     then chat_postMessage channel format_paste_instructions
     else _process_keywords_from_text text user channel)
    (fun _ => _send_error_message (channel_id command)).

(** The lock key of a batch: [f"processing:{batch_id}"]. *)
Definition lock_key (batch_id : string) : string := "processing:" +:+ batch_id.

(** [_process_batch_background]: the body of its [try], the body of its
    [except], and the two together. *)
Definition pipeline (batch : Batch.t) (channel : string) : M unit :=
  let batch_id := Batch.id batch in
  on_db_raising
    (DatabaseManager.update_keyword_batch db_fault batch_id "processing" None) ;;
  chat_postMessage channel (format_processing_step "Grouping keywords" 1 4) ;;
  let groups :=
    KeywordGrouper.group_keywords max_groups_per_batch model
      fit_predict (Batch.keywords batch) in
  for_each groups
    (fun group =>
       on_db_raising
         (DatabaseManager.create_keyword_group db_fault new_id batch_id
            (KeywordGrouper.keywords group) (KeywordGrouper.name group)
            (KeywordGrouper.score group)) ;;
       ret tt) ;;
  chat_postMessage channel (format_processing_step "Generating outlines" 2 4) ;;
  for_each groups
    (fun group =>
       outline <- call "outline" (generate_outline (KeywordGrouper.keywords group)) ;;
       on_db_raising
         (DatabaseManager.create_outline db_fault (KeywordGrouper.id group)
            outline) ;;
       ret tt) ;;
  chat_postMessage channel (format_processing_step "Generating post ideas" 3 4) ;;
  post_ideas <- call "ideas" (generate_ideas groups) ;;
  chat_postMessage channel (format_processing_step "Generating report" 4 4) ;;
  report <- call "report" (generate_report batch_id groups post_ideas) ;;
  on_db_raising
    (DatabaseManager.update_keyword_batch db_fault batch_id "completed"
       (Some "now()")) ;;
  chat_postMessage channel
    (format_processing_completed batch_id (length groups) (length post_ideas)
       (download_url report)) ;;
  (if email_sent report then chat_postMessage channel format_email_sent
   else ret tt) ;;
  on_cache (CacheManager.delete (lock_key batch_id)) ;;
  ret tt.

Definition on_failure (batch : Batch.t) (channel : string) : M unit :=
  let batch_id := Batch.id batch in
  on_db_raising
    (DatabaseManager.update_keyword_batch db_fault batch_id "failed" None) ;;
  on_cache (CacheManager.delete (lock_key batch_id)) ;;
  chat_postMessage channel (format_processing_failed batch_id).

Definition _process_batch_background (batch : Batch.t) (channel : string)
  : M unit :=
  try_except (pipeline batch channel) (fun _ => on_failure batch channel).

(** [_start_batch_processing] *)
Definition _start_batch_processing (batch : Batch.t) (channel : string)
  : M unit :=
  try_except
    (let batch_id := Batch.id batch in
     locked <- on_cache (CacheManager.exists_ (lock_key batch_id)) ;;
     if locked then chat_postMessage channel format_already_processing
     else
       (on_cache (CacheManager.set (lock_key batch_id) (VStr "processing") 1800) ;;
        chat_postMessage channel
          (format_processing_started batch_id (Batch.keyword_count batch)) ;;
        create_task batch channel))
    (fun _ => _send_error_message channel).

(** [handle_process_command] *)
Definition handle_process_command (command : Command) : M unit :=
  try_except
    (let user := user_id command in
     let channel := channel_id command in
     let batch_id := Py.strip (text command) in
     if bool_decide (batch_id = "")
     then chat_postMessage channel format_process_usage
     else
       (batch <- on_db (DatabaseManager.get_keyword_batch db_fault batch_id) ;;
        match batch with
        | None => chat_postMessage channel format_batch_not_found
        | Some batch =>
            if negb (bool_decide (Batch.user_id batch = user))
            then chat_postMessage channel format_unauthorized_batch
            else _start_batch_processing batch channel
        end))
    (fun _ => _send_error_message (channel_id command)).

(** [_looks_like_keywords] *)
Definition _looks_like_keywords (text : string) : bool :=
  if bool_decide (text = "") || (Py.len text <? 20) then false
  else
    let comma_count := Py.count ","%char text in
    let newline_count := Py.count (ascii_of_nat 10) text in
    ((2 <? comma_count) && (3 <? length (Py.split_on ","%char text)))
    || ((2 <? newline_count)
        && (3 <? length (Py.split_on (ascii_of_nat 10) text))).

(** [_regenerate_outlines] *)
Definition _regenerate_outlines (batch : Batch.t) (channel : string) : M unit :=
  try_except
    (let batch_id := Batch.id batch in
     groups <- on_db (DatabaseManager.get_keyword_groups_by_batch db_fault batch_id) ;;
     match groups with
     | [] => chat_postMessage channel format_no_groups_found
     | _ =>
         chat_postMessage channel (format_regeneration_started batch_id) ;;
         for_each groups
           (fun group =>
              outline <- call "outline" (generate_outline (GroupRow.keywords group)) ;;
              on_db_raising
                (DatabaseManager.update_outline db_fault (GroupRow.id group)
                   outline) ;;
              ret tt) ;;
         chat_postMessage channel (format_regeneration_completed batch_id)
     end)
    (fun _ => _send_error_message channel).

(** [handle_regenerate_command] *)
Definition handle_regenerate_command (command : Command) : M unit :=
  try_except
    (let user := user_id command in
     let channel := channel_id command in
     let batch_id := Py.strip (text command) in
     if bool_decide (batch_id = "")
     then chat_postMessage channel format_regenerate_usage
     else
       (batch <- on_db (DatabaseManager.get_keyword_batch db_fault batch_id) ;;
        match batch with
        | None => chat_postMessage channel format_batch_not_found
        | Some batch =>
            if negb (bool_decide (Batch.user_id batch = user))
            then chat_postMessage channel format_batch_not_found
            else _regenerate_outlines batch channel
        end))
    (fun _ => _send_error_message (channel_id command)).

End WithCollaborators.

(** Time passing between two requests. *)
Definition advance (seconds : nat) (w : World) : World :=
  mkWorld (db w) (CacheManager.advance seconds (cache w)) (sent w) (tasks w).

(** The rate-limit checks of one user, each made after waiting the given
    number of seconds; the answers in order, and the final state. *)
Fixpoint requests (user : string) (delays : list nat) (w : World)
  : list (Result bool) * World :=
  match delays with
  | [] => ([], w)
  | delay :: delays' =>
      let (answer, w1) := _check_rate_limit user (advance delay w) in
      let (answers, w2) := requests user delays' w1 in
      (answer :: answers, w2)
  end.

(** The status the store holds for a batch. *)
Definition persisted_status (batch_id : string) (w : World) : option string :=
  Batch.status <$> (DatabaseManager.keyword_batches (db w) !! batch_id).

(** Whether the cache reports the processing lock of a batch. *)
Definition lock_exists (batch_id : string) (w : World) : bool :=
  fst (CacheManager.exists_ (lock_key batch_id) (cache w)).

Arguments pipeline {Embeddings} max_groups_per_batch model fit_predict db_fault
  new_id slack_fault generate_outline generate_ideas generate_report batch
  channel _.
Arguments _process_batch_background {Embeddings} max_groups_per_batch model
  fit_predict db_fault new_id slack_fault generate_outline generate_ideas
  generate_report batch channel _.

End CommandHandler.

(** ** The idea generator ([PostIdeaGenerator],
    app/post_ideas/idea_generator.py) *)

Module PostIdeaGenerator.

(** The content types of [_generate_group_ideas]: the type and its title
    template, split at the placeholder [{keyword}]. *)
Definition content_types : list (string * (string * string)) :=
  [ ("How-to Guide", ("How to ", ": Step-by-Step Guide"));
    ("Listicle", ("10 Essential ", " Tips"));
    ("Comparison", ("", " vs Alternatives: Complete Comparison"));
    ("Case Study", ("Real ", " Success Stories and Case Studies"));
    ("Beginner Guide", ("", " for Beginners: Getting Started")) ].

(** [_estimate_word_count] *)
Definition _estimate_word_count (content_type : string) : nat :=
  if bool_decide (content_type = "How-to Guide") then 1500
  else if bool_decide (content_type = "Listicle") then 1200
  else if bool_decide (content_type = "Comparison") then 2000
  else if bool_decide (content_type = "Case Study") then 1800
  else if bool_decide (content_type = "Beginner Guide") then 1600
  else 1500.

(** [_assess_difficulty] *)
Definition _assess_difficulty (keyword : string) : string :=
  let word_count := length (Py.split_ws keyword) in
  if word_count =? 1 then "Hard"
  else if word_count =? 2 then "Medium"
  else "Easy".

(** [_generate_description] *)
Definition _generate_description (content_type keyword : string) : string :=
  if bool_decide (content_type = "How-to Guide") then
    "A comprehensive step-by-step guide covering all aspects of " +:+ keyword
    +:+ ". Perfect for readers looking for actionable instructions."
  else if bool_decide (content_type = "Listicle") then
    "An engaging list-format article highlighting the most important "
    +:+ keyword +:+ " tips and strategies."
  else if bool_decide (content_type = "Comparison") then
    "An in-depth comparison analyzing " +:+ keyword
    +:+ " against alternatives, helping readers make informed decisions."
  else if bool_decide (content_type = "Case Study") then
    "Real-world examples and success stories showcasing effective "
    +:+ keyword +:+ " implementation."
  else if bool_decide (content_type = "Beginner Guide") then
    "A beginner-friendly introduction to " +:+ keyword
    +:+ ", covering fundamentals and getting started tips."
  else "Comprehensive content about " +:+ keyword +:+ ".".

(** [_generate_group_ideas] *)
Definition _generate_group_ideas (group : KeywordGrouper.Group)
  : list PostIdea.t :=
  let keywords := KeywordGrouper.keywords group in
  let group_name := KeywordGrouper.name group in
  let main_keyword :=
    match keywords with k :: _ => k | [] => group_name end in
  map (fun content_type =>
         let type := fst content_type in
         let template := snd content_type in
         PostIdea.mk
           ("idea_" +:+ KeywordGrouper.id group +:+ "_"
            +:+ Py.replace_char " "%char "_"%char (Py.lower type))
           (KeywordGrouper.id group)
           (fst template +:+ main_keyword +:+ snd template)
           type
           (Py.slice keywords 0 3)
           (_estimate_word_count type)
           (_assess_difficulty main_keyword)
           (_generate_description type main_keyword))
      content_types.

(** [generate_ideas]; nothing in its body raises on a list of groups, so
    the [except] branch (which returns the empty list) is never taken. *)
Definition generate_ideas (keyword_groups : list KeywordGrouper.Group)
  : list PostIdea.t :=
  concat (map _generate_group_ideas keyword_groups).

End PostIdeaGenerator.

(** ** Reference definitions for the statements *)

(** Contiguous chunks of a list: the first [size] elements, then the
    chunks of the rest. *)
Fixpoint contiguous_chunks_go {A} (fuel size : nat) (l : list A)
  : list (list A) :=
  match fuel with
  | 0 => []
  | S fuel' =>
      match l with
      | [] => []
      | _ => take size l :: contiguous_chunks_go fuel' size (drop size l)
      end
  end.

Definition contiguous_chunks {A} (size : nat) (l : list A) : list (list A) :=
  contiguous_chunks_go (length l) size l.

(** The keywords that carry the label [c], read off the two lists side by
    side. *)
Fixpoint bucket (keywords : list string) (labels : list nat) (c : nat)
  : list string :=
  match keywords, labels with
  | k :: keywords', l :: labels' =>
      if l =? c then k :: bucket keywords' labels' c
      else bucket keywords' labels' c
  | _, _ => []
  end.

(** ** A concrete deployment, for the examples *)

Module Scenario.

Definition keywords12 : list string :=
  [ "seo tips"; "seo guide"; "content marketing"; "content plan";
    "email marketing"; "email list"; "link building"; "link audit";
    "video ads"; "video editing"; "social media"; "social ads" ].

(** An embedding model that always answers and a k-means that puts the
    keyword at index [i] into cluster [i mod k]. *)
Definition encode (keywords : list string) : option (list string) :=
  Some keywords.

Definition kmeans (k : nat) (embeddings : list string) : option (list nat) :=
  if k =? 0 then None
  else Some (map (fun i => i mod k) (seq 0 (length embeddings))).

Definition no_model : option (list string -> option (list string)) := None.

Definition batch : Batch.t :=
  Batch.mk "b1" "alice" keywords12 12 "uploaded" "text" None.

Definition store : DatabaseManager.t :=
  DatabaseManager.mk {[ "b1" := batch ]} [] [] 0.

Definition empty_store : DatabaseManager.t :=
  DatabaseManager.mk ∅ [] [] 0.

(** A cache that holds the processing lock of the batch, set at time 100. *)
Definition redis_locked : Redis.t :=
  Redis.mk true 100
    {[ CommandHandler.lock_key "b1" := (VStr "processing", Some 1900) ]}.

Definition redis_empty : Redis.t := Redis.mk true 100 ∅.

Definition world_locked : CommandHandler.World :=
  CommandHandler.mkWorld store (CacheManager.mk (Some redis_locked)) [] [].

Definition world_fresh : CommandHandler.World :=
  CommandHandler.mkWorld store (CacheManager.mk (Some redis_empty)) [] [].

Definition world_without_batch : CommandHandler.World :=
  CommandHandler.mkWorld empty_store (CacheManager.mk (Some redis_empty)) [] [].

Definition world_without_cache : CommandHandler.World :=
  CommandHandler.mkWorld store (CacheManager.mk None) [] [].

(** A store that answers every request, and one that answers the first
    request only. *)
Definition store_up (n : nat) : bool := false.


Definition slack_up (channel : string) (m : MessageFormatter.Message) : bool :=
  false.

Definition new_id (d : DatabaseManager.t) : string :=
  "row_" +:+ pretty (DatabaseManager.calls d).

Definition outline (keywords : list string) : Outline.t :=
  Outline.mk "Guide" "Learn." keywords 1500
    [ Outline.mkSection "Introduction" 2 None 200 ].

Definition outlines_up (keywords : list string) : option Outline.t :=
  Some (outline keywords).


Definition ideas (groups : list KeywordGrouper.Group)
  : option (list PostIdea.t) :=
  Some [].

Definition report (batch_id : string) (groups : list KeywordGrouper.Group)
  (post_ideas : list PostIdea.t) : option CommandHandler.Report :=
  Some (CommandHandler.mkReport ("/api/reports/" +:+ batch_id) false).

(** Bob asks for Alice's batch. *)
Definition command_of_bob : CommandHandler.Command :=
  CommandHandler.mkCommand "bob" "C042" "b1".

Definition command_of_alice : CommandHandler.Command :=
  CommandHandler.mkCommand "alice" "C042" "seo tips, seo guide".

(** Ten further requests, one a minute. *)
Definition one_a_minute : list nat := replicate 10 60.

End Scenario.

(** ** Reference definitions for the further properties *)

Import KeywordProcessor KeywordGrouper MessageFormatter CommandHandler.

(** The fragments of a text after the four splitting passes of
    [parse_keywords]: at commas, newlines, semicolons and tabs. *)
Definition fragments (text : string) : list string :=
  fold_left
    (fun keywords delimiter => concat (map (Py.split_on delimiter) keywords))
    [","%char; ascii_of_nat 10; ";"%char; ascii_of_nat 9] [text].

(** The form under which [deduplicate_keywords] compares two keywords. *)
Definition normal_form (keyword : string) : string :=
  Py.strip (Py.lower keyword).

(** The words [_generate_group_name] counts: the words of more than two
    characters of all the keywords, in order, with repetitions. *)
Definition significant_words (keywords : list string) : list string :=
  concat (map (fun keyword =>
                 List.filter (fun word => 2 <? Py.len word) (Py.split_ws keyword))
            keywords).

(** How often a word occurs in a list. *)
Fixpoint occurrences (word : string) (words : list string) : nat :=
  match words with
  | [] => 0
  | w :: words' =>
      if bool_decide (w = word) then S (occurrences word words')
      else occurrences word words'
  end.

(** The count a frequency table holds for a word. *)
Fixpoint frequency (word_freq : list (string * nat)) (word : string) : nat :=
  match word_freq with
  | [] => 0
  | (w, n) :: rest => if bool_decide (w = word) then n else frequency rest word
  end.

(** The identifier of the [i]-th group: [f"group_{i}"]. *)
Definition group_id (i : nat) : string := "group_" +:+ pretty i.

(** All groups carry one score, and it is 1.0, 0.8 or 0.5. *)
Definition one_score (groups : list Group) : Prop :=
  exists s, (s = 1%Q \/ s = 4 # 5 \/ s = 1 # 2)
            /\ Forall (fun g => score g = s) groups.

(** What a stored group row says, apart from the identifier the store
    gave it, and what the handler asked the store to write for a group. *)
Definition row_content (row : GroupRow.t)
  : string * list string * string * Q :=
  (GroupRow.batch_id row, GroupRow.keywords row, GroupRow.cluster_name row,
   GroupRow.similarity_score row).

Definition group_content (batch_id : string) (group : Group)
  : string * list string * string * Q :=
  (batch_id, keywords group, name group, score group).

(** Alice asks for her own batch. *)
Definition command_of_alice_for_b1 : Command := mkCommand "alice" "C042" "b1".

(** Whether the server holds the processing lock of a batch, unexpired,
    whether or not it answers at the moment. *)
Definition lock_held (batch_id : string) (w : World) : bool :=
  match CacheManager.client (cache w) with
  | Some r =>
      match Redis.live r (lock_key batch_id) with
      | Some _ => true
      | None => false
      end
  | None => false
  end.

(** The cache carries out the commands it is given: no server is
    configured, or the server answers. *)
Definition cache_answers (w : World) : bool :=
  match CacheManager.client (cache w) with
  | Some r => Redis.up r
  | None => true
  end.


(** A handler step keeps a relation between the state before and the
    state after, whatever its result. *)
Definition keeps {A} (R : World -> World -> Prop) (m : M A) : Prop :=
  forall w, R w (snd (m w)).

(** What a regeneration may change: the outline data of existing outline
    rows, the request count of the store, and the messages posted. *)
Definition regenerate_frame (w w' : World) : Prop :=
  cache w' = cache w
  /\ tasks w' = tasks w
  /\ DatabaseManager.keyword_batches (db w')
     = DatabaseManager.keyword_batches (db w)
  /\ DatabaseManager.keyword_groups (db w')
     = DatabaseManager.keyword_groups (db w)
  /\ map OutlineRow.group_id (DatabaseManager.outlines (db w'))
     = map OutlineRow.group_id (DatabaseManager.outlines (db w))
  /\ sent w `prefix_of` sent w'.

(** What a background run on a batch may change: the row of that batch,
    the lock key of that batch (by deleting it), new group and outline
    rows at the end of their tables, and messages to the run's channel. *)
Definition run_frame (batch_id channel : string) (w w' : World) : Prop :=
  tasks w' = tasks w
  /\ (cache w' = cache w
      \/ cache w' = snd (CacheManager.delete (lock_key batch_id) (cache w)))
  /\ (forall other,
        other <> batch_id ->
        DatabaseManager.keyword_batches (db w') !! other
        = DatabaseManager.keyword_batches (db w) !! other)
  /\ (forall other,
        is_Some (DatabaseManager.keyword_batches (db w') !! other)
        <-> is_Some (DatabaseManager.keyword_batches (db w) !! other))
  /\ DatabaseManager.keyword_groups (db w)
     `prefix_of` DatabaseManager.keyword_groups (db w')
  /\ DatabaseManager.outlines (db w)
     `prefix_of` DatabaseManager.outlines (db w')
  /\ (exists posted,
        sent w' = sent w ++ posted /\ Forall (fun m => fst m = channel) posted).

(** * Properties *)

Import KeywordProcessor KeywordGrouper MessageFormatter CommandHandler.

(** ** Normalisation *)

(** The checks of the repository's own test suite
    ([tests/test_keyword_processor.py]) and of the specification's
    examples, run on the embedding. *)
Example test_clean_keyword :
  _clean_keyword "  SEO Optimization!!!  " = "seo optimization".
Proof. vm_compute. reflexivity. Qed.

Example test_is_valid_keyword :
  _is_valid_keyword "seo optimization" = true
  /\ _is_valid_keyword "a" = false
  /\ _is_valid_keyword "123" = false
  /\ _is_valid_keyword "" = false.
Proof. vm_compute. repeat split; reflexivity. Qed.

Example test_parse_comma_separated_keywords :
  parse_keywords "seo optimization, content marketing, digital strategy"
  = ["seo optimization"; "content marketing"; "digital strategy"].
Proof. vm_compute. reflexivity. Qed.

Example test_parse_newline_separated_keywords :
  parse_keywords "seo optimization
content marketing
digital strategy"
  = ["seo optimization"; "content marketing"; "digital strategy"].
Proof. vm_compute. reflexivity. Qed.

Example parse_drops_duplicates :
  parse_keywords "aa, bb, bb, cc" = ["aa"; "bb"; "cc"].
Proof. vm_compute. reflexivity. Qed.

Example parse_blank_input :
  parse_keywords "" = [] /\ parse_keywords "   " = [].
Proof. vm_compute. split; reflexivity. Qed.

(** C2. Normalisation is meant to be idempotent, but [_clean_keyword]
    is not: it collapses whitespace before it deletes the special
    characters, so deleting a character that stood between two blanks
    leaves a double blank that only a second pass collapses. *)
Theorem clean_keyword_not_idempotent :
  _clean_keyword "a ! b" = "a  b"
  /\ _clean_keyword (_clean_keyword "a ! b") = "a b"
  /\ _clean_keyword (_clean_keyword "a ! b") <> _clean_keyword "a ! b".
Proof.
  repeat split; try (vm_compute; reflexivity).
  vm_compute. discriminate.
Qed.

(** ** Similarity filter *)






(** The quotient is the double Python computes: [2 / 3] is
    0.6666666666666666, that is 6004799503160661 / 2^53, and a threshold
    of that very value is not exceeded. *)
Example true_divide_two_thirds :
  Qred (true_divide 2 3) = 6004799503160661 # 9007199254740992
  /\ Qred (true_divide 1 10) = 3602879701896397 # 36028797018963968
  /\ Qred (true_divide 1 2) = 1 # 2.
Proof. vm_compute. repeat split; reflexivity. Qed.

Example filter_at_the_rounded_quotient :
  filter_similar_keywords ["content marketing"; "content marketing strategy"]
    (6004799503160661 # 9007199254740992)
  = ["content marketing"; "content marketing strategy"]
  /\ filter_similar_keywords
       ["content marketing"; "content marketing strategy"]
       (6004799503160660 # 9007199254740992)
     = ["content marketing"].
Proof. vm_compute. split; reflexivity. Qed.

(** ** Grouping *)

Lemma ceil_div_step n g :
  0 < n -> 0 < g -> (n + g - 1) / g = S ((n - g + g - 1) / g).
Proof.
  intros Hn Hg.
  destruct (le_lt_dec g n) as [Hle | Hlt].
  - replace (n + g - 1) with ((n - g + g - 1) + 1 * g) by lia.
    rewrite Nat.div_add by lia. lia.
  - replace (n - g) with 0 by lia. simpl.
    rewrite (Nat.div_small (g - 1) g) by lia.
    symmetry. apply (Nat.div_unique _ _ 1 (n - 1)); lia.
Qed.

Lemma range_step_nil g : 0 < g -> Py.range_step 0 0 g = [].
Proof.
  intros Hg. unfold Py.range_step.
  replace ((0 - 0 + g - 1) / g) with 0; [reflexivity |].
  symmetry. apply Nat.div_small. lia.
Qed.

(** The slices taken at the indices of [range(0, len(l), g)] are the
    contiguous chunks of [l]. *)
Lemma slices_chunks {A} (g : nat) : 0 < g -> forall fuel (l : list A),
  length l <= fuel ->
  map (fun i => Py.slice l i (i + g)) (Py.range_step 0 (length l) g)
  = contiguous_chunks_go fuel g l.
Proof.
  intros Hg.
  induction fuel as [| fuel IH]; intros l Hl.
  - destruct l; cbn [length] in Hl; [| lia].
    cbn [length]. rewrite range_step_nil by lia. reflexivity.
  - destruct l as [| x l'].
    + cbn [length]. rewrite range_step_nil by lia. reflexivity.
    + set (l := x :: l') in *.
      assert (Hlen : 0 < length l) by (simpl; lia).
      change (contiguous_chunks_go (S fuel) g l)
        with (take g l :: contiguous_chunks_go fuel g (drop g l)).
      rewrite <- IH by (rewrite length_drop; simpl in *; lia).
      unfold Py.range_step, Py.slice.
      rewrite !Nat.sub_0_r, (ceil_div_step (length l) g) by lia.
      rewrite <- cons_seq, <- seq_shift.
      rewrite !map_cons, !map_map.
      f_equal.
      { rewrite drop_0. f_equal. lia. }
      rewrite length_drop.
      apply map_ext. intros k. rewrite drop_drop.
      replace (0 + S k * g + g - (0 + S k * g)) with g by lia.
      replace (0 + k * g + g - (0 + k * g)) with g by lia.
      replace (0 + S k * g) with (g + (0 + k * g)) by lia.
      reflexivity.
Qed.

Lemma chunks_concat {A} g : 0 < g -> forall fuel (l : list A),
  length l <= fuel -> concat (contiguous_chunks_go fuel g l) = l.
Proof.
  intros Hg. induction fuel as [| fuel IH]; intros l Hl.
  - destruct l; [reflexivity | simpl in Hl; lia].
  - destruct l as [| x l']; [reflexivity |].
    set (l := x :: l') in *.
    change (contiguous_chunks_go (S fuel) g l)
      with (take g l :: contiguous_chunks_go fuel g (drop g l)).
    rewrite concat_cons, IH, take_drop; [reflexivity |].
    rewrite length_drop. subst l. simpl in *. lia.
Qed.

Lemma chunks_Forall {A} (P : list A -> list A -> Prop) g :
  (forall l, l <> [] -> P (take g l) l) ->
  (forall c l, P c (drop g l) -> P c l) ->
  forall fuel (l : list A),
    Forall (fun c => P c l) (contiguous_chunks_go fuel g l).
Proof.
  intros Htake Hdrop. induction fuel as [| fuel IH]; intros l; [constructor |].
  destruct l as [| x l']; [constructor |].
  set (l := x :: l') in *.
  change (contiguous_chunks_go (S fuel) g l)
    with (take g l :: contiguous_chunks_go fuel g (drop g l)).
  constructor; [apply Htake; discriminate |].
  eapply Forall_impl; [apply IH |]. intros c Hc. apply Hdrop, Hc.
Qed.

Lemma chunks_sublist {A} g fuel (l : list A) :
  Forall (fun c => sublist c l) (contiguous_chunks_go fuel g l).
Proof.
  apply (chunks_Forall (fun c l => sublist c l)).
  - intros l0 _. apply sublist_take.
  - intros c l0 Hc. etransitivity; [exact Hc | apply sublist_drop].
Qed.

Lemma chunks_nonempty {A} g fuel (l : list A) :
  0 < g -> Forall (fun c => c <> []) (contiguous_chunks_go fuel g l).
Proof.
  intros Hg.
  apply (chunks_Forall (fun c _ => c <> [])); [| auto].
  intros [| x l0] Hl0; [contradiction |].
  destruct g; [lia | discriminate].
Qed.

Lemma fallback_fold (K : list string) g : forall idx acc,
  map keywords (fold_left (fallback_step K g) idx acc)
  = map keywords acc ++ map (fun i => Py.slice K i (i + g)) idx.
Proof.
  induction idx as [| i idx IH]; intros acc; simpl.
  - rewrite app_nil_r. reflexivity.
  - rewrite IH. unfold fallback_step.
    rewrite map_app, <- app_assoc. reflexivity.
Qed.

Lemma fallback_fold_Forall (P : Group -> Prop) (K : list string) g :
  (forall acc i, Forall P acc -> Forall P (fallback_step K g acc i)) ->
  forall idx acc,
    Forall P acc -> Forall P (fold_left (fallback_step K g) idx acc).
Proof.
  intros Hstep. induction idx as [| i idx IH]; intros acc Hacc; simpl; auto.
Qed.

Lemma fallback_keywords (K : list string) :
  map keywords (_fallback_grouping K)
  = contiguous_chunks (Nat.max 3 (length K / 5)) K.
Proof.
  unfold contiguous_chunks.
  rewrite <- slices_chunks by lia.
  destruct K as [| k K']; [rewrite range_step_nil by lia; reflexivity |].
  unfold _fallback_grouping. rewrite fallback_fold. reflexivity.
Qed.

Lemma fallback_score_name (K : list string) :
  Forall (fun g => score g = 1 # 2
                   /\ name g = _generate_group_name (keywords g))
    (_fallback_grouping K).
Proof.
  destruct K as [| k K']; [constructor |].
  unfold _fallback_grouping.
  apply fallback_fold_Forall; [| constructor].
  intros acc i Hacc. unfold fallback_step.
  apply Forall_app. split; [exact Hacc |].
  constructor; [| constructor]. simpl. split; reflexivity.
Qed.

Lemma fallback_concat (K : list string) :
  concat (map keywords (_fallback_grouping K)) = K.
Proof.
  rewrite fallback_keywords. apply chunks_concat; lia.
Qed.

Lemma fallback_sublist (K : list string) :
  Forall (fun g => sublist (keywords g) K) (_fallback_grouping K).
Proof.
  apply (proj1 (Forall_map keywords (fun ks => sublist ks K) _)).
  rewrite fallback_keywords. apply chunks_sublist.
Qed.

Lemma fallback_nonempty (K : list string) :
  Forall (fun g => keywords g <> []) (_fallback_grouping K).
Proof.
  apply (proj1 (Forall_map keywords (fun ks => ks <> []) _)).
  rewrite fallback_keywords. apply chunks_nonempty. lia.
Qed.

(** C5. The fallback grouping cuts the keywords into contiguous chunks
    of size [max(3, len // 5)] in input order (the last chunk holds what
    is left), gives every group the score 0.5 and the name the naming
    heuristic derives from its keywords.  On any twelve keywords every
    group has at least three keywords, every score is 0.5 and the groups
    together are the twelve keywords. *)
Theorem fallback_grouping_chunks :
  (forall K : list string,
      map keywords (_fallback_grouping K)
      = contiguous_chunks (Nat.max 3 (length K / 5)) K
      /\ Forall (fun g => score g = 1 # 2
                          /\ name g = _generate_group_name (keywords g))
           (_fallback_grouping K))
  /\ (forall k1 k2 k3 k4 k5 k6 k7 k8 k9 k10 k11 k12 : string,
        let K := [k1; k2; k3; k4; k5; k6; k7; k8; k9; k10; k11; k12] in
        Forall (fun g => 3 <= length (keywords g)) (_fallback_grouping K)
        /\ Forall (fun g => score g = 1 # 2) (_fallback_grouping K)
        /\ concat (map keywords (_fallback_grouping K)) = K).
Proof.
  split.
  - intros K. split; [apply fallback_keywords | apply fallback_score_name].
  - intros k1 k2 k3 k4 k5 k6 k7 k8 k9 k10 k11 k12 K.
    split; [| split; [| apply fallback_concat]].
    + apply (proj1 (Forall_map keywords (fun ks => 3 <= length ks) _)).
      rewrite fallback_keywords. subst K. cbv.
      repeat constructor.
    + eapply Forall_impl; [apply fallback_score_name |].
      intros g [Hg _]. exact Hg.
Qed.

(** The comprehension over the indices reads the two lists side by side. *)
Lemma cluster_members_bucket (c : nat) : forall K ls P lsP r,
  length P = length lsP ->
  cluster_members (P ++ K) (lsP ++ ls) c (seq (length P) (length K)) = Some r ->
  r = bucket K ls c /\ length K <= length ls.
Proof.
  induction K as [| k K' IH]; intros ls P lsP r Hlen H.
  - simpl in H. injection H as <-. simpl. split; [reflexivity | lia].
  - cbn [length seq cluster_members] in H.
    rewrite (lookup_app_r P) in H by lia.
    rewrite Nat.sub_diag in H. cbn [lookup list_lookup] in H.
    rewrite (lookup_app_r lsP) in H by lia.
    replace (length P - length lsP) with 0 in H by lia.
    destruct ls as [| l ls']; [discriminate H |].
    cbn [lookup list_lookup] in H.
    destruct (cluster_members (P ++ k :: K') (lsP ++ l :: ls') c
                (seq (S (length P)) (length K'))) as [rest |] eqn:Hrest;
      [| discriminate H].
    injection H as <-.
    replace (P ++ k :: K') with ((P ++ [k]) ++ K') in Hrest
      by (rewrite <- app_assoc; reflexivity).
    replace (lsP ++ l :: ls') with ((lsP ++ [l]) ++ ls') in Hrest
      by (rewrite <- app_assoc; reflexivity).
    replace (S (length P)) with (length (P ++ [k])) in Hrest
      by (rewrite length_app; simpl; lia).
    apply IH in Hrest; [| rewrite !length_app; simpl; lia].
    destruct Hrest as [-> Hle]. simpl. split; [reflexivity | lia].
Qed.

Lemma bucket_sublist (c : nat) : forall K ls, sublist (bucket K ls c) K.
Proof.
  induction K as [| k K' IH]; intros ls; simpl; [constructor |].
  destruct ls as [| l ls']; [apply sublist_nil_l |].
  destruct (l =? c); [apply sublist_skip | apply sublist_cons]; apply IH.
Qed.

Lemma concat_insert_absent (k : string) (l : nat) (f : nat -> list string) :
  forall cs, l ∉ cs ->
  concat (map (fun c => if l =? c then k :: f c else f c) cs)
  = concat (map f cs).
Proof.
  induction cs as [| c cs IH]; intros Hl; [reflexivity |].
  simpl. apply not_elem_of_cons in Hl as [Hne Hl].
  destruct (Nat.eqb_spec l c); [contradiction |].
  rewrite IH by assumption. reflexivity.
Qed.

Lemma concat_insert_present (k : string) (l : nat) (f : nat -> list string) :
  forall cs, NoDup cs -> l ∈ cs ->
  concat (map (fun c => if l =? c then k :: f c else f c) cs)
  ≡ₚ k :: concat (map f cs).
Proof.
  induction cs as [| c cs IH]; intros Hnd Hl.
  - inversion Hl.
  - apply NoDup_cons in Hnd as [Hc Hnd]. simpl.
    destruct (Nat.eqb_spec l c) as [-> | Hne].
    + rewrite concat_insert_absent by assumption. reflexivity.
    + apply elem_of_cons in Hl as [-> | Hl]; [contradiction |].
      rewrite IH by assumption.
      symmetry. apply Permutation_middle.
Qed.

(** Every keyword lands in the bucket of its label, and in no other. *)
Lemma bucket_partition (cs : list nat) : NoDup cs -> forall K ls,
  length K <= length ls ->
  Forall (fun l => l ∈ cs) (take (length K) ls) ->
  concat (map (bucket K ls) cs) ≡ₚ K.
Proof.
  intros Hnd. induction K as [| k K' IH]; intros ls Hlen Hin.
  - clear Hnd Hin. induction cs as [| c cs IHcs]; [reflexivity | exact IHcs].
  - destruct ls as [| l ls']; [simpl in Hlen; lia |].
    simpl in Hin. apply Forall_cons in Hin as [Hl Hin].
    cbn [bucket].
    rewrite (concat_insert_present k l (bucket K' ls')) by assumption.
    constructor. apply IH; [simpl in Hlen; lia | assumption].
Qed.

Section Clustered.

Context (max_groups_per_batch : Z) {Embeddings : Type}
  (model : option (list string -> option Embeddings))
  (fit_predict : nat -> Embeddings -> option (list nat)).

Lemma cluster_loop_spec (K : list string) (ls : list nat) :
  forall cs acc groups,
  cluster_loop K ls cs acc = Some groups ->
  concat (map keywords groups)
  = concat (map keywords acc) ++ concat (map (bucket K ls) cs)
  /\ (cs <> [] -> length K <= length ls)
  /\ (Forall (fun g => sublist (keywords g) K /\ keywords g <> []) acc ->
      Forall (fun g => sublist (keywords g) K /\ keywords g <> []) groups).
Proof.
  induction cs as [| c cs IH]; intros acc groups H.
  - simpl in H. injection H as <-. simpl. rewrite app_nil_r.
    split; [reflexivity | split; [congruence | auto]].
  - cbn [cluster_loop] in H.
    destruct (cluster_members K ls c (seq 0 (length K)))
      as [r |] eqn:Hr; [| discriminate H].
    apply (cluster_members_bucket c K ls [] [] r eq_refl) in Hr as [-> Hle].
    apply IH in H as (Hcat & _ & Hall).
    split; [| split; [auto |]].
    + rewrite Hcat. simpl.
      destruct (bucket K ls c) as [| b bs] eqn:Hb; [reflexivity |].
      rewrite map_app, concat_app. simpl. rewrite app_nil_r, <- app_assoc.
      reflexivity.
    + intros Hacc. apply Hall.
      destruct (bucket K ls c) as [| b bs] eqn:Hb; [exact Hacc |].
      apply Forall_app. split; [exact Hacc |].
      constructor; [| constructor]. simpl. split; [| discriminate].
      rewrite <- Hb. apply bucket_sublist.
Qed.

Lemma cluster_keywords_partition (K : list string) (e : Embeddings) :
  (forall k e ls, fit_predict k e = Some ls -> Forall (fun l => l < k) ls) ->
  concat (map keywords (_cluster_keywords max_groups_per_batch fit_predict K e))
  ≡ₚ K.
Proof.
  intros Hlabels. unfold _cluster_keywords.
  set (n := Z.min _ _). clearbody n.
  destruct (Z.leb_spec n 1) as [Hn | Hn].
  { simpl. rewrite app_nil_r. reflexivity. }
  destruct (fit_predict (Z.to_nat n) e) as [ls |] eqn:Hfit;
    [| rewrite fallback_concat; reflexivity].
  destruct (cluster_loop K ls (seq 0 (Z.to_nat n)) [])
    as [groups |] eqn:Hloop; [| rewrite fallback_concat; reflexivity].
  apply cluster_loop_spec in Hloop as (Hcat & Hlen & _).
  rewrite Hcat. simpl.
  apply bucket_partition.
  - apply NoDup_ListNoDup, seq_NoDup.
  - apply Hlen. destruct (Z.to_nat n) eqn:E; [exfalso; lia | discriminate].
  - apply Hlabels in Hfit.
    apply Forall_take. eapply Forall_impl; [exact Hfit |].
    intros l Hl. simpl in Hl. apply list_elem_of_In, in_seq. lia.
Qed.

Lemma cluster_keywords_members (K : list string) (e : Embeddings) :
  K <> [] ->
  Forall (fun g => sublist (keywords g) K /\ keywords g <> [])
    (_cluster_keywords max_groups_per_batch fit_predict K e).
Proof.
  intros HK.
  assert (Hfb : Forall (fun g => sublist (keywords g) K /\ keywords g <> [])
                  (_fallback_grouping K)).
  { apply Forall_and. split; [apply fallback_sublist | apply fallback_nonempty]. }
  unfold _cluster_keywords.
  set (n := Z.min _ _). clearbody n.
  destruct (Z.leb_spec n 1) as [Hn | Hn].
  { constructor; [| constructor]. simpl. split; [reflexivity | exact HK]. }
  destruct (fit_predict (Z.to_nat n) e) as [ls |] eqn:Hfit; [| exact Hfb].
  destruct (cluster_loop K ls (seq 0 (Z.to_nat n)) [])
    as [groups |] eqn:Hloop; [| exact Hfb].
  apply cluster_loop_spec in Hloop as (_ & _ & Hall).
  apply Hall. constructor.
Qed.

(** C1. Whatever the keywords, the groups [group_keywords] returns hold
    exactly the input keywords, each as often as it occurs in the input,
    and every group lists its keywords in input order: on the clustering
    path (given that k-means labels every keyword with one of its
    [n_clusters] cluster numbers) and on the fallback path, where the
    groups put end to end are the input itself. *)
Theorem group_keywords_partition (K : list string)
  (Hlabels : forall k e ls,
      fit_predict k e = Some ls -> Forall (fun l => l < k) ls) :
  (concat (map keywords
             (group_keywords max_groups_per_batch model fit_predict K)) ≡ₚ K
   /\ Forall (fun g => sublist (keywords g) K)
        (group_keywords max_groups_per_batch model fit_predict K))
  /\ (concat (map keywords (_fallback_grouping K)) = K
      /\ Forall (fun g => sublist (keywords g) K) (_fallback_grouping K)).
Proof.
  split; [| split; [apply fallback_concat | apply fallback_sublist]].
  unfold group_keywords.
  destruct (Nat.ltb_spec (length K) 2) as [Hlt | Hge].
  { simpl. rewrite app_nil_r. split; [reflexivity |].
    constructor; [reflexivity | constructor]. }
  assert (HK : K <> []) by (destruct K; [simpl in Hge; lia | discriminate]).
  destruct (_generate_embeddings model K) as [e |].
  - split; [apply cluster_keywords_partition, Hlabels |].
    eapply Forall_impl; [apply cluster_keywords_members, HK |].
    intros g [Hg _]. exact Hg.
  - rewrite fallback_concat. split; [reflexivity | apply fallback_sublist].
Qed.

(** C7, amended. For a non-empty keyword list every group that
    [group_keywords] returns has at least one keyword.  A single keyword
    gives exactly one group, named after it, with score 1.0; the empty
    list gives exactly one group as well, named "empty", with score 1.0
    and no keywords. *)
Theorem group_keywords_members (K : list string) (HK : K <> []) :
  Forall (fun g => keywords g <> [])
    (group_keywords max_groups_per_batch model fit_predict K)
  /\ (forall k : string,
        group_keywords max_groups_per_batch model fit_predict [k]
        = [ {| id := "group_1"; name := k; keywords := [k]; score := 1 |} ])
  /\ group_keywords max_groups_per_batch model fit_predict []
     = [ {| id := "group_1"; name := "empty"; keywords := []; score := 1 |} ].
Proof.
  split; [| split; [intros k |]; reflexivity].
  unfold group_keywords.
  destruct (length K <? 2).
  { constructor; [exact HK | constructor]. }
  destruct (_generate_embeddings model K) as [e |];
    [| apply fallback_nonempty].
  eapply Forall_impl; [apply cluster_keywords_members, HK |].
  intros g [_ Hg]. exact Hg.
Qed.

End Clustered.

Lemma scenario_kmeans_labels :
  forall k e ls, Scenario.kmeans k e = Some ls -> Forall (fun l => l < k) ls.
Proof.
  intros k e ls. unfold Scenario.kmeans.
  destruct (Nat.eqb_spec k 0) as [| Hk]; [discriminate |].
  intros H. injection H as <-.
  apply Forall_map, Forall_forall. intros i _.
  apply Nat.mod_upper_bound, Hk.
Defined.

Lemma group_keywords_partition_witness :
  concat (map keywords
            (group_keywords 20 (Some Scenario.encode) Scenario.kmeans
               Scenario.keywords12))
  ≡ₚ Scenario.keywords12.
Proof.
  apply (group_keywords_partition 20 (Some Scenario.encode) Scenario.kmeans
           Scenario.keywords12 scenario_kmeans_labels).
Defined.

Lemma group_keywords_members_witness :
  Scenario.keywords12 <> []
  /\ Forall (fun g => keywords g <> [])
       (group_keywords 20 (Some Scenario.encode) Scenario.kmeans
          Scenario.keywords12).
Proof.
  assert (H : Scenario.keywords12 <> []) by discriminate.
  split; [exact H |].
  apply (group_keywords_members 20 (Some Scenario.encode) Scenario.kmeans
           Scenario.keywords12 H).
Defined.

(** The claim C7 as stated fails on the empty list: its single group has
    no keywords. *)
Lemma empty_input_gives_empty_group :
  ~ Forall (fun g => keywords g <> [])
      (group_keywords 20 Scenario.no_model Scenario.kmeans []).
Proof.
  intros H. apply Forall_inv in H. apply H. reflexivity.
Qed.

(** ** Orchestration *)


Lemma world_eta w : mkWorld (db w) (cache w) (sent w) (tasks w) = w.
Proof. destruct w; reflexivity. Qed.

Lemma exists_after_delete key c :
  fst (CacheManager.exists_ key (snd (CacheManager.delete key c))) = false.
Proof.
  unfold CacheManager.exists_, CacheManager.delete.
  destruct c as [[r |]]; simpl; [| reflexivity].
  unfold Redis.delete, Redis.exists_.
  destruct (Redis.up r) eqn:Hup; simpl.
  - unfold Redis.live. simpl. rewrite lookup_delete_eq. reflexivity.
  - rewrite Hup. reflexivity.
Qed.

Lemma exists_keeps_cache key c : snd (CacheManager.exists_ key c) = c.
Proof.
  unfold CacheManager.exists_.
  destruct (CacheManager.client c) as [r |]; [| reflexivity].
  destruct (Redis.exists_ key r); reflexivity.
Qed.

Lemma exists_unavailable key c :
  CacheManager.unavailable c = true -> CacheManager.exists_ key c = (false, c).
Proof.
  unfold CacheManager.unavailable, CacheManager.exists_, Redis.exists_.
  destruct c as [[r |]]; simpl; [| reflexivity].
  destruct (Redis.up r); [discriminate | reflexivity].
Qed.

Lemma get_unavailable key c :
  CacheManager.unavailable c = true -> CacheManager.get key c = (None, c).
Proof.
  unfold CacheManager.unavailable, CacheManager.get, Redis.get.
  destruct c as [[r |]]; simpl; [| reflexivity].
  destruct (Redis.up r); [discriminate | reflexivity].
Qed.

Lemma set_unavailable key v ttl c :
  CacheManager.unavailable c = true ->
  CacheManager.set key v ttl c = (false, c).
Proof.
  unfold CacheManager.unavailable, CacheManager.set, Redis.setex.
  destruct c as [[r |]]; simpl; [| reflexivity].
  destruct (Redis.up r); [discriminate | reflexivity].
Qed.

Section Orchestration.

Context {Embeddings : Type} (max_groups_per_batch : Z)
  (model : option (list string -> option Embeddings))
  (fit_predict : nat -> Embeddings -> option (list nat))
  (db_fault : nat -> bool) (new_id : DatabaseManager.t -> string)
  (slack_fault : string -> Message -> bool)
  (generate_outline : list string -> option Outline.t)
  (generate_ideas : list Group -> option (list PostIdea.t))
  (generate_report : string -> list Group -> list PostIdea.t -> option Report).

Local Abbreviation the_pipeline :=
  (pipeline max_groups_per_batch model fit_predict db_fault new_id slack_fault
     generate_outline generate_ideas generate_report).

Local Abbreviation the_run :=
  (_process_batch_background max_groups_per_batch model fit_predict db_fault
     new_id slack_fault generate_outline generate_ideas generate_report).




(** C4. When the cache reports the processing lock of a batch, a
    request to start processing creates no background task, leaves the
    cache (the lock and its expiry included) and the store as they are,
    and posts nothing but the "already processing" notice, or the generic
    error notice when Slack refuses that one; when Slack accepts it, the
    notice is the only effect of the request. *)
Theorem locked_batch_is_not_restarted (batch : Batch.t) (channel : string)
  (w : World)
  (Hlock : lock_exists (Batch.id batch) w = true) :
  let w' := snd (_start_batch_processing slack_fault batch channel w) in
  tasks w' = tasks w /\ cache w' = cache w /\ db w' = db w
  /\ (forall m, In m (sent w') ->
        In m (sent w) \/
        m = (channel, format_already_processing) \/
        m = (channel, format_error_message))
  /\ (slack_fault channel format_already_processing = false ->
      _start_batch_processing slack_fault batch channel w
      = (Ok tt, mkWorld (db w) (cache w)
                  (sent w ++ [(channel, format_already_processing)]) (tasks w))).
Proof.
  unfold lock_exists in Hlock.
  unfold _start_batch_processing, try_except, bind, on_cache.
  pose proof (exists_keeps_cache (lock_key (Batch.id batch)) (cache w)) as Hc.
  destruct (CacheManager.exists_ (lock_key (Batch.id batch)) (cache w))
    as [locked c].
  simpl in Hlock, Hc. subst locked c. rewrite world_eta.
  unfold _send_error_message, chat_postMessage.
  destruct (slack_fault channel format_already_processing) eqn:Hslack; simpl.
  - destruct (slack_fault channel format_error_message); simpl;
      (repeat split; auto; try discriminate).
    intros m Hm. apply in_app_or in Hm as [Hm | [<- | []]]; auto.
  - repeat split; auto.
    intros m Hm. apply in_app_or in Hm as [Hm | [<- | []]]; auto.
Qed.

(** C10. When the cache backend is unavailable (there is no client, or
    the server does not answer, so that [get] gives nothing and [exists]
    gives false), every rate-limit check of every user passes and leaves
    the state as it was, the lock check of every batch reports no lock,
    and a request to start processing goes ahead and creates its
    background task. *)
Theorem unavailable_cache_disables_limits (w : World)
  (Hcache : CacheManager.unavailable (cache w) = true) :
  (forall user, _check_rate_limit user w = (Ok true, w))
  /\ (forall batch_id, lock_exists batch_id w = false)
  /\ (forall batch channel,
        slack_fault channel
          (format_processing_started (Batch.id batch) (Batch.keyword_count batch))
        = false ->
        _start_batch_processing slack_fault batch channel w
        = (Ok tt,
           mkWorld (db w) (cache w)
             (sent w ++ [(channel, format_processing_started (Batch.id batch)
                                     (Batch.keyword_count batch))])
             (tasks w ++ [(batch, channel)]))).
Proof.
  split; [| split].
  - intros user. unfold _check_rate_limit, bind, on_cache.
    rewrite get_unavailable by assumption. simpl.
    rewrite set_unavailable by assumption. simpl.
    rewrite world_eta. reflexivity.
  - intros batch_id. unfold lock_exists.
    rewrite exists_unavailable by assumption. reflexivity.
  - intros batch channel Hslack.
    unfold _start_batch_processing, try_except, bind, on_cache.
    rewrite exists_unavailable by assumption. simpl.
    rewrite set_unavailable by assumption. simpl.
    unfold chat_postMessage. simpl. rewrite Hslack. reflexivity.
Qed.

(** Run a handler up to its answer on a batch that exists and belongs to
    somebody else. *)
Ltac foreign_batch Hstore Hrow Howner Hslack :=
  unfold try_except, bind, on_db;
  rewrite bool_decide_eq_false_2 by assumption;
  unfold DatabaseManager.get_keyword_batch; rewrite Hstore, Hrow; simpl;
  rewrite (bool_decide_eq_false_2 _ Howner); simpl;
  unfold chat_postMessage; simpl; rewrite Hslack; reflexivity.

(** C9, amended. On an existing batch whose owner is not the requester
    (store and Slack answering), a process request is answered with
    "Access denied", which differs from "Batch not found"; a regenerate
    request is answered with "Batch not found", the answer it also gives
    for a batch that does not exist. *)
Theorem foreign_batch_responses (command : Command) (batch : Batch.t)
  (w : World)
  (Hid : Py.strip (CommandHandler.text command) <> "")
  (Hstore : db_fault (DatabaseManager.calls (db w)) = false)
  (Hrow : DatabaseManager.keyword_batches (db w)
            !! Py.strip (CommandHandler.text command)
          = Some batch)
  (Howner : Batch.user_id batch <> user_id command)
  (Hslack : forall m, slack_fault (channel_id command) m = false) :
  sent (snd (handle_process_command db_fault slack_fault command w))
  = sent w ++ [(channel_id command, format_unauthorized_batch)]
  /\ MessageFormatter.text format_unauthorized_batch
     <> MessageFormatter.text format_batch_not_found
  /\ sent (snd (handle_regenerate_command db_fault slack_fault generate_outline
                  command w))
     = sent w ++ [(channel_id command, format_batch_not_found)].
Proof.
  split; [| split; [discriminate |]].
  - unfold handle_process_command. foreign_batch Hstore Hrow Howner Hslack.
  - unfold handle_regenerate_command. foreign_batch Hstore Hrow Howner Hslack.
Qed.

End Orchestration.

(** ** Rate limit *)

(** The first check of a window opens it: the counter is 1 and expires
    900 seconds later. *)
Lemma check_fresh user w r :
  cache w = CacheManager.mk (Some r) ->
  Redis.up r = true ->
  Redis.live r (rate_limit_key user) = None ->
  _check_rate_limit user w
  = (Ok true,
     mkWorld (db w)
       (CacheManager.mk
          (Some (Redis.mk true (Redis.now r)
                   (<[rate_limit_key user := (VInt 1, Some (Redis.now r + 900))]>
                      (Redis.store r)))))
       (sent w) (tasks w)).
Proof.
  intros Hc Hup Hlive.
  unfold _check_rate_limit, bind, on_cache, CacheManager.get, Redis.get.
  rewrite Hc. simpl. rewrite Hup, Hlive. simpl.
  unfold CacheManager.set, Redis.setex. simpl. rewrite Hup. reflexivity.
Qed.

(** A check inside the window counts up to 10 and then refuses; the
    expiry of the counter stays. *)
Lemma check_window user w t st n e :
  cache w = CacheManager.mk (Some (Redis.mk true t st)) ->
  st !! rate_limit_key user = Some (VInt n, Some e) ->
  t <= e ->
  (0 <= n)%Z ->
  _check_rate_limit user w
  = if (10 <=? n)%Z then (Ok false, w)
    else (Ok true,
          mkWorld (db w)
            (CacheManager.mk
               (Some (Redis.mk true t
                        (<[rate_limit_key user := (VInt (n + 1), Some e)]> st))))
            (sent w) (tasks w)).
Proof.
  intros Hc Hst Hlt Hn.
  assert (Hlive : Redis.live (Redis.mk true t st) (rate_limit_key user)
                  = Some (VInt n, Some e)).
  { unfold Redis.live. simpl. rewrite Hst.
    destruct (Nat.leb_spec t e); [reflexivity | lia]. }
  unfold _check_rate_limit, bind, on_cache, CacheManager.get, Redis.get.
  rewrite Hc. simpl. rewrite Hlive. simpl.
  destruct (Z.leb_spec 10 n) as [Hfull | Hroom].
  - unfold ret. rewrite <- Hc. destruct w; reflexivity.
  - unfold CacheManager.increment, Redis.incrby.
    cbn [cache CacheManager.client Redis.up Redis.now Redis.store andb].
    assert (Hone : Redis.int64 1 = true) by reflexivity.
    assert (Hsum : Redis.int64 n && Redis.int64 (n + 1) = true).
    { unfold Redis.int64.
      assert (H63 : (2 ^ 63 = 9223372036854775808)%Z) by reflexivity.
      rewrite H63. apply andb_true_iff. split; apply andb_true_iff; split;
        first [apply Z.leb_le | apply Z.ltb_lt]; lia. }
    rewrite Hone, Hlive, Hsum. reflexivity.
Qed.

Lemma requests_window user : forall delays n e t st w,
  n <= 10 ->
  cache w = CacheManager.mk (Some (Redis.mk true t st)) ->
  st !! rate_limit_key user = Some (VInt (Z.of_nat n), Some e) ->
  t + list_sum delays <= e ->
  exists st',
    requests user delays w
    = (replicate (Nat.min (length delays) (10 - n)) (Ok true)
       ++ replicate (length delays - (10 - n)) (Ok false),
       mkWorld (db w)
         (CacheManager.mk (Some (Redis.mk true (t + list_sum delays) st')))
         (sent w) (tasks w))
    /\ st' !! rate_limit_key user
       = Some (VInt (Z.of_nat (Nat.min (n + length delays) 10)), Some e).
Proof.
  induction delays as [| d delays IH]; intros n e t st w Hn Hc Hst Hlt.
  - exists st. simpl. rewrite !Nat.add_0_r, <- Hc.
    split; [destruct w; reflexivity |].
    rewrite Nat.min_l by lia. exact Hst.
  - change (list_sum (d :: delays)) with (d + list_sum delays) in *.
    cbn [requests length].
    assert (Hadv : cache (advance d w)
                   = CacheManager.mk (Some (Redis.mk true (t + d) st))).
    { unfold advance, CacheManager.advance. simpl. rewrite Hc. reflexivity. }
    rewrite (check_window user (advance d w) (t + d) st (Z.of_nat n) e Hadv Hst)
      by lia.
    destruct (Z.leb_spec 10 (Z.of_nat n)) as [Hfull | Hroom].
    + assert (n = 10) by lia. subst n.
      destruct (IH 10 e (t + d) st (advance d w)) as (st' & Hreq & Hst');
        [lia | exact Hadv | exact Hst | lia |].
      exists st'. rewrite Hreq.
      replace (t + d + list_sum delays) with (t + (d + list_sum delays)) by lia.
      split.
      * rewrite !Nat.sub_diag, !Nat.min_0_r, !Nat.sub_0_r. reflexivity.
      * rewrite Hst'. cbn [length]. rewrite !Nat.min_r by lia. reflexivity.
    + set (w1 := mkWorld _ _ _ _).
      destruct (IH (S n) e (t + d)
                  (<[rate_limit_key user := (VInt (Z.of_nat n + 1), Some e)]> st)
                  w1)
        as (st' & Hreq & Hst'); [lia | reflexivity | | lia |].
      { rewrite lookup_insert_eq. repeat f_equal. lia. }
      exists st'. rewrite Hreq.
      replace (t + d + list_sum delays) with (t + (d + list_sum delays)) by lia.
      split.
      * replace (10 - n) with (S (10 - S n)) by lia.
        rewrite <- Nat.succ_min_distr. reflexivity.
      * rewrite Hst'. cbn [length].
        replace (S n + length delays) with (n + S (length delays)) by lia.
        reflexivity.
Qed.

Section RateLimit.

Context (db_fault : nat -> bool) (new_id : DatabaseManager.t -> string)
  (slack_fault : string -> Message -> bool).

(** A command that the check refuses leaves store, cache and tasks alone. *)
Lemma rejected_command_changes_nothing (command : Command) (w : World) :
  _check_rate_limit (user_id command) w = (Ok false, w) ->
  let w' := snd (handle_keywords_command db_fault new_id slack_fault command w) in
  db w' = db w /\ cache w' = cache w /\ tasks w' = tasks w
  /\ (slack_fault (channel_id command) format_rate_limit_exceeded = false ->
      sent w' = sent w ++ [(channel_id command, format_rate_limit_exceeded)]).
Proof.
  intros Hcheck.
  unfold handle_keywords_command, try_except, bind. rewrite Hcheck. simpl.
  unfold _send_rate_limit_message, _send_error_message, chat_postMessage.
  destruct (slack_fault (channel_id command) format_rate_limit_exceeded); simpl.
  - destruct (slack_fault (channel_id command) format_error_message); simpl;
      repeat split; auto; discriminate.
  - repeat split; auto.
Qed.

(** C6, amended. The requests that are checked are the keyword
    uploads: [handle_keywords_command] is the only caller of
    [_check_rate_limit].  With a working cache and no counter yet for the
    user, take the check of the user's first upload and those of ten more,
    all made up to 900 seconds after the first.  The first ten checks pass
    and the eleventh is refused; the checks touch neither the store nor
    the tasks; an upload of the user handled at that point is refused
    without any change to store, cache or tasks (its only effect is the
    rate-limit notice); and the first check made after the 900 seconds
    have passed is accepted again. *)
Theorem rate_limit_window (command : Command) (w : World) (r : Redis.t)
  (delays : list nat) (late : nat)
  (Hcache : cache w = CacheManager.mk (Some r))
  (Hup : Redis.up r = true)
  (Hnew : Redis.live r (rate_limit_key (user_id command)) = None)
  (Hten : length delays = 10)
  (Hwithin : list_sum delays <= 900)
  (Hlate : 900 < list_sum delays + late) :
  let user := user_id command in
  let w11 := snd (requests user (0 :: delays) w) in
  let w' :=
    snd (handle_keywords_command db_fault new_id slack_fault command w11) in
  fst (requests user (0 :: delays) w) = replicate 10 (Ok true) ++ [Ok false]
  /\ (db w11 = db w /\ tasks w11 = tasks w)
  /\ (db w' = db w11 /\ cache w' = cache w11 /\ tasks w' = tasks w11
      /\ (slack_fault (channel_id command) format_rate_limit_exceeded = false ->
          sent w'
          = sent w11 ++ [(channel_id command, format_rate_limit_exceeded)]))
  /\ fst (requests user [late] w11) = [Ok true].
Proof.
  intros user. subst user. cbn [requests].
  assert (Hadv : cache (advance 0 w) = CacheManager.mk (Some r)).
  { unfold advance, CacheManager.advance. simpl. rewrite Hcache. simpl.
    unfold Redis.advance. rewrite Nat.add_0_r. destruct r; reflexivity. }
  rewrite (check_fresh (user_id command) (advance 0 w) r Hadv Hup Hnew).
  set (w1 := mkWorld _ _ _ _).
  destruct (requests_window (user_id command) delays 1 (Redis.now r + 900)
              (Redis.now r)
              (<[rate_limit_key (user_id command)
                   := (VInt 1, Some (Redis.now r + 900))]> (Redis.store r)) w1)
    as (st' & Hreq & Hst'); [lia | reflexivity | apply lookup_insert_eq | lia |].
  rewrite Hreq, Hten in *. cbn [fst snd].
  set (w11 := mkWorld _ _ _ _).
  split; [reflexivity | split; [split; reflexivity | split]].
  - apply rejected_command_changes_nothing.
    rewrite (check_window (user_id command) w11
               (Redis.now r + list_sum delays) st' 10 (Redis.now r + 900));
      [reflexivity | reflexivity | exact Hst' | lia | lia].
  - assert (Hc11 : cache (advance late w11)
                   = CacheManager.mk
                       (Some (Redis.mk true
                                (Redis.now r + list_sum delays + late) st')))
      by reflexivity.
    rewrite (check_fresh (user_id command) (advance late w11) _ Hc11 eq_refl);
      [reflexivity |].
    unfold Redis.live. simpl. rewrite Hst'.
    destruct (Nat.leb_spec (Redis.now r + list_sum delays + late)
                (Redis.now r + 900)); [lia | reflexivity].
Qed.

End RateLimit.

(** ** The properties on the concrete deployment *)

Lemma locked_batch_is_not_restarted_witness :
  lock_exists "b1" Scenario.world_locked = true
  /\ _start_batch_processing Scenario.slack_up Scenario.batch "C042"
       Scenario.world_locked
     = (Ok tt,
        mkWorld (db Scenario.world_locked) (cache Scenario.world_locked)
          [("C042", format_already_processing)] []).
Proof.
  assert (Hlock : lock_exists (Batch.id Scenario.batch) Scenario.world_locked
                  = true) by reflexivity.
  split; [exact Hlock |].
  pose proof (locked_batch_is_not_restarted Scenario.slack_up Scenario.batch
                "C042" Scenario.world_locked Hlock) as H.
  cbv zeta in H. destruct H as (_ & _ & _ & _ & H).
  apply H. reflexivity.
Defined.

Lemma unavailable_cache_disables_limits_witness :
  CacheManager.unavailable (cache Scenario.world_without_cache) = true
  /\ _check_rate_limit "alice" Scenario.world_without_cache
     = (Ok true, Scenario.world_without_cache)
  /\ lock_exists "b1" Scenario.world_without_cache = false.
Proof.
  assert (Hcache : CacheManager.unavailable (cache Scenario.world_without_cache)
                   = true) by reflexivity.
  split; [exact Hcache |].
  pose proof (unavailable_cache_disables_limits Scenario.slack_up
                Scenario.world_without_cache Hcache) as (Hrate & Hlock & _).
  split; [apply Hrate | apply Hlock].
Defined.

Lemma foreign_batch_responses_witness :
  Batch.user_id Scenario.batch <> user_id Scenario.command_of_bob
  /\ sent (snd (handle_process_command Scenario.store_up Scenario.slack_up
                  Scenario.command_of_bob Scenario.world_fresh))
     = [("C042", format_unauthorized_batch)]
  /\ sent (snd (handle_regenerate_command Scenario.store_up Scenario.slack_up
                  Scenario.outlines_up Scenario.command_of_bob
                  Scenario.world_fresh))
     = [("C042", format_batch_not_found)].
Proof.
  assert (Howner : Batch.user_id Scenario.batch
                   <> user_id Scenario.command_of_bob) by discriminate.
  split; [exact Howner |].
  assert (Hid : Py.strip (CommandHandler.text Scenario.command_of_bob) <> "")
    by (vm_compute; discriminate).
  assert (Hrow : DatabaseManager.keyword_batches (db Scenario.world_fresh)
                   !! Py.strip (CommandHandler.text Scenario.command_of_bob)
                 = Some Scenario.batch) by (vm_compute; reflexivity).
  pose proof (foreign_batch_responses Scenario.store_up Scenario.slack_up
                Scenario.outlines_up Scenario.command_of_bob Scenario.batch
                Scenario.world_fresh Hid eq_refl Hrow Howner
                (fun m => eq_refl)) as (Hprocess & _ & Hregenerate).
  split; [exact Hprocess | exact Hregenerate].
Defined.

(** The claim C9 as stated fails for regenerate requests: Bob's request
    for Alice's batch gets the very answer it gets when the batch does not
    exist. *)
Lemma regenerate_hides_ownership :
  DatabaseManager.keyword_batches (db Scenario.world_fresh) !! "b1"
  = Some Scenario.batch
  /\ Batch.user_id Scenario.batch <> user_id Scenario.command_of_bob
  /\ DatabaseManager.keyword_batches (db Scenario.world_without_batch) !! "b1"
     = None
  /\ sent (snd (handle_regenerate_command Scenario.store_up Scenario.slack_up
                  Scenario.outlines_up Scenario.command_of_bob
                  Scenario.world_fresh))
     = sent (snd (handle_regenerate_command Scenario.store_up Scenario.slack_up
                    Scenario.outlines_up Scenario.command_of_bob
                    Scenario.world_without_batch)).
Proof.
  split; [vm_compute; reflexivity |].
  split; [discriminate |].
  split; vm_compute; reflexivity.
Qed.

Lemma rate_limit_window_witness :
  Redis.live Scenario.redis_empty (rate_limit_key "alice") = None
  /\ list_sum Scenario.one_a_minute <= 900
  /\ 900 < list_sum Scenario.one_a_minute + 301
  /\ fst (requests "alice" (0 :: Scenario.one_a_minute) Scenario.world_fresh)
     = replicate 10 (Ok true) ++ [Ok false]
  /\ fst (requests "alice" [301]
            (snd (requests "alice" (0 :: Scenario.one_a_minute)
                    Scenario.world_fresh)))
     = [Ok true].
Proof.
  assert (Hnew : Redis.live Scenario.redis_empty
                   (rate_limit_key (user_id Scenario.command_of_alice))
                 = None) by reflexivity.
  assert (Hwithin : list_sum Scenario.one_a_minute <= 900) by (simpl; lia).
  assert (Hlate : 900 < list_sum Scenario.one_a_minute + 301) by (simpl; lia).
  split; [exact Hnew | split; [exact Hwithin | split; [exact Hlate |]]].
  pose proof (rate_limit_window Scenario.store_up Scenario.new_id
                Scenario.slack_up Scenario.command_of_alice
                Scenario.world_fresh Scenario.redis_empty
                Scenario.one_a_minute 301 eq_refl eq_refl Hnew eq_refl
                Hwithin Hlate) as H.
  cbv zeta in H. destruct H as (Hfirst & _ & _ & Hagain).
  split; [exact Hfirst | exact Hagain].
Defined.

(** The window ends after its last second: a check made exactly 900
    seconds after the first still finds the counter and is refused. *)
Example rate_limit_at_the_boundary :
  fst (requests "alice" [300]
         (snd (requests "alice" (0 :: Scenario.one_a_minute)
                 Scenario.world_fresh)))
  = [Ok false].
Proof. vm_compute. reflexivity. Qed.

(** The claim C6 as stated fails for the requests that start the
    pipeline: [handle_process_command] makes no rate-limit check.  After
    eleven uploads within ten minutes the check refuses Alice, and her
    process request is served all the same: it announces the start and
    creates the background task. *)
Lemma process_request_is_not_limited :
  fst (_check_rate_limit "alice"
         (snd (requests "alice" (0 :: Scenario.one_a_minute)
                 Scenario.world_fresh)))
  = Ok false
  /\ tasks (snd (handle_process_command Scenario.store_up Scenario.slack_up
                   command_of_alice_for_b1
                   (snd (requests "alice" (0 :: Scenario.one_a_minute)
                           Scenario.world_fresh))))
     = [(Scenario.batch, "C042")]
  /\ sent (snd (handle_process_command Scenario.store_up Scenario.slack_up
                  command_of_alice_for_b1
                  (snd (requests "alice" (0 :: Scenario.one_a_minute)
                          Scenario.world_fresh))))
     = [("C042", format_processing_started "b1" 12)].
Proof.
  vm_compute. repeat split; reflexivity.
Qed.

(** * Further properties of the code *)

(** ** Validation and parsing *)

Lemma alpha_not_digit c : Py.isalpha c = true -> Py.isdigit_char c = false.
Proof.
  unfold Py.isalpha, Py.isupper, Py.islower, Py.isdigit_char.
  generalize (Py.ord c). intros n H.
  apply orb_true_iff in H as [H | H]; apply andb_true_iff in H as [H1 H2];
    apply Nat.leb_le in H1, H2; apply andb_false_iff; right;
    apply Nat.leb_gt; lia.
Qed.

Lemma alpha_is_word c : Py.isalpha c = true -> Py.isword c = true.
Proof. unfold Py.isword. intros ->. reflexivity. Qed.

Lemma alpha_not_newline c : Py.isalpha c = true -> (Py.ord c =? 10) = false.
Proof.
  unfold Py.isalpha, Py.isupper, Py.islower.
  generalize (Py.ord c). intros n H. apply Nat.eqb_neq.
  apply orb_true_iff in H as [H | H]; apply andb_true_iff in H as [H1 H2];
    apply Nat.leb_le in H1, H2; lia.
Qed.

Lemma letter_blocks_forallb (p : ascii -> bool) l :
  (forall c, Py.isalpha c = true -> p c = false) ->
  existsb Py.isalpha l = true -> forallb p l = false.
Proof.
  intros Hp. induction l as [| c l IH]; simpl; [discriminate |].
  intros H. apply orb_true_iff in H as [H | H].
  - rewrite (Hp c H). reflexivity.
  - rewrite (IH H). apply andb_false_r.
Qed.

Lemma letter_not_isdigit k :
  existsb Py.isalpha (Py.chars k) = true -> Py.isdigit k = false.
Proof.
  intros H. unfold Py.isdigit.
  destruct (Py.chars k) as [| c l] eqn:E; [reflexivity |].
  apply letter_blocks_forallb; [apply alpha_not_digit | exact H].
Qed.

Lemma letter_not_only_punctuation k :
  existsb Py.isalpha (Py.chars k) = true -> only_punctuation k = false.
Proof.
  intros H. unfold only_punctuation.
  set (punct := fun c => negb (Py.isword c || Py.isspace c)).
  assert (Hp : forall c, Py.isalpha c = true -> punct c = false).
  { intros c Hc. unfold punct. rewrite (alpha_is_word c Hc). reflexivity. }
  apply orb_false_iff. split.
  - destruct (Py.chars k) as [| c l] eqn:E; [reflexivity |].
    apply letter_blocks_forallb; assumption.
  - destruct (rev (Py.chars k)) as [| c body] eqn:E; [reflexivity |].
    apply andb_false_iff.
    destruct (Py.ord c =? 10) eqn:Hc; [right | left; reflexivity].
    assert (Hl : Py.chars k = rev body ++ [c]).
    { rewrite <- (rev_involutive (Py.chars k)), E. reflexivity. }
    rewrite Hl, existsb_app in H. simpl in H.
    apply orb_true_iff in H as [H | H].
    + destruct (rev body) as [| b bs] eqn:Eb; [discriminate H |].
      apply letter_blocks_forallb; assumption.
    + rewrite orb_false_r in H. apply alpha_not_newline in H. congruence.
Qed.

(** X1. [_is_valid_keyword] accepts exactly the keywords of 2 to 100
    characters that contain a letter and are not a stop word: the tests
    for digits-only and punctuation-only keywords never reject a keyword
    that passes the letter test. *)
Theorem valid_keyword_characterised (keyword : string) :
  _is_valid_keyword keyword = true
  <-> 2 <= Py.len keyword <= 100
      /\ existsb Py.isalpha (Py.chars keyword) = true
      /\ keyword ∉ stop_words.
Proof.
  unfold _is_valid_keyword. split.
  - intros H.
    destruct (bool_decide (keyword = "")); [discriminate |].
    destruct (Nat.ltb_spec (Py.len keyword) 2); [discriminate |].
    destruct (Nat.ltb_spec 100 (Py.len keyword)); [discriminate |].
    simpl in H.
    destruct (existsb Py.isalpha (Py.chars keyword)); [| discriminate].
    simpl in H.
    destruct (Py.isdigit keyword); [discriminate |].
    destruct (bool_decide_reflect (keyword ∈ stop_words)); [discriminate |].
    repeat split; auto.
  - intros ([Hlo Hhi] & Hletter & Hstop).
    assert (Hne : keyword <> "").
    { intros ->. simpl in Hlo. lia. }
    rewrite (bool_decide_eq_false_2 _ Hne).
    destruct (Nat.ltb_spec (Py.len keyword) 2); [lia |].
    destruct (Nat.ltb_spec 100 (Py.len keyword)); [lia |].
    simpl. rewrite Hletter. simpl.
    rewrite (letter_not_isdigit keyword Hletter).
    rewrite (bool_decide_eq_false_2 _ Hstop).
    rewrite (letter_not_only_punctuation keyword Hletter). reflexivity.
Qed.

Lemma fromkeys_spec : forall l seen x,
  x ∈ Py.fromkeys seen l -> x ∈ l /\ x ∉ seen.
Proof.
  induction l as [| y l IH]; intros seen x H; simpl in H.
  - inversion H.
  - destruct (bool_decide_reflect (y ∈ seen)) as [Hy | Hy].
    + apply IH in H as [H1 H2]. split; [by right | exact H2].
    + apply elem_of_cons in H as [-> | H].
      * split; [by left | exact Hy].
      * apply IH in H as [H1 H2]. split; [by right |].
        intros Hx. apply H2. by right.
Qed.

Lemma fromkeys_NoDup : forall l seen, NoDup (Py.fromkeys seen l).
Proof.
  induction l as [| y l IH]; intros seen; simpl; [constructor |].
  destruct (bool_decide (y ∈ seen)); [apply IH |].
  constructor; [| apply IH].
  intros H. apply fromkeys_spec in H as [_ H]. apply H. by left.
Qed.

Lemma fromkeys_complete : forall l seen x,
  x ∈ l -> x ∉ seen -> x ∈ Py.fromkeys seen l.
Proof.
  induction l as [| y l IH]; intros seen x H Hs; [inversion H |].
  simpl. destruct (bool_decide_reflect (y ∈ seen)) as [Hy | Hy].
  - apply elem_of_cons in H as [-> | H]; [contradiction | by apply IH].
  - destruct (decide (x = y)) as [-> | Hne]; [by left |].
    right. apply elem_of_cons in H as [-> | H]; [contradiction |].
    apply IH; [exact H |]. intros Hx. apply elem_of_cons in Hx as [-> | Hx]; contradiction.
Qed.

(** X2. [parse_keywords] returns no keyword twice, and returns exactly
    the valid cleaned forms of the fragments of the text (the pieces
    between commas, newlines, semicolons and tabs). *)
Theorem parse_keywords_sound (text : string) :
  NoDup (parse_keywords text)
  /\ (forall keyword,
        keyword ∈ parse_keywords text <->
        _is_valid_keyword keyword = true
        /\ exists fragment,
             fragment ∈ fragments text
             /\ keyword = _clean_keyword (Py.strip fragment)).
Proof.
  split; [apply fromkeys_NoDup |].
  intros keyword. unfold parse_keywords. fold (fragments text).
  set (cleaned := concat _).
  assert (Hc : keyword ∈ cleaned <->
               _is_valid_keyword keyword = true
               /\ exists fragment, fragment ∈ fragments text
                    /\ keyword = _clean_keyword (Py.strip fragment)).
  { unfold cleaned. rewrite list_elem_of_In, in_concat.
    split.
    - intros (l & Hl & Hk). apply in_map_iff in Hl as (fragment & <- & Hf).
      destruct (bool_decide (_ = "")); simpl in Hk; [contradiction |].
      destruct (_is_valid_keyword _) eqn:Hv; simpl in Hk; [| contradiction].
      destruct Hk as [<- | []]. split; [exact Hv |].
      exists fragment. split; [by apply list_elem_of_In | reflexivity].
    - intros (Hv & fragment & Hf & ->).
      eexists. split; [apply in_map_iff; exists fragment; split;
                       [reflexivity | by apply list_elem_of_In] |].
      simpl. rewrite Hv.
      assert (Hne : _clean_keyword (Py.strip fragment) <> "").
      { intros E. rewrite E in Hv. discriminate Hv. }
      rewrite (bool_decide_eq_false_2 _ Hne). simpl. by left. }
  rewrite <- Hc. split.
  - intros H. apply fromkeys_spec in H as [H _]. exact H.
  - intros H. apply fromkeys_complete; [exact H | apply not_elem_of_nil].
Qed.


(** ** Deduplication and similarity *)

Lemma deduplicate_loop_spec : forall keywords seen,
  sublist (deduplicate_loop seen keywords) keywords
  /\ NoDup (map normal_form (deduplicate_loop seen keywords))
  /\ (forall k, k ∈ deduplicate_loop seen keywords -> normal_form k ∉ seen)
  /\ (forall k, k ∈ keywords -> normal_form k ∉ seen ->
        normal_form k ∈ map normal_form (deduplicate_loop seen keywords)).
Proof.
  intros keywords; induction keywords as [| keyword rest IH]; intros seen; simpl.
  - repeat split; [constructor | constructor | |]; intros k H; inversion H.
  - fold (normal_form keyword).
    destruct (bool_decide_reflect (normal_form keyword ∈ seen)) as [Hin | Hout].
    + destruct (IH seen) as (Hsub & Hnd & Hfresh & Hcover).
      repeat split; [by apply sublist_cons | exact Hnd | exact Hfresh |].
      intros k Hk Hs. apply elem_of_cons in Hk as [-> | Hk];
        [contradiction | by apply Hcover].
    + destruct (IH ({[normal_form keyword]} ∪ seen))
        as (Hsub & Hnd & Hfresh & Hcover).
      repeat split.
      * by apply sublist_skip.
      * simpl. constructor; [| exact Hnd].
        intros H. apply list_elem_of_In, in_map_iff in H as (k & Hk & Hin).
        apply list_elem_of_In, Hfresh in Hin. apply Hin.
        rewrite Hk. set_solver.
      * intros k Hk. apply elem_of_cons in Hk as [-> | Hk]; [exact Hout |].
        apply Hfresh in Hk. set_solver.
      * intros k Hk Hs. simpl.
        destruct (decide (normal_form k = normal_form keyword)) as [-> | Hne];
          [by left |].
        right. apply elem_of_cons in Hk as [-> | Hk]; [contradiction |].
        apply Hcover; [exact Hk | set_solver].
Qed.

Lemma deduplicate_loop_fixed : forall keywords seen,
  NoDup (map normal_form keywords) ->
  (forall k, k ∈ keywords -> normal_form k ∉ seen) ->
  deduplicate_loop seen keywords = keywords.
Proof.
  intros keywords; induction keywords as [| keyword rest IH]; intros seen Hnd Hfresh;
    [reflexivity |].
  simpl. fold (normal_form keyword).
  rewrite bool_decide_eq_false_2 by (apply Hfresh; by left).
  f_equal. simpl in Hnd. apply NoDup_cons in Hnd as [Hk Hnd].
  apply IH; [exact Hnd |].
  intros k Hin. assert (Hne : normal_form k <> normal_form keyword).
  { intros E. apply Hk. rewrite <- E. apply list_elem_of_In, in_map.
    by apply list_elem_of_In. }
  specialize (Hfresh k (list_elem_of_further _ _ _ Hin)). set_solver.
Qed.

(** X3. [deduplicate_keywords] keeps a sublist of its input (order
    kept), no two kept keywords agree up to case and surrounding blanks,
    every input keyword is represented, and a second pass changes
    nothing. *)
Theorem deduplicate_keywords_spec (keywords : list string) :
  sublist (deduplicate_keywords keywords) keywords
  /\ NoDup (map normal_form (deduplicate_keywords keywords))
  /\ (forall k, k ∈ keywords ->
        normal_form k ∈ map normal_form (deduplicate_keywords keywords))
  /\ deduplicate_keywords (deduplicate_keywords keywords)
     = deduplicate_keywords keywords.
Proof.
  unfold deduplicate_keywords.
  destruct (deduplicate_loop_spec keywords ∅) as (Hsub & Hnd & Hfresh & Hcover).
  repeat split; [exact Hsub | exact Hnd | |].
  - intros k Hk. apply Hcover; [exact Hk | set_solver].
  - apply deduplicate_loop_fixed; [exact Hnd | set_solver].
Qed.

Lemma round_half_even_bounds (n d k : Z) :
  (0 <= n <= d * k)%Z -> (0 < d)%Z ->
  (0 <= round_half_even n d <= k)%Z.
Proof.
  intros Hn Hd. unfold round_half_even.
  pose proof (Z.div_mod n d ltac:(lia)) as Hdiv.
  pose proof (Z.mod_pos_bound n d Hd) as Hmod.
  assert (Hq : (0 <= n / d)%Z) by (apply Z.div_pos; lia).
  assert (Hk : (n / d <= k)%Z).
  { apply Z.div_le_upper_bound; lia. }
  destruct (_ || _) eqn:Hup; [| lia].
  split; [lia |].
  destruct (Z.eq_dec (n / d)%Z k) as [E | E]; [| lia].
  exfalso. assert (Hr : (n mod d = 0)%Z) by nia.
  apply orb_true_iff in Hup as [Hup | Hup].
  - apply Z.ltb_lt in Hup. lia.
  - apply andb_true_iff in Hup as [Hup _]. apply Z.eqb_eq in Hup. lia.
Qed.

Lemma round_half_even_exact (d k : Z) :
  (0 < d)%Z -> round_half_even (d * k) d = k.
Proof.
  intros Hd. unfold round_half_even. cbv zeta.
  replace (d * k)%Z with (k * d)%Z by lia.
  rewrite Z.div_mul, Z.mod_mul by lia.
  destruct (Z.ltb_spec d (2 * 0)); [lia |].
  destruct (Z.eqb_spec (2 * 0) d); [lia |]. reflexivity.
Qed.

(** The quotient of a number by one that is not smaller is a double
    between 0 and 1. *)
Lemma true_divide_range (a b : nat) :
  a <= b -> 0 < b -> (0 <= true_divide a b)%Q /\ (true_divide a b <= 1)%Q.
Proof.
  intros Hab Hb. unfold true_divide.
  destruct (Nat.eqb_spec a 0) as [| Ha]; [split; unfold Qle; simpl; lia |].
  cbv zeta.
  set (e := if (_ <=? _)%Z then _ else _).
  assert (He : (e <= 0)%Z).
  { assert (Z.log2 (Z.of_nat a) <= Z.log2 (Z.of_nat b))%Z
      by (apply Z.log2_le_mono; lia).
    subst e. destruct (_ <=? _)%Z; lia. }
  clearbody e.
  set (s := (- (Z.max e (-1022) - 52))%Z).
  assert (Hs : (0 < s)%Z) by lia.
  replace (Z.max 0 (Z.max e (-1022) - 52)) with 0%Z by lia.
  replace (Z.max 0 s) with s by lia.
  rewrite Z.pow_0_r, !Z.mul_1_r.
  assert (Hpow : (0 < 2 ^ s)%Z) by (apply Z.pow_pos_nonneg; lia).
  destruct (round_half_even_bounds (Z.of_nat a * 2 ^ s) (Z.of_nat b) (2 ^ s))
    as [Hlo Hhi]; [nia | lia |].
  unfold Qle. simpl. rewrite Z2Pos.id by exact Hpow. lia.
Qed.

Lemma true_divide_same (a : nat) : 0 < a -> (true_divide a a == 1)%Q.
Proof.
  intros Ha. unfold true_divide.
  destruct (Nat.eqb_spec a 0) as [| _]; [lia |].
  cbv zeta. rewrite Z.sub_diag.
  change (- 0)%Z with 0%Z. change (Z.max 0 0) with 0%Z.
  rewrite Z.pow_0_r, Z.mul_1_r, Z.leb_refl.
  change (Z.max 0 (-1022) - 52)%Z with (-52)%Z.
  change (Z.max 0 (-52)) with 0%Z. change (Z.max 0 (- -52)) with 52%Z.
  rewrite Z.pow_0_r, !Z.mul_1_r.
  rewrite round_half_even_exact by lia.
  reflexivity.
Qed.

Lemma zero_in_range : (0 <= 0)%Q /\ (0 <= 1)%Q.
Proof. split; unfold Qle; simpl; lia. Qed.

Lemma similarity_range (a b : string) :
  (0 <= _calculate_similarity a b)%Q /\ (_calculate_similarity a b <= 1)%Q.
Proof.
  unfold _calculate_similarity.
  destruct (bool_decide (a = "") || bool_decide (b = "")); [apply zero_in_range |].
  destruct (bool_decide (word_set a = ∅) || bool_decide (word_set b = ∅));
    [apply zero_in_range |].
  destruct (Nat.ltb_spec 0 (size (word_set a ∪ word_set b))) as [Hpos | _];
    [| apply zero_in_range].
  assert (Hle : size (word_set a ∩ word_set b) <= size (word_set a ∪ word_set b)).
  { apply subseteq_size. set_solver. }
  by apply true_divide_range.
Qed.

Lemma gset_inter_union_comm (A B : gset string) :
  B ∩ A = A ∩ B /\ B ∪ A = A ∪ B.
Proof. split; set_solver. Qed.

Lemma similarity_sym (a b : string) :
  _calculate_similarity a b = _calculate_similarity b a.
Proof.
  unfold _calculate_similarity.
  rewrite (orb_comm (bool_decide (a = ""))).
  rewrite (orb_comm (bool_decide (word_set a = ∅))).
  destruct (gset_inter_union_comm (word_set a) (word_set b)) as [-> ->].
  reflexivity.
Qed.

Lemma gset_inter_union_self (A : gset string) : A ∩ A = A /\ A ∪ A = A.
Proof. split; set_solver. Qed.

(** X4. [_calculate_similarity] lies between 0 and 1, is symmetric, is 1
    for two strings with the same non-empty word set and 0 for two
    strings without a common word. *)
Theorem similarity_is_a_jaccard_index (a b : string) :
  ((0 <= _calculate_similarity a b)%Q /\ (_calculate_similarity a b <= 1)%Q)
  /\ _calculate_similarity a b = _calculate_similarity b a
  /\ (word_set a = word_set b -> word_set a <> ∅ ->
      (_calculate_similarity a b == 1)%Q)
  /\ (word_set a ∩ word_set b = ∅ -> (_calculate_similarity a b == 0)%Q).
Proof.
  split; [apply similarity_range |]. split; [apply similarity_sym |].
  split.
  - intros Hsame Hne. unfold _calculate_similarity.
    assert (Ha : a <> "") by (intros ->; by apply Hne).
    assert (Hb : b <> "").
    { intros ->. rewrite Hsame in Hne. by apply Hne. }
    rewrite (bool_decide_eq_false_2 _ Ha), (bool_decide_eq_false_2 _ Hb).
    rewrite <- Hsame. rewrite (bool_decide_eq_false_2 _ Hne). simpl.
    destruct (gset_inter_union_self (word_set a)) as [-> ->].
    assert (Hpos : 0 < size (word_set a)).
    { destruct (size (word_set a)) eqn:E; [| lia].
      apply size_empty_inv in E. exfalso. apply Hne. by apply leibniz_equiv. }
    destruct (Nat.ltb_spec 0 (size (word_set a))); [| lia].
    by apply true_divide_same.
  - intros Hdisjoint. unfold _calculate_similarity.
    destruct (_ || _); [reflexivity |].
    destruct (_ || _); [reflexivity |]. simpl.
    rewrite Hdisjoint, size_empty.
    destruct (0 <? _); reflexivity.
Qed.

Lemma list_remove_sub x l : forall y, y ∈ list_remove x l -> y ∈ l.
Proof.
  induction l as [| z l IH]; intros y H; simpl in H; [inversion H |].
  destruct (bool_decide (z = x)); [by right |].
  apply elem_of_cons in H as [-> | H]; [by left | right; by apply IH].
Qed.

Lemma list_remove_length x l :
  x ∈ l -> S (length (list_remove x l)) = length l.
Proof.
  induction l as [| z l IH]; intros H; [inversion H |].
  simpl. destruct (bool_decide_reflect (z = x)) as [-> | Hne]; [reflexivity |].
  apply elem_of_cons in H as [-> | H]; [contradiction |].
  simpl. rewrite IH by assumption. reflexivity.
Qed.

Lemma first_similar_in threshold keyword filtered existing :
  first_similar threshold keyword filtered = Some existing ->
  existing ∈ filtered.
Proof.
  induction filtered as [| e rest IH]; simpl; [discriminate |].
  destruct (Qgtb _ _); [intros [= ->]; by left | intros H; right; by apply IH].
Qed.

Lemma filter_step_spec threshold filtered keyword :
  (forall k, k ∈ filter_step threshold filtered keyword ->
     k ∈ filtered \/ k = keyword)
  /\ length filtered <= length (filter_step threshold filtered keyword)
     <= S (length filtered)
  /\ filter_step threshold filtered keyword <> [].
Proof.
  unfold filter_step.
  destruct (first_similar threshold keyword filtered) as [existing |] eqn:E.
  - apply first_similar_in in E.
    destruct (Py.len keyword <? Py.len existing).
    + repeat split.
      * intros k Hk. apply elem_of_app in Hk as [Hk | Hk].
        -- left. eapply list_remove_sub, Hk.
        -- right. by apply list_elem_of_singleton in Hk.
      * rewrite length_app. simpl. pose proof (list_remove_length _ _ E). lia.
      * rewrite length_app. simpl. pose proof (list_remove_length _ _ E). lia.
      * intros H. apply (f_equal length) in H. rewrite length_app in H.
        simpl in H. lia.
    + repeat split; [auto | lia | lia |].
      intros ->. inversion E.
  - repeat split.
    + intros k Hk. apply elem_of_app in Hk as [Hk | Hk]; [by left |].
      right. by apply list_elem_of_singleton in Hk.
    + rewrite length_app. simpl. lia.
    + rewrite length_app. simpl. lia.
    + intros H. apply (f_equal length) in H. rewrite length_app in H.
      simpl in H. lia.
Qed.

Lemma filter_fold_spec threshold : forall keywords acc,
  (forall k, k ∈ fold_left (filter_step threshold) keywords acc ->
     k ∈ acc \/ k ∈ keywords)
  /\ length (fold_left (filter_step threshold) keywords acc)
     <= length acc + length keywords
  /\ (keywords <> [] -> fold_left (filter_step threshold) keywords acc <> []).
Proof.
  intros keywords; induction keywords as [| keyword rest IH]; intros acc; simpl.
  - repeat split; [auto | lia | congruence].
  - destruct (IH (filter_step threshold acc keyword)) as (Hin & Hlen & Hne).
    destruct (filter_step_spec threshold acc keyword) as (Hin1 & Hlen1 & Hne1).
    repeat split.
    + intros k Hk. apply Hin in Hk as [Hk | Hk]; [| right; by right].
      apply Hin1 in Hk as [Hk | ->]; [by left | right; by left].
    + lia.
    + intros _. destruct rest as [| k rest']; [exact Hne1 |]. apply Hne.
      discriminate.
Qed.

Lemma first_similar_high threshold keyword filtered :
  (1 <= threshold)%Q -> first_similar threshold keyword filtered = None.
Proof.
  intros Ht. induction filtered as [| e rest IH]; [reflexivity |].
  simpl. unfold Qgtb.
  destruct (Qle_bool (_calculate_similarity keyword e) threshold) eqn:E;
    [exact IH |].
  exfalso. assert (Hle : (_calculate_similarity keyword e <= threshold)%Q).
  { eapply Qle_trans; [apply similarity_range | exact Ht]. }
  apply Qle_bool_iff in Hle. congruence.
Qed.

(** X5. [filter_similar_keywords] returns keywords of its input only,
    never more than it was given, at least one for a non-empty input,
    and the input itself when the threshold is 1 or more. *)
Theorem filter_similar_selects (keywords : list string) (threshold : Q) :
  (forall k, k ∈ filter_similar_keywords keywords threshold -> k ∈ keywords)
  /\ length (filter_similar_keywords keywords threshold) <= length keywords
  /\ (keywords <> [] -> filter_similar_keywords keywords threshold <> [])
  /\ ((1 <= threshold)%Q -> filter_similar_keywords keywords threshold = keywords).
Proof.
  unfold filter_similar_keywords.
  destruct (filter_fold_spec threshold keywords []) as (Hin & Hlen & Hne).
  repeat split.
  - intros k Hk. apply Hin in Hk as [Hk | Hk]; [inversion Hk | exact Hk].
  - exact Hlen.
  - exact Hne.
  - intros Ht.
    assert (H : forall ks acc,
               fold_left (filter_step threshold) ks acc = acc ++ ks).
    { induction ks as [| k ks IH]; intros acc; simpl;
        [by rewrite app_nil_r |].
      rewrite IH. unfold filter_step. rewrite first_similar_high by exact Ht.
      by rewrite <- app_assoc. }
    apply H.
Qed.


(** ** Rows and statistics *)

(** X6. [_extract_keyword_from_row] returns the empty string exactly
    for a row whose cells are all blank, and otherwise the stripped form
    of one of the row's cells. *)
Theorem extract_keyword_from_row_spec (row : list string) :
  (_extract_keyword_from_row row = ""
   <-> Forall (fun cell => Py.strip cell = "") row)
  /\ (_extract_keyword_from_row row <> "" ->
      exists cell, cell ∈ row /\ _extract_keyword_from_row row = Py.strip cell).
Proof.
  assert (Hblank : forall l : list string,
            find (fun cell => negb (bool_decide (Py.strip cell = ""))) l = None
            <-> Forall (fun cell => Py.strip cell = "") l).
  { induction l as [| c l IH]; simpl; [split; [constructor | reflexivity] |].
    destruct (bool_decide_reflect (Py.strip c = "")) as [E | E]; simpl.
    - rewrite IH. split; [by constructor | by inversion 1].
    - split; [discriminate | inversion 1; contradiction]. }
  destruct row as [| c1 [| c2 rest]].
  - simpl. split; [split; [constructor | reflexivity] | congruence].
  - simpl. split.
    + split; [intros E; by repeat constructor | by inversion 1].
    + intros _. exists c1. split; [by left | reflexivity].
  - set (row := c1 :: c2 :: rest). unfold _extract_keyword_from_row. fold row.
    destruct (find _ row) as [cell |] eqn:Hfirst.
    + apply find_some in Hfirst as [Hin Hp].
      apply andb_true_iff in Hp as [Hp _]. apply andb_true_iff in Hp as [Hp _].
      apply negb_true_iff, bool_decide_eq_false in Hp.
      split.
      * split; [contradiction |].
        intros Hall. rewrite Forall_forall in Hall.
        exfalso. apply Hp, Hall. by apply list_elem_of_In.
      * intros _. exists cell. split; [by apply list_elem_of_In | reflexivity].
    + destruct (find (fun cell => negb (bool_decide (Py.strip cell = ""))) row)
        as [cell |] eqn:Hsecond.
      * pose proof Hsecond as Hfound.
        apply find_some in Hsecond as [Hin Hp].
        apply negb_true_iff, bool_decide_eq_false in Hp.
        split.
        -- split; [contradiction |].
           intros Hall. apply Hblank in Hall. congruence.
        -- intros _. exists cell. split; [by apply list_elem_of_In | reflexivity].
      * split; [| intros H; exfalso; by apply H].
        split; [intros _; by apply Hblank | reflexivity].
Qed.

Lemma min_by_len_spec : forall rest best,
  (min_by_len best rest = best \/ min_by_len best rest ∈ rest)
  /\ Py.len (min_by_len best rest) <= Py.len best
  /\ Forall (fun k => Py.len (min_by_len best rest) <= Py.len k) rest.
Proof.
  induction rest as [| k rest IH]; intros best; simpl.
  - repeat split; [by left | lia | constructor].
  - destruct (Nat.ltb_spec (Py.len k) (Py.len best)) as [Hlt | Hge].
    + destruct (IH k) as (Hin & Hle & Hall).
      repeat split.
      * right. destruct Hin as [-> | Hin]; [by left | by right].
      * lia.
      * constructor; assumption.
    + destruct (IH best) as (Hin & Hle & Hall).
      repeat split.
      * destruct Hin as [-> | Hin]; [by left | right; by right].
      * exact Hle.
      * constructor; [lia | assumption].
Qed.

Lemma max_by_len_spec : forall rest best,
  (max_by_len best rest = best \/ max_by_len best rest ∈ rest)
  /\ Py.len best <= Py.len (max_by_len best rest)
  /\ Forall (fun k => Py.len k <= Py.len (max_by_len best rest)) rest.
Proof.
  induction rest as [| k rest IH]; intros best; simpl.
  - repeat split; [by left | lia | constructor].
  - destruct (Nat.ltb_spec (Py.len best) (Py.len k)) as [Hlt | Hge].
    + destruct (IH k) as (Hin & Hle & Hall).
      repeat split.
      * right. destruct Hin as [-> | Hin]; [by left | by right].
      * lia.
      * constructor; assumption.
    + destruct (IH best) as (Hin & Hle & Hall).
      repeat split.
      * destruct Hin as [-> | Hin]; [by left | right; by right].
      * exact Hle.
      * constructor; [lia | assumption].
Qed.

Lemma tally_spec : forall dist count,
  list_sum (map snd (tally dist count)) = S (list_sum (map snd dist))
  /\ (NoDup (map fst dist) -> NoDup (map fst (tally dist count)))
  /\ (forall c, c ∈ map fst (tally dist count) -> c = count \/ c ∈ map fst dist).
Proof.
  induction dist as [| [c n] dist IH]; intros count; simpl.
  - repeat split; [repeat constructor; inversion 1 |].
    intros c Hc. apply list_elem_of_singleton in Hc. by left.
  - destruct (Nat.eqb_spec c count) as [-> | Hne]; simpl.
    + repeat split; [auto |]. intros c Hc. by right.
    + destruct (IH count) as (Hsum & Hnd & Hkeys).
      repeat split.
      * rewrite Hsum. lia.
      * intros H. apply NoDup_cons in H as [Hc H]. constructor; [| by apply Hnd].
        intros Hin. apply Hkeys in Hin as [-> | Hin]; contradiction.
      * intros c0 Hc0. apply elem_of_cons in Hc0 as [-> | Hc0];
          [right; by left |].
        apply Hkeys in Hc0 as [-> | Hc0]; [by left | right; by right].
Qed.

Lemma tally_fold_spec : forall counts dist,
  list_sum (map snd (fold_left tally counts dist))
  = list_sum (map snd dist) + length counts
  /\ (NoDup (map fst dist) -> NoDup (map fst (fold_left tally counts dist))).
Proof.
  induction counts as [| c counts IH]; intros dist; simpl.
  - split; [lia | auto].
  - destruct (IH (tally dist c)) as (Hsum & Hnd).
    destruct (tally_spec dist c) as (Hsum1 & Hnd1 & _).
    split; [rewrite Hsum, Hsum1; lia | auto].
Qed.

(** X7. For a non-empty list [get_keyword_stats] counts all keywords,
    reports a keyword of the list of least length as shortest and one of
    greatest length as longest, and its word-count distribution has one
    entry per word count, the entries adding up to the number of
    keywords. *)
Theorem keyword_stats_spec (keywords : list string) (Hne : keywords <> []) :
  let stats := get_keyword_stats keywords in
  total_count stats = length keywords
  /\ (shortest stats ∈ keywords
      /\ Forall (fun k => Py.len (shortest stats) <= Py.len k) keywords)
  /\ (longest stats ∈ keywords
      /\ Forall (fun k => Py.len k <= Py.len (longest stats)) keywords)
  /\ (list_sum (map snd (word_count_distribution stats)) = length keywords
      /\ NoDup (map fst (word_count_distribution stats))).
Proof.
  destruct keywords as [| first rest]; [contradiction |]. clear Hne.
  cbn [get_keyword_stats total_count shortest longest word_count_distribution].
  destruct (min_by_len_spec rest first) as (Hmin & Hminle & Hminall).
  destruct (max_by_len_spec rest first) as (Hmax & Hmaxle & Hmaxall).
  repeat split.
  - destruct Hmin as [-> | Hmin]; [by left | by right].
  - constructor; assumption.
  - destruct Hmax as [-> | Hmax]; [by left | by right].
  - constructor; assumption.
  - destruct (tally_fold_spec
                (map (fun k => length (Py.split_ws k)) (first :: rest)) [])
      as [-> _]. rewrite length_map. reflexivity.
  - apply tally_fold_spec. constructor.
Qed.


(** ** Group names, identifiers and scores *)

Lemma bump_frequency : forall wf w w',
  frequency (bump wf w) w'
  = frequency wf w' + (if bool_decide (w = w') then 1 else 0).
Proof.
  induction wf as [| [v n] wf IH]; intros w w'; simpl.
  - destruct (bool_decide (w = w')); reflexivity.
  - destruct (bool_decide_reflect (v = w)) as [-> | Hne]; simpl.
    + destruct (bool_decide (w = w')); lia.
    + destruct (bool_decide_reflect (v = w')) as [-> | Hne'].
      * rewrite bool_decide_eq_false_2 by congruence. lia.
      * apply IH.
Qed.

Lemma bump_keys : forall wf w k,
  k ∈ map fst (bump wf w) <-> k = w \/ k ∈ map fst wf.
Proof.
  induction wf as [| [v n] wf IH]; intros w k; simpl.
  - rewrite list_elem_of_singleton. split; [auto | intros [H | H]; [exact H | inversion H]].
  - destruct (bool_decide_reflect (v = w)) as [-> | Hne]; simpl.
    + rewrite elem_of_cons. split; [auto |]. intros [-> | H]; [by left | exact H].
    + rewrite !elem_of_cons, IH. tauto.
Qed.

Lemma bump_NoDup : forall wf w,
  NoDup (map fst wf) -> NoDup (map fst (bump wf w)).
Proof.
  induction wf as [| [v n] wf IH]; intros w H; simpl.
  - apply NoDup_singleton.
  - destruct (bool_decide_reflect (v = w)) as [-> | Hne]; simpl; [exact H |].
    simpl in H. apply NoDup_cons in H as [Hv H]. constructor; [| by apply IH].
    rewrite bump_keys. intros [E | E]; [congruence | contradiction].
Qed.

Lemma fold_bump_spec : forall ws wf,
  (forall w, frequency (fold_left bump ws wf) w = frequency wf w + occurrences w ws)
  /\ (NoDup (map fst wf) -> NoDup (map fst (fold_left bump ws wf)))
  /\ (forall k, k ∈ map fst (fold_left bump ws wf) <-> k ∈ ws \/ k ∈ map fst wf).
Proof.
  induction ws as [| v ws IH]; intros wf; simpl.
  - repeat split; [intros; lia | auto | auto |].
    intros [H | H]; [inversion H | exact H].
  - destruct (IH (bump wf v)) as (Hf & Hnd & Hk).
    repeat split.
    + intros w. rewrite Hf, bump_frequency.
      destruct (bool_decide (v = w)); lia.
    + intros H. apply Hnd, bump_NoDup, H.
    + intros H. apply Hk in H as [H | H]; [left; by right |].
      apply bump_keys in H as [-> | H]; [left; by left | by right].
    + intros [H | H]; apply Hk.
      * apply elem_of_cons in H as [-> | H]; [| by left].
        right. apply bump_keys. by left.
      * right. apply bump_keys. by right.
Qed.

Lemma count_words_fold (keywords : list string) :
  count_words keywords = fold_left bump (significant_words keywords) [].
Proof.
  unfold count_words, significant_words.
  generalize (@nil (string * nat)).
  induction keywords as [| k ks IH]; intros wf; [reflexivity |].
  simpl. rewrite IH, fold_left_app. f_equal.
  generalize (Py.split_ws k). clear. intros ws. revert wf.
  induction ws as [| w ws IH]; intros wf; [reflexivity |].
  simpl. destruct (2 <? Py.len w); simpl; apply IH.
Qed.

Lemma frequency_entry : forall wf w n,
  NoDup (map fst wf) -> (w, n) ∈ wf -> frequency wf w = n.
Proof.
  induction wf as [| [v m] wf IH]; intros w n Hnd H; [inversion H |].
  simpl in *. apply NoDup_cons in Hnd as [Hv Hnd].
  apply elem_of_cons in H as [[= -> ->] | H].
  - by rewrite bool_decide_eq_true_2.
  - destruct (bool_decide_reflect (v = w)) as [-> | Hne]; [| by apply IH].
    exfalso. apply Hv. apply list_elem_of_In, in_map_iff.
    exists (w, n). split; [reflexivity | by apply list_elem_of_In].
Qed.

Lemma frequency_absent : forall wf w,
  w ∉ map fst wf -> frequency wf w = 0.
Proof.
  induction wf as [| [v m] wf IH]; intros w H; [reflexivity |].
  simpl in *. apply not_elem_of_cons in H as [Hne H].
  rewrite bool_decide_eq_false_2 by congruence. by apply IH.
Qed.

Lemma max_key_spec : forall rest best,
  exists n, (max_key best rest, n) ∈ best :: rest
            /\ Forall (fun e => snd e <= n) (best :: rest).
Proof.
  induction rest as [| [w m] rest IH]; intros [b nb]; simpl.
  - exists nb. split; [by left | by repeat constructor].
  - destruct (Nat.ltb_spec nb m) as [Hlt | Hge].
    + destruct (IH (w, m)) as (n & Hin & Hall).
      apply Forall_cons in Hall as [Hm Hall]. simpl in Hm.
      exists n. split; [by right |].
      constructor; [simpl; lia |]. constructor; [exact Hm | exact Hall].
    + destruct (IH (b, nb)) as (n & Hin & Hall).
      apply Forall_cons in Hall as [Hb Hall]. simpl in Hb.
      exists n. split.
      * apply elem_of_cons in Hin as [Hin | Hin];
          [rewrite Hin; by left | right; by right].
      * constructor; [exact Hb |]. constructor; [simpl; lia | exact Hall].
Qed.

(** X8. The name [_generate_group_name] gives to two or more keywords is
    ["<word> related"] for a word of more than two characters that occurs
    most often among the keywords' words, and ["<first keyword> group"]
    when no keyword has such a word. *)
Theorem group_name_spec (first second : string) (rest : list string) :
  let keywords := first :: second :: rest in
  let words := significant_words keywords in
  (words = [] -> _generate_group_name keywords = first +:+ " group")
  /\ (words <> [] ->
      exists word,
        _generate_group_name keywords = word +:+ " related"
        /\ word ∈ words
        /\ forall other, occurrences other words <= occurrences word words).
Proof.
  intros keywords words.
  destruct (fold_bump_spec words []) as (Hfreq & Hnd & Hkeys).
  specialize (Hnd (NoDup_nil_2)).
  assert (Hocc : forall w, frequency (fold_left bump words []) w
                           = occurrences w words)
    by (intros w; rewrite Hfreq; reflexivity).
  clear Hfreq.
  unfold _generate_group_name. fold keywords.
  rewrite (count_words_fold keywords). fold words.
  split.
  - intros ->. reflexivity.
  - intros Hne.
    destruct (fold_left bump words []) as [| best others] eqn:E.
    { exfalso. destruct words as [| w ws]; [contradiction |].
      assert (H : w ∈ map fst (@nil (string * nat)))
        by (apply Hkeys; left; by left).
      inversion H. }
    destruct (max_key_spec others best) as (n & Hin & Hall).
    exists (max_key best others). split; [reflexivity |].
    pose proof (frequency_entry _ _ _ Hnd Hin) as Hn.
    rewrite Hocc in Hn.
    split.
    + assert (Hk : max_key best others ∈ map fst (best :: others)).
      { apply list_elem_of_In, in_map_iff. eexists. split; [| by apply list_elem_of_In].
        reflexivity. }
      apply Hkeys in Hk as [Hk | Hk]; [exact Hk | inversion Hk].
    + intros other. rewrite Hn, <- Hocc.
      destruct (decide (other ∈ map fst (best :: others))) as [Hk | Hk].
      * apply list_elem_of_In, in_map_iff in Hk as ([o m] & Ho & Hin').
        simpl in Ho. subst o. apply list_elem_of_In in Hin'.
        rewrite (frequency_entry _ _ _ Hnd Hin').
        rewrite Forall_forall in Hall. exact (Hall (other, m) Hin').
      * rewrite frequency_absent by exact Hk. lia.
Qed.

Lemma group_id_inj i j : group_id i = group_id j -> i = j.
Proof.
  unfold group_id. intros H.
  apply (inj (String.app "group_")) in H. by apply (inj pretty) in H.
Qed.

Lemma fallback_ids (K : list string) g : forall idx acc,
  map id (fold_left (fallback_step K g) idx acc)
  = map id acc ++ map group_id (seq (length acc + 1) (length idx)).
Proof.
  induction idx as [| i idx IH]; intros acc; simpl.
  - by rewrite app_nil_r.
  - rewrite IH. unfold fallback_step. rewrite map_app, length_app, <- app_assoc.
    simpl. replace (length acc + 1 + 1) with (S (length acc + 1)) by lia.
    reflexivity.
Qed.

Lemma range_step_length n g :
  length (Py.range_step 0 n g) = (n + g - 1) / g.
Proof.
  unfold Py.range_step. rewrite length_map, length_seq, Nat.sub_0_r.
  reflexivity.
Qed.

Lemma fallback_count_bound n :
  (n + Nat.max 3 (n / 5) - 1) / Nat.max 3 (n / 5) <= 7.
Proof.
  set (g := Nat.max 3 (n / 5)).
  assert (Hg : 3 <= g) by lia.
  assert (Hn : n <= 5 * g + 4).
  { pose proof (Nat.div_mod_eq n 5) as E.
    pose proof (Nat.mod_upper_bound n 5). lia. }
  apply Nat.lt_succ_r, Nat.Div0.div_lt_upper_bound; lia.
Qed.

Lemma fallback_ids_count (K : list string) :
  let n := length (_fallback_grouping K) in
  map id (_fallback_grouping K) = map group_id (seq 1 n)
  /\ n = (length K + Nat.max 3 (length K / 5) - 1) / Nat.max 3 (length K / 5)
  /\ n <= 7
  /\ (K <> [] -> 1 <= n).
Proof.
  assert (Hlen : length (_fallback_grouping K)
                 = (length K + Nat.max 3 (length K / 5) - 1)
                   / Nat.max 3 (length K / 5)).
  { destruct K as [| k K'].
    - simpl. reflexivity.
    - unfold _fallback_grouping.
      rewrite <- (length_map id), fallback_ids. simpl.
      rewrite length_map, length_seq, range_step_length. reflexivity. }
  cbv zeta. repeat split.
  - destruct K as [| k K']; [reflexivity |].
    rewrite Hlen. unfold _fallback_grouping. rewrite fallback_ids.
    rewrite range_step_length. reflexivity.
  - exact Hlen.
  - rewrite Hlen. apply fallback_count_bound.
  - intros HK. rewrite Hlen.
    destruct K as [| k K']; [contradiction |].
    apply Nat.div_le_lower_bound; [lia |]. simpl length. lia.
Qed.

(** X9. [_fallback_grouping] numbers its groups [group_1], [group_2], ...
    in order; their number is the length of the input divided by the
    chunk size [max(3, len // 5)], rounded up, which is at most 7, and at
    least 1 for a non-empty input. *)
Theorem fallback_group_ids (K : list string) :
  let n := length (_fallback_grouping K) in
  map id (_fallback_grouping K) = map group_id (seq 1 n)
  /\ n = (length K + Nat.max 3 (length K / 5) - 1) / Nat.max 3 (length K / 5)
  /\ n <= 7
  /\ (K <> [] -> 1 <= n).
Proof. exact (fallback_ids_count K). Qed.

Lemma cluster_loop_new (K : list string) (ls : list nat) :
  forall cs acc groups,
  cluster_loop K ls cs acc = Some groups ->
  exists new, groups = acc ++ new
              /\ sublist (map id new) (map (fun c => group_id (c + 1)) cs)
              /\ Forall (fun g => score g = 4 # 5) new.
Proof.
  induction cs as [| c cs IH]; intros acc groups H.
  - simpl in H. injection H as <-. exists []. rewrite app_nil_r.
    repeat split; constructor.
  - cbn [cluster_loop] in H.
    destruct (cluster_members K ls c (seq 0 (length K))) as [r |];
      [| discriminate H].
    apply IH in H as (new & -> & Hsub & Hscore).
    destruct r as [| k r].
    + exists new. repeat split; [by apply sublist_cons | exact Hscore].
    + eexists (_ :: new). rewrite <- app_assoc. simpl.
      repeat split; [by apply sublist_skip | by constructor].
Qed.

Section Grouped.
Context (max_groups_per_batch : Z) {Embeddings : Type}
  (model : option (list string -> option Embeddings))
  (fit_predict : nat -> Embeddings -> option (list nat)).

Lemma fallback_shape (K : list string) :
  NoDup (map id (_fallback_grouping K))
  /\ length (_fallback_grouping K) <= 7
  /\ one_score (_fallback_grouping K).
Proof.
  destruct (fallback_ids_count K) as (Hids & _ & Hle & _).
  cbv zeta in Hids, Hle.
  repeat split.
  - rewrite Hids.
    apply NoDup_fmap_2_strong; [| apply NoDup_ListNoDup, seq_NoDup].
    intros a b _ _ Hab. by apply group_id_inj.
  - exact Hle.
  - exists (1 # 2). split; [auto |].
    eapply Forall_impl; [apply fallback_score_name |]. by intros g [Hg _].
Qed.

(** X10. Whatever the embedding model and the clustering answer,
    [group_keywords] returns groups with pairwise different identifiers,
    at most [max(7, max_groups_per_batch)] of them, all with the same
    score, which is 1.0, 0.8 or 0.5. *)
Theorem group_keywords_shape (K : list string) :
  NoDup (map id (group_keywords max_groups_per_batch model fit_predict K))
  /\ length (group_keywords max_groups_per_batch model fit_predict K)
     <= Nat.max 7 (Z.to_nat max_groups_per_batch)
  /\ one_score (group_keywords max_groups_per_batch model fit_predict K).
Proof.
  assert (Hsingle : forall g : Group,
            score g = 1%Q ->
            NoDup (map id [g])
            /\ length [g] <= Nat.max 7 (Z.to_nat max_groups_per_batch)
            /\ one_score [g]).
  { intros g Hg. repeat split.
    - simpl. apply NoDup_singleton.
    - simpl. lia.
    - exists 1%Q. split; [auto | by repeat constructor]. }
  assert (Hfallback :
            NoDup (map id (_fallback_grouping K))
            /\ length (_fallback_grouping K)
               <= Nat.max 7 (Z.to_nat max_groups_per_batch)
            /\ one_score (_fallback_grouping K)).
  { destruct (fallback_shape K) as (H1 & H2 & H3). repeat split; auto. lia. }
  unfold group_keywords.
  destruct (length K <? 2); [by apply Hsingle |].
  destruct (_generate_embeddings model K) as [e |]; [| exact Hfallback].
  unfold _cluster_keywords.
  set (n := Z.min _ _).
  assert (Hn : (n <= max_groups_per_batch)%Z) by (subst n; lia).
  clearbody n.
  destruct (Z.leb_spec n 1); [by apply Hsingle |].
  destruct (fit_predict (Z.to_nat n) e) as [ls |]; [| exact Hfallback].
  destruct (cluster_loop K ls (seq 0 (Z.to_nat n)) []) as [groups |] eqn:Hloop;
    [| exact Hfallback].
  apply cluster_loop_new in Hloop as (new & -> & Hsub & Hscore). simpl.
  repeat split.
  - eapply sublist_NoDup; [| exact Hsub].
    apply NoDup_fmap_2_strong; [| apply NoDup_ListNoDup, seq_NoDup].
    intros a b _ _ Hab. apply group_id_inj in Hab. lia.
  - apply sublist_length in Hsub. rewrite !length_map, length_seq in Hsub. lia.
  - exists (4 # 5). split; [auto | exact Hscore].
Qed.
End Grouped.


(** ** The cache and the store *)

Lemma live_advance_insert r key v ttl dt :
  Redis.live
    (Redis.advance dt
       (Redis.mk true (Redis.now r)
          (<[key := (v, Some (Redis.now r + ttl))]> (Redis.store r)))) key
  = if dt <=? ttl then Some (v, Some (Redis.now r + ttl)) else None.
Proof.
  unfold Redis.live, Redis.advance. simpl. rewrite lookup_insert_eq.
  destruct (Nat.leb_spec dt ttl),
    (Nat.leb_spec (Redis.now r + dt) (Redis.now r + ttl));
    (reflexivity || lia).
Qed.

Lemma live_insert r key v ttl :
  Redis.live
    (Redis.mk true (Redis.now r)
       (<[key := (v, Some (Redis.now r + ttl))]> (Redis.store r))) key
  = Some (v, Some (Redis.now r + ttl)).
Proof.
  unfold Redis.live. simpl. rewrite lookup_insert_eq.
  destruct (Nat.leb_spec (Redis.now r) (Redis.now r + ttl));
    [reflexivity | lia].
Qed.

Lemma live_insert_ne r key key' e t :
  key <> key' ->
  Redis.live (Redis.mk true t (<[key := e]> (Redis.store r))) key'
  = Redis.live (Redis.mk true t (Redis.store r)) key'.
Proof.
  intros Hne. unfold Redis.live. simpl. by rewrite lookup_insert_ne.
Qed.

Lemma positive_ttl ttl : 0 < ttl -> (0 <? ttl) = true.
Proof. intros H. by apply Nat.ltb_lt. Qed.

(** X11. On a working cache a counter within the 64-bit integers that
    was set with a positive time to live reads back up to the moment that
    time has passed and is gone after it; an increment whose sum stays
    within the 64-bit integers returns the sum, stores it and keeps the
    expiry, and one whose sum does not fit returns 0 and changes nothing;
    other keys are not affected. *)
Theorem cache_counter_round_trip (key : string) (n amount : Z) (ttl dt : nat)
  (c : CacheManager.t) (r : Redis.t)
  (Hclient : CacheManager.client c = Some r)
  (Hup : Redis.up r = true)
  (Httl : 0 < ttl)
  (Hn : Redis.int64 n = true)
  (Hamount : Redis.int64 amount = true) :
  let c1 := snd (CacheManager.set key (VInt n) ttl c) in
  let c2 := snd (CacheManager.increment key amount c1) in
  fst (CacheManager.set key (VInt n) ttl c) = true
  /\ fst (CacheManager.get key (CacheManager.advance dt c1))
     = (if dt <=? ttl then Some (VInt n) else None)
  /\ fst (CacheManager.exists_ key (CacheManager.advance dt c1)) = (dt <=? ttl)
  /\ (Redis.int64 (n + amount) = true ->
      fst (CacheManager.increment key amount c1) = (n + amount)%Z
      /\ fst (CacheManager.get key (CacheManager.advance dt c2))
         = (if dt <=? ttl then Some (VInt (n + amount)) else None))
  /\ (Redis.int64 (n + amount) = false ->
      CacheManager.increment key amount c1 = (0%Z, c1))
  /\ (forall other, other <> key ->
        fst (CacheManager.get other c1) = fst (CacheManager.get other c)).
Proof.
  destruct c as [cl]. simpl in Hclient. subst cl.
  unfold CacheManager.set, Redis.setex.
  cbn [CacheManager.client]. rewrite Hup, (positive_ttl ttl Httl).
  cbn [andb fst snd].
  split; [reflexivity |]. split; [| split; [| split; [| split]]].
  - unfold CacheManager.get, CacheManager.advance, Redis.get. simpl.
    rewrite live_advance_insert. destruct (dt <=? ttl); reflexivity.
  - unfold CacheManager.exists_, CacheManager.advance, Redis.exists_. simpl.
    rewrite live_advance_insert. destruct (dt <=? ttl); reflexivity.
  - intros Hsum. unfold CacheManager.increment, Redis.incrby.
    cbn [CacheManager.client Redis.up Redis.now Redis.store andb].
    rewrite Hamount, live_insert, Hn, Hsum. cbn [andb fst snd].
    split; [reflexivity |].
    unfold CacheManager.get, CacheManager.advance, Redis.get. simpl.
    rewrite insert_insert_eq.
    rewrite live_advance_insert. destruct (dt <=? ttl); reflexivity.
  - intros Hsum. unfold CacheManager.increment, Redis.incrby.
    cbn [CacheManager.client Redis.up Redis.now Redis.store andb].
    rewrite Hamount, live_insert, Hn, Hsum. reflexivity.
  - intros other Hne. unfold CacheManager.get, Redis.get. simpl. rewrite Hup.
    simpl. rewrite live_insert_ne by congruence.
    destruct r as [u t st]. simpl in *. subst u. reflexivity.
Qed.

Lemma lock_keys_differ (b b' : string) :
  CacheManager.processing_lock_key b <> lock_key b'.
Proof. unfold CacheManager.processing_lock_key, lock_key. simpl. discriminate. Qed.

(** X12. [set_processing_lock] (with a positive time to live) on a free
    lock succeeds; a second attempt fails and changes nothing up to the
    moment the time to live has passed, and succeeds after it or after
    [release_processing_lock]; the lock is not the key the command
    handler tests. *)
Theorem processing_lock_exclusive (batch_id : string) (ttl ttl' dt : nat)
  (c : CacheManager.t) (r : Redis.t)
  (Hclient : CacheManager.client c = Some r)
  (Hup : Redis.up r = true)
  (Hfree : Redis.live r (CacheManager.processing_lock_key batch_id) = None)
  (Httl : 0 < ttl) (Httl' : 0 < ttl') :
  let c1 := snd (CacheManager.set_processing_lock batch_id ttl c) in
  fst (CacheManager.set_processing_lock batch_id ttl c) = true
  /\ (dt <= ttl ->
      CacheManager.set_processing_lock batch_id ttl' (CacheManager.advance dt c1)
      = (false, CacheManager.advance dt c1))
  /\ (ttl < dt ->
      fst (CacheManager.set_processing_lock batch_id ttl'
             (CacheManager.advance dt c1)) = true)
  /\ fst (CacheManager.release_processing_lock batch_id c1) = true
  /\ fst (CacheManager.set_processing_lock batch_id ttl'
            (snd (CacheManager.release_processing_lock batch_id c1))) = true
  /\ (forall other,
        fst (CacheManager.exists_ (lock_key other) c1)
        = fst (CacheManager.exists_ (lock_key other) c)).
Proof.
  destruct c as [cl]. simpl in Hclient. subst cl.
  unfold CacheManager.set_processing_lock at 1 2.
  unfold Redis.set_nx_ex. cbn [CacheManager.client].
  rewrite Hup, (positive_ttl ttl Httl), Hfree. cbn [andb fst snd].
  split; [reflexivity |]. split; [| split; [| split; [| split]]].
  - intros Hdt. unfold CacheManager.set_processing_lock, Redis.set_nx_ex,
      CacheManager.advance.
    cbn [CacheManager.client fmap option_fmap option_map].
    unfold Redis.advance at 1. cbn [Redis.up andb].
    rewrite (positive_ttl ttl' Httl'), live_advance_insert.
    destruct (Nat.leb_spec dt ttl); [reflexivity | lia].
  - intros Hdt. unfold CacheManager.set_processing_lock, Redis.set_nx_ex,
      CacheManager.advance.
    cbn [CacheManager.client fmap option_fmap option_map].
    unfold Redis.advance at 1. cbn [Redis.up andb].
    rewrite (positive_ttl ttl' Httl'), live_advance_insert.
    destruct (Nat.leb_spec dt ttl); [lia | reflexivity].
  - unfold CacheManager.release_processing_lock,
      CacheManager.delete, Redis.delete.
    cbn [CacheManager.client Redis.up]. rewrite live_insert. reflexivity.
  - unfold CacheManager.release_processing_lock, CacheManager.delete,
      Redis.delete.
    cbn [CacheManager.client Redis.up snd].
    unfold CacheManager.set_processing_lock, Redis.set_nx_ex.
    cbn [CacheManager.client Redis.up andb].
    rewrite (positive_ttl ttl' Httl').
    unfold Redis.live. cbn [Redis.store]. rewrite lookup_delete_eq.
    reflexivity.
  - intros other. unfold CacheManager.exists_, Redis.exists_. simpl.
    rewrite Hup. rewrite live_insert_ne by apply lock_keys_differ.
    destruct r as [u t st]. simpl in *. subst u. reflexivity.
Qed.

Section Store.
Context (fault : nat -> bool) (new_id : DatabaseManager.t -> string).

(** X13. [update_keyword_batch] on an existing row returns the row that
    [get_keyword_batch] reads back afterwards: the status is the new
    one, owner, keywords, count and source are kept, the completion time
    is replaced only when one is given, and no other row or table
    changes. *)
Theorem update_then_get (batch_id status : string) (completed_at : option string)
  (d : DatabaseManager.t) (row : Batch.t)
  (Hrow : DatabaseManager.keyword_batches d !! batch_id = Some row)
  (Hfirst : fault (DatabaseManager.calls d) = false)
  (Hsecond : fault (S (DatabaseManager.calls d)) = false) :
  let d1 := snd (DatabaseManager.update_keyword_batch fault batch_id status
                   completed_at d) in
  exists row',
    fst (DatabaseManager.update_keyword_batch fault batch_id status
           completed_at d) = Ok row'
    /\ fst (DatabaseManager.get_keyword_batch fault batch_id d1) = Some row'
    /\ Batch.status row' = status
    /\ (Batch.id row', Batch.user_id row', Batch.keywords row',
        Batch.keyword_count row', Batch.source row')
       = (Batch.id row, Batch.user_id row, Batch.keywords row,
          Batch.keyword_count row, Batch.source row)
    /\ Batch.completed_at row'
       = match completed_at with
         | Some c => Some c
         | None => Batch.completed_at row
         end
    /\ (forall other, other <> batch_id ->
          DatabaseManager.keyword_batches d1 !! other
          = DatabaseManager.keyword_batches d !! other)
    /\ DatabaseManager.keyword_groups d1 = DatabaseManager.keyword_groups d
    /\ DatabaseManager.outlines d1 = DatabaseManager.outlines d.
Proof.
  unfold DatabaseManager.update_keyword_batch. rewrite Hfirst, Hrow. simpl.
  eexists. split; [reflexivity |].
  unfold DatabaseManager.get_keyword_batch. simpl. rewrite Hsecond. simpl.
  rewrite lookup_insert_eq.
  repeat split. intros other Hne. by rewrite lookup_insert_ne.
Qed.

(** X14. [update_keyword_batch] on a batch that has no row raises and
    leaves the tables as they were. *)
Theorem update_missing_batch (batch_id status : string)
  (completed_at : option string) (d : DatabaseManager.t)
  (Hrow : DatabaseManager.keyword_batches d !! batch_id = None) :
  let result := DatabaseManager.update_keyword_batch fault batch_id status
                  completed_at d in
  (exists e, fst result = Raise e)
  /\ DatabaseManager.keyword_batches (snd result)
     = DatabaseManager.keyword_batches d
  /\ DatabaseManager.keyword_groups (snd result)
     = DatabaseManager.keyword_groups d
  /\ DatabaseManager.outlines (snd result) = DatabaseManager.outlines d.
Proof.
  unfold DatabaseManager.update_keyword_batch. rewrite Hrow.
  destruct (fault _); simpl; repeat split; eauto.
Qed.
End Store.


(** ** Requests *)

Lemma rate_limit_key_inj u v : rate_limit_key u = rate_limit_key v -> u = v.
Proof. unfold rate_limit_key. apply (inj (String.app "rate_limit:")). Qed.

Lemma check_answer user w :
  fst (_check_rate_limit user w)
  = match fst (CacheManager.get (rate_limit_key user) (cache w)) with
    | None => Ok true
    | Some (VInt n) => Ok (negb (10 <=? n)%Z)
    | Some (VStr _) => Raise "TypeError"
    end.
Proof.
  unfold _check_rate_limit, bind, on_cache.
  destruct (CacheManager.get (rate_limit_key user) (cache w)) as [[[n | s] |] c];
    simpl.
  - destruct (10 <=? n)%Z; simpl; [reflexivity |].
    destruct (CacheManager.increment _ _ c). reflexivity.
  - reflexivity.
  - destruct (CacheManager.set _ _ _ c). reflexivity.
Qed.

Lemma get_keeps_cache key c : snd (CacheManager.get key c) = c.
Proof.
  unfold CacheManager.get. destruct (CacheManager.client c) as [r |];
    [destruct (Redis.get key r) |]; reflexivity.
Qed.

Lemma get_after_set key key' v ttl c :
  key <> key' ->
  fst (CacheManager.get key' (snd (CacheManager.set key v ttl c)))
  = fst (CacheManager.get key' c).
Proof.
  intros Hne. destruct c as [[r |]]; [| reflexivity].
  unfold CacheManager.set, Redis.setex. cbn [CacheManager.client].
  destruct (Redis.up r) eqn:Hup; [| reflexivity].
  destruct (0 <? ttl); [| reflexivity]. cbn [andb snd].
  unfold CacheManager.get, Redis.get. simpl. rewrite Hup.
  unfold Redis.live. simpl. by rewrite lookup_insert_ne.
Qed.

Lemma get_after_increment key key' amount c :
  key <> key' ->
  fst (CacheManager.get key' (snd (CacheManager.increment key amount c)))
  = fst (CacheManager.get key' c).
Proof.
  intros Hne. destruct c as [[r |]]; [| reflexivity].
  unfold CacheManager.increment, Redis.incrby. cbn [CacheManager.client].
  destruct (Redis.up r) eqn:Hup; [| reflexivity].
  destruct (Redis.int64 amount); [| reflexivity]. cbn [andb].
  destruct (Redis.live r key) as [[[n | s] e] |]; [| reflexivity |].
  - destruct (Redis.int64 n && Redis.int64 (n + amount)); [| reflexivity].
    cbn [snd]. unfold CacheManager.get, Redis.get. simpl. rewrite Hup.
    unfold Redis.live. simpl. by rewrite lookup_insert_ne.
  - cbn [snd]. unfold CacheManager.get, Redis.get. simpl. rewrite Hup.
    unfold Redis.live. simpl. by rewrite lookup_insert_ne.
Qed.

(** X15. The rate limit is kept per user: a check for one user changes
    the answer to no other user's check, and touches neither the store,
    the messages nor the tasks. *)
Theorem rate_limit_per_user (user other : string) (w : World)
  (Hother : other <> user) :
  let w' := snd (_check_rate_limit user w) in
  fst (_check_rate_limit other w') = fst (_check_rate_limit other w)
  /\ db w' = db w /\ sent w' = sent w /\ tasks w' = tasks w.
Proof.
  assert (Hkey : rate_limit_key user <> rate_limit_key other).
  { intros E. apply rate_limit_key_inj in E. congruence. }
  cbv zeta. rewrite !check_answer.
  unfold _check_rate_limit, bind, on_cache.
  pose proof (get_keeps_cache (rate_limit_key user) (cache w)) as Hget.
  destruct (CacheManager.get (rate_limit_key user) (cache w))
    as [[[n | s] |] c]; simpl in *; subst c.
  - destruct (10 <=? n)%Z; simpl; [by repeat split |].
    pose proof (get_after_increment (rate_limit_key user)
                  (rate_limit_key other) 1 (cache w) Hkey) as Hinc.
    destruct (CacheManager.increment _ _ (cache w)). simpl in *.
    rewrite Hinc. by repeat split.
  - by repeat split.
  - pose proof (get_after_set (rate_limit_key user) (rate_limit_key other)
                  (VInt 1) 900 (cache w) Hkey) as Hset.
    destruct (CacheManager.set _ _ _ (cache w)). simpl in *.
    rewrite Hset. by repeat split.
Qed.

Ltac answered :=
  rewrite ?drop_all, ?drop_app_length;
  (split; [reflexivity | split; [reflexivity | split; [reflexivity |]]]);
  repeat (constructor; [simpl; auto 6 |]); constructor.

Section Requests.
Context (db_fault : nat -> bool) (new_id : DatabaseManager.t -> string)
  (slack_fault : string -> Message -> bool).

(** X16. A process request for a batch that does not belong to the
    requester (or does not exist) starts nothing: no task, no cache
    entry, no batch row changes, and the only messages are refusals. *)
Theorem foreign_request_starts_nothing (command : Command) (w : World)
  (Hforeign : forall batch,
      DatabaseManager.keyword_batches (db w) !! Py.strip (CommandHandler.text command)
      = Some batch ->
      Batch.user_id batch <> user_id command) :
  let w' := snd (handle_process_command db_fault slack_fault command w) in
  cache w' = cache w /\ tasks w' = tasks w
  /\ DatabaseManager.keyword_batches (db w') = DatabaseManager.keyword_batches (db w)
  /\ Forall (fun m => snd m = format_batch_not_found
                      \/ snd m = format_unauthorized_batch
                      \/ snd m = format_process_usage
                      \/ snd m = format_error_message)
       (drop (length (sent w)) (sent w')).
Proof.
  cbv zeta.
  unfold handle_process_command, try_except, bind, on_db, _send_error_message,
    chat_postMessage.
  destruct (bool_decide (Py.strip (CommandHandler.text command) = "")).
  { destruct (slack_fault _ format_process_usage); simpl;
      [destruct (slack_fault _ format_error_message); simpl |];
      answered. }
  unfold DatabaseManager.get_keyword_batch.
  destruct (db_fault _); simpl.
  { destruct (slack_fault _ format_batch_not_found); simpl;
      [destruct (slack_fault _ format_error_message); simpl |];
      answered. }
  destruct (DatabaseManager.keyword_batches (db w) !! _) as [batch |] eqn:Hrow;
    simpl.
  - rewrite (bool_decide_eq_false_2 _ (Hforeign batch eq_refl)). simpl.
    destruct (slack_fault _ format_unauthorized_batch); simpl;
      [destruct (slack_fault _ format_error_message); simpl |];
      answered.
  - destruct (slack_fault _ format_batch_not_found); simpl;
      [destruct (slack_fault _ format_error_message); simpl |];
      answered.
Qed.

Lemma process_command_starts (command : Command) (batch : Batch.t)
  (w : World) (t : nat) (st : gmap string (cache_value * option nat)) :
  Py.strip (CommandHandler.text command) = Batch.id batch ->
  Batch.id batch <> "" ->
  DatabaseManager.keyword_batches (db w) !! Batch.id batch = Some batch ->
  Batch.user_id batch = user_id command ->
  (forall n, db_fault n = false) ->
  (forall m, slack_fault (channel_id command) m = false) ->
  cache w = CacheManager.mk (Some (Redis.mk true t st)) ->
  handle_process_command db_fault slack_fault command w
  = match Redis.live (Redis.mk true t st) (lock_key (Batch.id batch)) with
    | Some _ =>
        (Ok tt,
         mkWorld (DatabaseManager.request (db w)) (cache w)
           (sent w ++ [(channel_id command, format_already_processing)])
           (tasks w))
    | None =>
        (Ok tt,
         mkWorld (DatabaseManager.request (db w))
           (CacheManager.mk
              (Some (Redis.mk true t
                       (<[lock_key (Batch.id batch)
                            := (VStr "processing", Some (t + 1800))]> st))))
           (sent w ++ [(channel_id command,
                        format_processing_started (Batch.id batch)
                          (Batch.keyword_count batch))])
           (tasks w ++ [(batch, channel_id command)]))
    end.
Proof.
  intros Hid Hne Hrow Howner Hstore Hslack Hcache.
  assert (Hne' : Py.strip (CommandHandler.text command) <> "") by congruence.
  unfold handle_process_command, try_except, bind, on_db,
    DatabaseManager.get_keyword_batch.
  rewrite (bool_decide_eq_false_2 _ Hne'), Hstore, Hid, Hrow. simpl.
  rewrite (bool_decide_eq_true_2 _ Howner). simpl.
  unfold _start_batch_processing, try_except, bind, on_cache. simpl.
  rewrite Hcache. unfold CacheManager.exists_, Redis.exists_. simpl.
  destruct (Redis.live _ _) as [entry |]; simpl.
  - unfold chat_postMessage. simpl. rewrite Hslack. reflexivity.
  - unfold chat_postMessage. simpl. rewrite Hslack. reflexivity.
Qed.

(** X17. A process request of the owner for a batch whose lock is free
    announces the start, creates the task and sets the lock; if nothing
    but time passes, the server holds that lock up to 1800 seconds later
    and no longer.  A later request of the owner, with cache and store
    answering, creates no task and answers that the batch is being
    processed as long as the server holds the lock, and creates a task
    again once the lock is gone, whether the run has deleted it or it has
    expired. *)
Theorem second_request_waits_for_the_lock (command : Command) (batch : Batch.t)
  (w : World) (r : Redis.t)
  (Hid : Py.strip (CommandHandler.text command) = Batch.id batch)
  (Hne : Batch.id batch <> "")
  (Hrow : DatabaseManager.keyword_batches (db w) !! Batch.id batch = Some batch)
  (Howner : Batch.user_id batch = user_id command)
  (Hstore : forall n, db_fault n = false)
  (Hslack : forall m, slack_fault (channel_id command) m = false)
  (Hcache : cache w = CacheManager.mk (Some r))
  (Hup : Redis.up r = true)
  (Hfree : Redis.live r (lock_key (Batch.id batch)) = None) :
  let w1 := snd (handle_process_command db_fault slack_fault command w) in
  (tasks w1 = tasks w ++ [(batch, channel_id command)]
   /\ sent w1
      = sent w ++ [(channel_id command,
                    format_processing_started (Batch.id batch)
                      (Batch.keyword_count batch))]
   /\ (forall dt,
         lock_held (Batch.id batch) (advance dt w1) = (dt <=? 1800)))
  /\ (forall (w' : World) (row : Batch.t),
        DatabaseManager.keyword_batches (db w') !! Batch.id batch = Some row ->
        Batch.id row = Batch.id batch ->
        Batch.user_id row = user_id command ->
        CacheManager.unavailable (cache w') = false ->
        let w2 := snd (handle_process_command db_fault slack_fault command w') in
        (lock_held (Batch.id batch) w' = true ->
         tasks w2 = tasks w'
         /\ sent w2 = sent w' ++ [(channel_id command, format_already_processing)])
        /\ (lock_held (Batch.id batch) w' = false ->
            tasks w2 = tasks w' ++ [(row, channel_id command)])).
Proof.
  destruct r as [u t st]. simpl in Hup. subst u.
  intros w1.
  assert (Hw1 : w1 = mkWorld (DatabaseManager.request (db w))
                       (CacheManager.mk
                          (Some (Redis.mk true t
                                   (<[lock_key (Batch.id batch)
                                        := (VStr "processing", Some (t + 1800))]>
                                      st))))
                       (sent w ++ [(channel_id command,
                                    format_processing_started (Batch.id batch)
                                      (Batch.keyword_count batch))])
                       (tasks w ++ [(batch, channel_id command)])).
  { unfold w1.
    rewrite (process_command_starts command batch w t st Hid Hne Hrow Howner
               Hstore Hslack Hcache), Hfree. reflexivity. }
  split.
  - rewrite Hw1. split; [reflexivity | split; [reflexivity |]].
    intros dt. unfold lock_held, advance, CacheManager.advance. simpl.
    pose proof (live_advance_insert (Redis.mk true t st)
                  (lock_key (Batch.id batch)) (VStr "processing") 1800 dt)
      as Hlive.
    unfold Redis.advance in Hlive. simpl in Hlive. unfold Redis.advance.
    simpl. rewrite Hlive. destruct (dt <=? 1800); reflexivity.
  - intros w' row Hrow' Hidrow Hownerrow Hcache' w2.
    destruct w' as [d' [[[u' t' st'] |]] se' ta']; simpl in Hcache';
      [| discriminate].
    destruct u'; [| discriminate]. clear Hcache'.
    assert (Hw2 : w2 = snd (handle_process_command db_fault slack_fault command
                              (mkWorld d'
                                 (CacheManager.mk (Some (Redis.mk true t' st')))
                                 se' ta'))) by reflexivity.
    rewrite (process_command_starts command row _ t' st') in Hw2;
      [| congruence | congruence | rewrite Hidrow; exact Hrow'
       | exact Hownerrow | exact Hstore | exact Hslack | reflexivity].
    rewrite Hidrow in Hw2. unfold lock_held. simpl.
    destruct (Redis.live (Redis.mk true t' st') (lock_key (Batch.id batch)))
      as [entry |]; rewrite Hw2; simpl.
    + split; [intros _; split; reflexivity | discriminate].
    + split; [discriminate | intros _; reflexivity].
Qed.

(** X18. Pasted keywords: when nothing valid is found the store is left
    alone and the user is told so; otherwise one batch row is inserted
    with the parsed keywords, their number, status [uploaded] and source
    [text], and its identifier is reported; cache and tasks are not
    touched. *)
Theorem pasted_keywords_become_a_batch (text user channel : string) (w : World)
  (Hstore : db_fault (DatabaseManager.calls (db w)) = false)
  (Hfresh : DatabaseManager.keyword_batches (db w) !! new_id (db w) = None)
  (Hslack : forall m, slack_fault channel m = false) :
  let w' := snd (_process_keywords_from_text db_fault new_id slack_fault
                   text user channel w) in
  let keywords := parse_keywords text in
  cache w' = cache w /\ tasks w' = tasks w
  /\ (keywords = [] ->
      DatabaseManager.keyword_batches (db w')
      = DatabaseManager.keyword_batches (db w)
      /\ sent w' = sent w ++ [(channel, format_no_keywords_found)])
  /\ (keywords <> [] ->
      DatabaseManager.keyword_batches (db w')
      = <[new_id (db w) :=
            Batch.mk (new_id (db w)) user keywords (length keywords)
              "uploaded" "text" None]>
          (DatabaseManager.keyword_batches (db w))
      /\ sent w' = sent w ++ [(channel,
                               format_keywords_uploaded (new_id (db w))
                                 (length keywords))]).
Proof.
  cbv zeta.
  unfold _process_keywords_from_text, try_except, bind, on_db_raising,
    _send_error_message, chat_postMessage.
  destruct (parse_keywords text) as [| k ks] eqn:Hparse.
  - rewrite Hslack. simpl. repeat split; congruence.
  - unfold DatabaseManager.create_keyword_batch. rewrite Hstore, Hfresh. simpl.
    rewrite Hslack. simpl. repeat split; congruence.
Qed.
End Requests.

Lemma split_on_go_length d cur l :
  length (Py.split_on_go d cur l)
  = S (length (filter (fun x => Ascii.eqb x d = true) l)).
Proof.
  revert cur. induction l as [| c l IH]; intros cur; simpl; [reflexivity |].
  rewrite filter_cons.
  destruct (Ascii.eqb c d) eqn:E.
  - rewrite decide_True by reflexivity. simpl. by rewrite IH.
  - rewrite decide_False by discriminate. apply IH.
Qed.

Lemma split_on_length d s : length (Py.split_on d s) = S (Py.count d s).
Proof. apply split_on_go_length. Qed.

(** X19. [_looks_like_keywords] holds exactly for texts of 20 characters
    or more with at least three commas or at least three newlines: its
    tests on the number of fragments follow from the counts. *)
Theorem looks_like_keywords_spec (text : string) :
  (_looks_like_keywords text = true
   <-> 20 <= Py.len text
       /\ (3 <= Py.count ","%char text
           \/ 3 <= Py.count (ascii_of_nat 10) text))
  /\ (_looks_like_keywords text = true ->
      4 <= length (Py.split_on ","%char text)
      \/ 4 <= length (Py.split_on (ascii_of_nat 10) text)).
Proof.
  unfold _looks_like_keywords.
  rewrite !split_on_length.
  destruct (bool_decide (text = "")) eqn:Hempty; simpl.
  { apply bool_decide_eq_true_1 in Hempty. subst text.
    split; [split; [discriminate | cbv; lia] | discriminate]. }
  destruct (Nat.ltb_spec (Py.len text) 20) as [Hlen | Hlen].
  { split; [split; [discriminate | lia] | discriminate]. }
  destruct (Nat.ltb_spec 2 (Py.count ","%char text)),
    (Nat.ltb_spec 3 (S (Py.count ","%char text))),
    (Nat.ltb_spec 2 (Py.count (ascii_of_nat 10) text)),
    (Nat.ltb_spec 3 (S (Py.count (ascii_of_nat 10) text)));
    simpl; try lia;
    (split; [split; [intros _; lia | try reflexivity; try lia]
            | try discriminate; intros _; lia]).
Qed.



(** ** Post ideas *)


Lemma group_ideas_spec (group : Group) :
  length (PostIdeaGenerator._generate_group_ideas group) = 5
  /\ Forall (fun idea =>
               PostIdea.group_id idea = KeywordGrouper.id group
               /\ PostIdea.target_keywords idea = take 3 (keywords group)
               /\ 1200 <= PostIdea.estimated_word_count idea <= 2000
               /\ PostIdea.difficulty idea ∈ ["Hard"; "Medium"; "Easy"])
       (PostIdeaGenerator._generate_group_ideas group)
  /\ map PostIdea.content_type (PostIdeaGenerator._generate_group_ideas group)
     = ["How-to Guide"; "Listicle"; "Comparison"; "Case Study"; "Beginner Guide"].
Proof.
  unfold PostIdeaGenerator._generate_group_ideas.
  split; [reflexivity | split; [| reflexivity]].
  assert (Hd : forall k, PostIdeaGenerator._assess_difficulty k ∈ ["Hard"; "Medium"; "Easy"]).
  { intros k. unfold PostIdeaGenerator._assess_difficulty.
    destruct (_ =? 1); [set_solver |]. destruct (_ =? 2); set_solver. }
  unfold PostIdeaGenerator.content_types. simpl.
  repeat (apply Forall_cons; split;
          [simpl; split; [reflexivity
                         | split; [unfold Py.slice; by rewrite drop_0
                                  | split; [cbv; lia | apply Hd]]] |]).
  apply Forall_nil_2.
Qed.

(** X20. [generate_ideas] returns five ideas per group, group by group
    in the order of the groups; each idea targets the first three
    keywords of its group, estimates 1200 to 2000 words and has one of
    the three difficulty levels. *)
Theorem generate_ideas_spec (groups : list Group) :
  length (PostIdeaGenerator.generate_ideas groups) = 5 * length groups
  /\ map PostIdea.group_id (PostIdeaGenerator.generate_ideas groups)
     = concat (map (fun g => replicate 5 (KeywordGrouper.id g)) groups)
  /\ Forall (fun idea =>
               exists g, g ∈ groups
                 /\ PostIdea.group_id idea = KeywordGrouper.id g
                 /\ PostIdea.target_keywords idea = take 3 (keywords g)
                 /\ 1200 <= PostIdea.estimated_word_count idea <= 2000
                 /\ PostIdea.difficulty idea ∈ ["Hard"; "Medium"; "Easy"])
       (PostIdeaGenerator.generate_ideas groups).
Proof.
  unfold PostIdeaGenerator.generate_ideas.
  induction groups as [| g groups (Hlen & Hids & Hall)].
  { repeat split; constructor. }
  destruct (group_ideas_spec g) as (Hl & Hg & _).
  cbn [map concat length].
  split; [| split].
  - rewrite length_app, Hl, Hlen. lia.
  - rewrite map_app, Hids. f_equal.
  - apply Forall_app. split.
    + eapply Forall_impl; [exact Hg |].
      intros idea (H1 & H2 & H3 & H4). exists g. repeat split; auto.
      * by left.
      * lia.
      * lia.
    + eapply Forall_impl; [exact Hall |].
      intros idea (g' & Hin & H). exists g'. split; [by right | exact H].
Qed.


(** ** A run without failures *)


Lemma held_after_delete batch_id w w' :
  cache_answers w = true ->
  cache w' = snd (CacheManager.delete (lock_key batch_id) (cache w)) ->
  lock_held batch_id w' = false.
Proof.
  unfold cache_answers, lock_held, CacheManager.delete, Redis.delete.
  intros Hanswers ->.
  destruct (CacheManager.client (cache w)) as [r |] eqn:Hclient; simpl;
    [| by rewrite Hclient].
  rewrite Hanswers. simpl. unfold Redis.live. simpl.
  by rewrite lookup_delete_eq.
Qed.

Section Run.
Context {Embeddings : Type} (max_groups_per_batch : Z)
  (model : option (list string -> option Embeddings))
  (fit_predict : nat -> Embeddings -> option (list nat))
  (db_fault : nat -> bool) (new_id : DatabaseManager.t -> string)
  (slack_fault : string -> Message -> bool)
  (generate_outline : list string -> option Outline.t)
  (generate_ideas : list Group -> option (list PostIdea.t))
  (generate_report : string -> list Group -> list PostIdea.t -> option Report).

Lemma bind_step {A B} (m : M A) (k : A -> M B) w a w1 :
  m w = (Ok a, w1) -> bind m k w = k a w1.
Proof. unfold bind. by intros ->. Qed.

Lemma post_step channel m w :
  slack_fault channel m = false ->
  chat_postMessage slack_fault channel m w
  = (Ok tt, mkWorld (db w) (cache w) (sent w ++ [(channel, m)]) (tasks w)).
Proof. unfold chat_postMessage. by intros ->. Qed.

Lemma update_step batch_id status completed_at row w :
  db_fault (DatabaseManager.calls (db w)) = false ->
  DatabaseManager.keyword_batches (db w) !! batch_id = Some row ->
  exists row',
    Batch.status row' = status
    /\ on_db_raising
         (DatabaseManager.update_keyword_batch db_fault batch_id status
            completed_at) w
       = (Ok row',
          mkWorld
            (DatabaseManager.mk
               (<[batch_id := row']> (DatabaseManager.keyword_batches (db w)))
               (DatabaseManager.keyword_groups (db w))
               (DatabaseManager.outlines (db w))
               (S (DatabaseManager.calls (db w))))
            (cache w) (sent w) (tasks w)).
Proof.
  intros Hstore Hrow.
  unfold on_db_raising, DatabaseManager.update_keyword_batch.
  rewrite Hstore, Hrow. eexists. split; [| reflexivity]. reflexivity.
Qed.

Lemma store_groups_run (batch_id : string) (groups : list Group) (w : World) :
  (forall n, db_fault n = false) ->
  exists rows,
    map row_content rows = map (group_content batch_id) groups
    /\ for_each groups
         (fun group =>
            bind (on_db_raising
                    (DatabaseManager.create_keyword_group db_fault new_id batch_id
                       (keywords group) (name group) (score group)))
              (fun _ => ret tt)) w
       = (Ok tt,
          mkWorld
            (DatabaseManager.mk (DatabaseManager.keyword_batches (db w))
               (DatabaseManager.keyword_groups (db w) ++ rows)
               (DatabaseManager.outlines (db w))
               (DatabaseManager.calls (db w) + length groups))
            (cache w) (sent w) (tasks w)).
Proof.
  intros Hstore. revert w.
  induction groups as [| g groups IH]; intros w.
  - exists []. split; [reflexivity |]. simpl. unfold ret.
    rewrite app_nil_r, Nat.add_0_r. by destruct w as [[] ? ? ?].
  - cbn [for_each].
    set (row := GroupRow.mk (new_id (db w)) batch_id (keywords g) (name g)
                  (score g)).
    set (w1 := mkWorld
                 (DatabaseManager.mk (DatabaseManager.keyword_batches (db w))
                    (DatabaseManager.keyword_groups (db w) ++ [row])
                    (DatabaseManager.outlines (db w))
                    (S (DatabaseManager.calls (db w))))
                 (cache w) (sent w) (tasks w)).
    destruct (IH w1) as (rows & Hc & Hrun).
    exists (row :: rows). split.
    + cbn [map]. by rewrite Hc.
    + rewrite (bind_step _ _ w tt w1).
      * rewrite Hrun. unfold w1. cbn [db cache sent tasks
          DatabaseManager.keyword_batches DatabaseManager.keyword_groups
          DatabaseManager.outlines DatabaseManager.calls length].
        rewrite <- app_assoc, Nat.add_succ_r. reflexivity.
      * unfold bind, on_db_raising, DatabaseManager.create_keyword_group.
        rewrite Hstore. reflexivity.
Qed.

Lemma store_outlines_run (outline_of : list string -> Outline.t)
  (groups : list Group) (w : World) :
  (forall n, db_fault n = false) ->
  (forall keywords, generate_outline keywords = Some (outline_of keywords)) ->
  for_each groups
    (fun group =>
       bind (call "outline" (generate_outline (keywords group)))
         (fun outline =>
            bind (on_db_raising
                    (DatabaseManager.create_outline db_fault
                       (KeywordGrouper.id group) outline))
              (fun _ => ret tt))) w
  = (Ok tt,
     mkWorld
       (DatabaseManager.mk (DatabaseManager.keyword_batches (db w))
          (DatabaseManager.keyword_groups (db w))
          (DatabaseManager.outlines (db w)
           ++ map (fun group =>
                     OutlineRow.mk (KeywordGrouper.id group)
                       (outline_of (keywords group))) groups)
          (DatabaseManager.calls (db w) + length groups))
       (cache w) (sent w) (tasks w)).
Proof.
  intros Hstore Houtline. revert w.
  induction groups as [| g groups IH]; intros w.
  - simpl. unfold ret. rewrite app_nil_r, Nat.add_0_r.
    by destruct w as [[] ? ? ?].
  - cbn [for_each].
    set (row := OutlineRow.mk (KeywordGrouper.id g) (outline_of (keywords g))).
    set (w1 := mkWorld
                 (DatabaseManager.mk (DatabaseManager.keyword_batches (db w))
                    (DatabaseManager.keyword_groups (db w))
                    (DatabaseManager.outlines (db w) ++ [row])
                    (S (DatabaseManager.calls (db w))))
                 (cache w) (sent w) (tasks w)).
    rewrite (bind_step _ _ w tt w1).
    + rewrite IH. unfold w1. cbn [db cache sent tasks
        DatabaseManager.keyword_batches DatabaseManager.keyword_groups
        DatabaseManager.outlines DatabaseManager.calls length map].
      rewrite <- app_assoc, Nat.add_succ_r. reflexivity.
    + unfold bind. rewrite Houtline. cbn [call ret].
      unfold on_db_raising, DatabaseManager.create_outline.
      rewrite Hstore. reflexivity.
Qed.

(** X21. When the store, Slack, the cache and the generators all answer
    and the batch has a row, a background run returns normally, leaves
    the batch [completed] and its lock deleted (the server no longer
    holds the key), appends one group row per group
    and one outline per group (filed under the group's own identifier),
    posts the four progress messages and the completion message (and the
    e-mail notice when the report was mailed), makes two store requests
    plus two per group, and creates no task. *)
Theorem fault_free_run_completes (batch row : Batch.t) (channel : string)
  (w : World) (outline_of : list string -> Outline.t)
  (post_ideas : list PostIdea.t) (report : Report)
  (Hstore : forall n, db_fault n = false)
  (Hslack : forall m, slack_fault channel m = false)
  (Hrow : DatabaseManager.keyword_batches (db w) !! Batch.id batch = Some row)
  (Houtline : forall keywords,
      generate_outline keywords = Some (outline_of keywords))
  (Hideas : generate_ideas
              (group_keywords max_groups_per_batch model fit_predict
                 (Batch.keywords batch)) = Some post_ideas)
  (Hreport : generate_report (Batch.id batch)
               (group_keywords max_groups_per_batch model fit_predict
                  (Batch.keywords batch)) post_ideas = Some report)
  (Hcache : cache_answers w = true) :
  let groups :=
    group_keywords max_groups_per_batch model fit_predict
      (Batch.keywords batch) in
  let run :=
    _process_batch_background max_groups_per_batch model fit_predict db_fault
      new_id slack_fault generate_outline generate_ideas generate_report
      batch channel w in
  let w' := snd run in
  fst run = Ok tt
  /\ persisted_status (Batch.id batch) w' = Some "completed"
  /\ lock_exists (Batch.id batch) w' = false
  /\ tasks w' = tasks w
  /\ lock_held (Batch.id batch) w' = false
  /\ (exists rows,
        DatabaseManager.keyword_groups (db w')
        = DatabaseManager.keyword_groups (db w) ++ rows
        /\ map row_content rows = map (group_content (Batch.id batch)) groups)
  /\ DatabaseManager.outlines (db w')
     = DatabaseManager.outlines (db w)
       ++ map (fun group =>
                 OutlineRow.mk (KeywordGrouper.id group)
                   (outline_of (keywords group))) groups
  /\ sent w'
     = sent w
       ++ map (pair channel)
            ([format_processing_step "Grouping keywords" 1 4;
              format_processing_step "Generating outlines" 2 4;
              format_processing_step "Generating post ideas" 3 4;
              format_processing_step "Generating report" 4 4;
              format_processing_completed (Batch.id batch) (length groups)
                (length post_ideas) (download_url report)]
             ++ (if email_sent report then [format_email_sent] else []))
  /\ DatabaseManager.calls (db w')
     = DatabaseManager.calls (db w) + 2 + 2 * length groups.
Proof.
  intros groups run w'. subst w' run.
  unfold _process_batch_background, try_except, pipeline.
  fold groups. fold groups in Hideas, Hreport. clearbody groups.
  destruct (update_step (Batch.id batch) "processing" None row w
              (Hstore _) Hrow) as (row1 & _ & Hupdate1).
  rewrite (bind_step _ _ _ _ _ Hupdate1).
  rewrite (bind_step _ _ _ _ _ (post_step _ _ _ (Hslack _))).
  match goal with
  | |- context [bind (for_each groups ?f) _ ?w1] =>
      destruct (store_groups_run (Batch.id batch) groups w1 Hstore)
        as (rows & Hcontent & Hrun)
  end.
  rewrite (bind_step _ _ _ _ _ Hrun). clear Hrun.
  rewrite (bind_step _ _ _ _ _ (post_step _ _ _ (Hslack _))).
  rewrite (bind_step _ _ _ _ _
             (store_outlines_run outline_of groups _ Hstore Houtline)).
  rewrite (bind_step _ _ _ _ _ (post_step _ _ _ (Hslack _))).
  rewrite Hideas. cbn [call].
  rewrite (bind_step (ret post_ideas) _ _ post_ideas _ eq_refl).
  rewrite (bind_step _ _ _ _ _ (post_step _ _ _ (Hslack _))).
  rewrite Hreport. cbn [call].
  rewrite (bind_step (ret report) _ _ report _ eq_refl).
  cbn [db cache sent tasks DatabaseManager.keyword_batches
       DatabaseManager.keyword_groups DatabaseManager.outlines
       DatabaseManager.calls].
  match goal with
  | |- context [bind (on_db_raising _) _ ?w1] =>
      destruct (update_step (Batch.id batch) "completed" (Some "now()") row1 w1
                  (Hstore _) (lookup_insert_eq _ _ _))
        as (row2 & Hstatus & Hupdate2)
  end.
  rewrite (bind_step _ _ _ _ _ Hupdate2).
  rewrite (bind_step _ _ _ _ _ (post_step _ _ _ (Hslack _))).
  cbn [db cache sent tasks DatabaseManager.keyword_batches
       DatabaseManager.keyword_groups DatabaseManager.outlines
       DatabaseManager.calls].
  pose proof (exists_after_delete (lock_key (Batch.id batch)) (cache w))
    as Hlock.
  assert (Hend : forall w0 : World,
             cache w0 = cache w ->
             bind (on_cache (CacheManager.delete (lock_key (Batch.id batch))))
               (fun _ => ret tt) w0
             = (Ok tt,
                mkWorld (db w0)
                  (snd (CacheManager.delete (lock_key (Batch.id batch))
                          (cache w)))
                  (sent w0) (tasks w0))).
  { intros w0 Hw0. unfold bind, on_cache, ret. rewrite Hw0.
    by destruct (CacheManager.delete _ (cache w)). }
  destruct (email_sent report).
  - rewrite (bind_step _ _ _ _ _ (post_step _ _ _ (Hslack _))).
    rewrite Hend by reflexivity.
    unfold persisted_status, lock_exists.
    cbn [fst snd db cache sent tasks DatabaseManager.keyword_batches
         DatabaseManager.keyword_groups DatabaseManager.outlines
         DatabaseManager.calls].
    rewrite lookup_insert_eq, Hlock. cbn [fmap option_fmap option_map].
    rewrite Hstatus.
    repeat split.
    + by apply (held_after_delete (Batch.id batch) w).
    + exists rows. split; [reflexivity | exact Hcontent].
    + rewrite <- !app_assoc. reflexivity.
    + lia.
  - rewrite (bind_step (ret tt) _ _ tt _ eq_refl).
    rewrite Hend by reflexivity.
    unfold persisted_status, lock_exists.
    cbn [fst snd db cache sent tasks DatabaseManager.keyword_batches
         DatabaseManager.keyword_groups DatabaseManager.outlines
         DatabaseManager.calls].
    rewrite lookup_insert_eq, Hlock. cbn [fmap option_fmap option_map].
    rewrite Hstatus.
    repeat split.
    + by apply (held_after_delete (Batch.id batch) w).
    + exists rows. split; [reflexivity | exact Hcontent].
    + rewrite <- !app_assoc. reflexivity.
    + lia.
Qed.

End Run.


(** ** What a handler leaves alone *)

Section Keeps.
Context (R : World -> World -> Prop)
  (R_refl : forall w, R w w)
  (R_trans : forall w1 w2 w3, R w1 w2 -> R w2 w3 -> R w1 w3).

Lemma keeps_ret {A} (a : A) : keeps R (ret a).
Proof. intros w. apply R_refl. Qed.

Lemma keeps_raise {A} e : keeps R (@raise A e).
Proof. intros w. apply R_refl. Qed.

Lemma keeps_call {A} e (r : option A) : keeps R (call e r).
Proof. destruct r; [apply keeps_ret | apply keeps_raise]. Qed.

Lemma keeps_bind {A B} (m : M A) (k : A -> M B) :
  keeps R m -> (forall a, keeps R (k a)) -> keeps R (bind m k).
Proof.
  intros Hm Hk w. unfold bind. specialize (Hm w).
  destruct (m w) as [[a | e] w1]; simpl in *; [| exact Hm].
  eapply R_trans; [exact Hm | apply Hk].
Qed.

Lemma keeps_try_except {A} (body : M A) (handler : string -> M A) :
  keeps R body -> (forall e, keeps R (handler e)) ->
  keeps R (try_except body handler).
Proof.
  intros Hm Hk w. unfold try_except. specialize (Hm w).
  destruct (body w) as [[a | e] w1]; simpl in *; [exact Hm |].
  eapply R_trans; [exact Hm | apply Hk].
Qed.

Lemma keeps_for_each {A} (l : list A) (body : A -> M unit) :
  (forall a, keeps R (body a)) -> keeps R (for_each l body).
Proof.
  intros Hbody. induction l as [| a l IH]; simpl.
  - apply keeps_ret.
  - apply keeps_bind; [apply Hbody | intros _; exact IH].
Qed.

End Keeps.

(** One step through a handler whose parts keep [R]. *)
Ltac keeps_step refl trans :=
  first
    [ apply (keeps_ret _ refl)
    | apply (keeps_call _ refl)
    | apply (keeps_for_each _ refl trans); intros ?
    | apply (keeps_try_except _ trans); [| intros ?]
    | apply (keeps_bind _ trans); [| intros ?]
    | match goal with
      | |- keeps _ (if ?b then _ else _) => destruct b
      | |- keeps _ (match ?x with Some _ => _ | None => _ end) => destruct x
      | |- keeps _ (match ?x with [] => _ | _ :: _ => _ end) => destruct x
      end ].

Lemma regenerate_frame_refl w : regenerate_frame w w.
Proof. by repeat split. Qed.

Lemma regenerate_frame_trans w1 w2 w3 :
  regenerate_frame w1 w2 -> regenerate_frame w2 w3 -> regenerate_frame w1 w3.
Proof.
  intros (H1 & H2 & H3 & H4 & H5 & H6) (K1 & K2 & K3 & K4 & K5 & K6).
  repeat split; try congruence. by etransitivity.
Qed.

Lemma delete_idemp_cache key c :
  snd (CacheManager.delete key (snd (CacheManager.delete key c)))
  = snd (CacheManager.delete key c).
Proof.
  destruct c as [[[u t st] |]]; [| reflexivity].
  unfold CacheManager.delete, Redis.delete. simpl.
  destruct u; simpl; [| reflexivity].
  by rewrite delete_delete_eq.
Qed.

Lemma run_frame_refl batch_id channel w : run_frame batch_id channel w w.
Proof.
  repeat split; auto.
  exists []. by rewrite app_nil_r.
Qed.

Lemma run_frame_trans batch_id channel w1 w2 w3 :
  run_frame batch_id channel w1 w2 -> run_frame batch_id channel w2 w3 ->
  run_frame batch_id channel w1 w3.
Proof.
  intros (H1 & H2 & H3 & H4 & H5 & H6 & (p & H7 & H8))
    (K1 & K2 & K3 & K4 & K5 & K6 & (q & K7 & K8)).
  split; [congruence |]. split.
  { destruct H2 as [H2 | H2], K2 as [K2 | K2]; rewrite K2, H2; auto.
    right. apply delete_idemp_cache. }
  split; [intros other Hne; by rewrite K3, H3 |].
  split; [intros other; by rewrite K4, H4 |].
  split; [by etransitivity |]. split; [by etransitivity |].
  exists (p ++ q). split; [by rewrite K7, H7, app_assoc |].
  by apply Forall_app.
Qed.

Lemma rewritten_rows_keep_ids group_id outline (rows : list OutlineRow.t) :
  map OutlineRow.group_id
    (map (fun r =>
            if bool_decide (OutlineRow.group_id r = group_id)
            then OutlineRow.mk group_id outline else r) rows)
  = map OutlineRow.group_id rows.
Proof.
  induction rows as [| r l IH]; [reflexivity |].
  cbn [map]. rewrite IH. f_equal. by case_bool_decide.
Qed.

Section Frames.
Context {Embeddings : Type} (max_groups_per_batch : Z)
  (model : option (list string -> option Embeddings))
  (fit_predict : nat -> Embeddings -> option (list nat))
  (db_fault : nat -> bool) (new_id : DatabaseManager.t -> string)
  (slack_fault : string -> Message -> bool)
  (generate_outline : list string -> option Outline.t)
  (generate_ideas : list Group -> option (list PostIdea.t))
  (generate_report : string -> list Group -> list PostIdea.t -> option Report).

Lemma regenerate_post channel m :
  keeps regenerate_frame (chat_postMessage slack_fault channel m).
Proof.
  intros w. unfold chat_postMessage.
  destruct (slack_fault channel m); simpl; [apply regenerate_frame_refl |].
  repeat split. by apply prefix_app_r.
Qed.

Lemma regenerate_get_batch batch_id :
  keeps regenerate_frame
    (on_db (DatabaseManager.get_keyword_batch db_fault batch_id)).
Proof.
  intros w. unfold on_db, DatabaseManager.get_keyword_batch.
  destruct (db_fault _); by repeat split.
Qed.

Lemma regenerate_get_groups batch_id :
  keeps regenerate_frame
    (on_db (DatabaseManager.get_keyword_groups_by_batch db_fault batch_id)).
Proof.
  intros w. unfold on_db, DatabaseManager.get_keyword_groups_by_batch.
  destruct (db_fault _); by repeat split.
Qed.

Lemma regenerate_update_outline group_id outline :
  keeps regenerate_frame
    (on_db_raising (DatabaseManager.update_outline db_fault group_id outline)).
Proof.
  intros w. unfold on_db_raising, DatabaseManager.update_outline.
  destruct (db_fault _); [by repeat split |].
  destruct (filter _ _); [by repeat split |].
  simpl. repeat split; try reflexivity.
  apply rewritten_rows_keep_ids.
Qed.

(** X22. Whatever fails, a regenerate request changes nothing but the
    data of existing outlines, the store's request count and the
    messages posted: cache, tasks, batch rows, group rows and the
    outlines' group identifiers are as before, and no message is taken
    back. *)
Theorem regenerate_rewrites_outlines_only (command : Command) (w : World) :
  let w' := snd (handle_regenerate_command db_fault slack_fault
                   generate_outline command w) in
  cache w' = cache w
  /\ tasks w' = tasks w
  /\ DatabaseManager.keyword_batches (db w')
     = DatabaseManager.keyword_batches (db w)
  /\ DatabaseManager.keyword_groups (db w')
     = DatabaseManager.keyword_groups (db w)
  /\ map OutlineRow.group_id (DatabaseManager.outlines (db w'))
     = map OutlineRow.group_id (DatabaseManager.outlines (db w))
  /\ sent w `prefix_of` sent w'.
Proof.
  cbv zeta. revert w.
  change (keeps regenerate_frame
            (handle_regenerate_command db_fault slack_fault generate_outline
               command)).
  unfold handle_regenerate_command, _regenerate_outlines, _send_error_message.
  repeat first
    [ apply regenerate_post | apply regenerate_get_batch
    | apply regenerate_get_groups | apply regenerate_update_outline
    | keeps_step regenerate_frame_refl regenerate_frame_trans ].
Qed.

Lemma run_post batch_id channel m :
  keeps (run_frame batch_id channel) (chat_postMessage slack_fault channel m).
Proof.
  intros w. unfold chat_postMessage.
  destruct (slack_fault channel m); simpl; [apply run_frame_refl |].
  repeat split; auto. exists [(channel, m)]. split; [reflexivity |].
  by repeat constructor.
Qed.

Lemma run_frame_request batch_id channel w :
  run_frame batch_id channel w
    (mkWorld (DatabaseManager.request (db w)) (cache w) (sent w) (tasks w)).
Proof.
  repeat split; auto. exists []. by rewrite app_nil_r.
Qed.

Lemma run_update batch_id channel status completed_at :
  keeps (run_frame batch_id channel)
    (on_db_raising
       (DatabaseManager.update_keyword_batch db_fault batch_id status
          completed_at)).
Proof.
  intros w. unfold on_db_raising, DatabaseManager.update_keyword_batch.
  destruct (db_fault _); [apply run_frame_request |].
  destruct (DatabaseManager.keyword_batches (db w) !! batch_id) as [b |] eqn:Hrow;
    [| apply run_frame_request].
  unfold run_frame. simpl. split; [reflexivity |]. split; [by left |].
  split; [intros other Hne; by rewrite lookup_insert_ne |].
  split.
  { intros other. destruct (decide (other = batch_id)) as [-> | Hne].
    - rewrite lookup_insert_eq, Hrow. split; eauto.
    - by rewrite lookup_insert_ne. }
  split; [reflexivity |]. split; [reflexivity |].
  exists []. by rewrite app_nil_r.
Qed.

Lemma run_delete batch_id channel :
  keeps (run_frame batch_id channel)
    (on_cache (CacheManager.delete (lock_key batch_id))).
Proof.
  intros w. unfold on_cache.
  destruct (CacheManager.delete (lock_key batch_id) (cache w)) as [a c] eqn:E.
  unfold run_frame. simpl. split; [reflexivity |].
  split; [right; by rewrite E |].
  repeat split; auto. exists []. by rewrite app_nil_r.
Qed.

Lemma run_create_group batch_id channel keywords name score :
  keeps (run_frame batch_id channel)
    (on_db_raising
       (DatabaseManager.create_keyword_group db_fault new_id batch_id keywords
          name score)).
Proof.
  intros w. unfold on_db_raising, DatabaseManager.create_keyword_group.
  destruct (db_fault _); [apply run_frame_request |].
  unfold run_frame. simpl. split; [reflexivity |]. split; [by left |].
  split; [done |]. split; [done |].
  split; [by apply prefix_app_r |]. split; [reflexivity |].
  exists []. by rewrite app_nil_r.
Qed.

Lemma run_create_outline batch_id channel group_id outline :
  keeps (run_frame batch_id channel)
    (on_db_raising (DatabaseManager.create_outline db_fault group_id outline)).
Proof.
  intros w. unfold on_db_raising, DatabaseManager.create_outline.
  destruct (db_fault _); [apply run_frame_request |].
  unfold run_frame. simpl. split; [reflexivity |]. split; [by left |].
  split; [done |]. split; [done |].
  split; [reflexivity |]. split; [by apply prefix_app_r |].
  exists []. by rewrite app_nil_r.
Qed.

Lemma run_keeps_frame (batch : Batch.t) (channel : string) :
  keeps (run_frame (Batch.id batch) channel)
    (_process_batch_background max_groups_per_batch model fit_predict
       db_fault new_id slack_fault generate_outline generate_ideas
       generate_report batch channel).
Proof.
  unfold _process_batch_background, pipeline, on_failure.
  repeat first
    [ apply run_post | apply run_update | apply run_delete
    | apply run_create_group | apply run_create_outline
    | keeps_step (run_frame_refl (Batch.id batch) channel)
        (run_frame_trans (Batch.id batch) channel) ].
Qed.

(** X23. Whatever fails, a background run creates no task, changes no
    batch row but its own and creates or removes none, changes the cache
    at most by deleting its own lock key, only appends to the group and
    outline tables, and posts to its own channel only. *)
Theorem run_touches_its_own_batch_only (batch : Batch.t) (channel : string)
  (w : World) :
  let w' :=
    snd (_process_batch_background max_groups_per_batch model fit_predict
           db_fault new_id slack_fault generate_outline generate_ideas
           generate_report batch channel w) in
  tasks w' = tasks w
  /\ (cache w' = cache w
      \/ cache w'
         = snd (CacheManager.delete (lock_key (Batch.id batch)) (cache w)))
  /\ (forall other,
        other <> Batch.id batch ->
        DatabaseManager.keyword_batches (db w') !! other
        = DatabaseManager.keyword_batches (db w) !! other)
  /\ (forall other,
        is_Some (DatabaseManager.keyword_batches (db w') !! other)
        <-> is_Some (DatabaseManager.keyword_batches (db w) !! other))
  /\ DatabaseManager.keyword_groups (db w)
     `prefix_of` DatabaseManager.keyword_groups (db w')
  /\ DatabaseManager.outlines (db w)
     `prefix_of` DatabaseManager.outlines (db w')
  /\ (exists posted,
        sent w' = sent w ++ posted /\ Forall (fun m => fst m = channel) posted).
Proof. exact (run_keeps_frame batch channel w). Qed.



End Frames.

(** ** The further properties on the concrete deployment *)

Lemma keyword_stats_spec_witness :
  Scenario.keywords12 <> []
  /\ total_count (get_keyword_stats Scenario.keywords12) = 12
  /\ shortest (get_keyword_stats Scenario.keywords12) ∈ Scenario.keywords12
  /\ longest (get_keyword_stats Scenario.keywords12) ∈ Scenario.keywords12.
Proof.
  assert (Hne : Scenario.keywords12 <> []) by discriminate.
  split; [exact Hne |].
  pose proof (keyword_stats_spec Scenario.keywords12 Hne) as H.
  cbv zeta in H. destruct H as (Htotal & (Hshort & _) & (Hlong & _) & _).
  split; [exact Htotal | split; [exact Hshort | exact Hlong]].
Defined.

Lemma cache_counter_round_trip_witness :
  CacheManager.client (cache Scenario.world_fresh) = Some Scenario.redis_empty
  /\ Redis.up Scenario.redis_empty = true
  /\ 0 < 900
  /\ Redis.int64 1 = true
  /\ fst (CacheManager.get "rate_limit:alice"
            (CacheManager.advance 900
               (snd (CacheManager.set "rate_limit:alice" (VInt 1) 900
                       (cache Scenario.world_fresh)))))
     = Some (VInt 1)
  /\ fst (CacheManager.get "rate_limit:alice"
            (CacheManager.advance 901
               (snd (CacheManager.set "rate_limit:alice" (VInt 1) 900
                       (cache Scenario.world_fresh)))))
     = None
  /\ fst (CacheManager.increment "rate_limit:alice" 1
            (snd (CacheManager.set "rate_limit:alice" (VInt 1) 900
                    (cache Scenario.world_fresh))))
     = 2%Z.
Proof.
  assert (Httl : 0 < 900) by lia.
  split; [reflexivity | split; [reflexivity | split; [exact Httl |]]].
  split; [reflexivity |].
  pose proof (cache_counter_round_trip "rate_limit:alice" 1 1 900 900
                (cache Scenario.world_fresh) Scenario.redis_empty
                eq_refl eq_refl Httl eq_refl eq_refl) as Hsoon.
  pose proof (cache_counter_round_trip "rate_limit:alice" 1 1 900 901
                (cache Scenario.world_fresh) Scenario.redis_empty
                eq_refl eq_refl Httl eq_refl eq_refl) as Hlate.
  cbv zeta in Hsoon, Hlate.
  destruct Hsoon as (_ & Hsoon & _ & Hsum & _).
  destruct Hlate as (_ & Hlate & _).
  split; [exact Hsoon | split; [exact Hlate |]].
  exact (proj1 (Hsum eq_refl)).
Defined.

Lemma processing_lock_exclusive_witness :
  CacheManager.client (cache Scenario.world_fresh) = Some Scenario.redis_empty
  /\ Redis.up Scenario.redis_empty = true
  /\ Redis.live Scenario.redis_empty (CacheManager.processing_lock_key "b1")
     = None
  /\ 0 < 300
  /\ fst (CacheManager.set_processing_lock "b1" 300
            (cache Scenario.world_fresh)) = true
  /\ fst (CacheManager.set_processing_lock "b1" 300
            (CacheManager.advance 300
               (snd (CacheManager.set_processing_lock "b1" 300
                       (cache Scenario.world_fresh)))))
     = false
  /\ fst (CacheManager.set_processing_lock "b1" 300
            (CacheManager.advance 301
               (snd (CacheManager.set_processing_lock "b1" 300
                       (cache Scenario.world_fresh)))))
     = true.
Proof.
  assert (Hfree : Redis.live Scenario.redis_empty
                    (CacheManager.processing_lock_key "b1") = None)
    by reflexivity.
  assert (Httl : 0 < 300) by lia.
  split; [reflexivity | split; [reflexivity | split; [exact Hfree |]]].
  split; [exact Httl |].
  pose proof (processing_lock_exclusive "b1" 300 300 300
                (cache Scenario.world_fresh) Scenario.redis_empty
                eq_refl eq_refl Hfree Httl Httl) as H.
  pose proof (processing_lock_exclusive "b1" 300 300 301
                (cache Scenario.world_fresh) Scenario.redis_empty
                eq_refl eq_refl Hfree Httl Httl) as Hlate.
  cbv zeta in H, Hlate.
  destruct H as (Hfirst & Hsecond & _). destruct Hlate as (_ & _ & Hlate & _).
  split; [exact Hfirst |]. split.
  - rewrite Hsecond by lia. reflexivity.
  - apply Hlate. lia.
Defined.

Lemma update_then_get_witness :
  DatabaseManager.keyword_batches Scenario.store !! "b1" = Some Scenario.batch
  /\ Scenario.store_up (DatabaseManager.calls Scenario.store) = false
  /\ Scenario.store_up (S (DatabaseManager.calls Scenario.store)) = false
  /\ exists row,
       fst (DatabaseManager.get_keyword_batch Scenario.store_up "b1"
              (snd (DatabaseManager.update_keyword_batch Scenario.store_up "b1"
                      "processing" None Scenario.store)))
       = Some row
       /\ Batch.status row = "processing"
       /\ Batch.keywords row = Scenario.keywords12.
Proof.
  assert (Hrow : DatabaseManager.keyword_batches Scenario.store !! "b1"
                 = Some Scenario.batch) by reflexivity.
  split; [exact Hrow | split; [reflexivity | split; [reflexivity |]]].
  pose proof (update_then_get Scenario.store_up "b1" "processing" None
                Scenario.store Scenario.batch Hrow eq_refl eq_refl) as H.
  cbv zeta in H. destruct H as (row & _ & Hget & Hstatus & Hkept & _).
  exists row. split; [exact Hget | split; [exact Hstatus |]].
  by injection Hkept.
Defined.

Lemma update_missing_batch_witness :
  DatabaseManager.keyword_batches Scenario.empty_store !! "b1" = None
  /\ (exists e,
        fst (DatabaseManager.update_keyword_batch Scenario.store_up "b1"
               "processing" None Scenario.empty_store) = Raise e)
  /\ DatabaseManager.keyword_batches
       (snd (DatabaseManager.update_keyword_batch Scenario.store_up "b1"
               "processing" None Scenario.empty_store))
     = DatabaseManager.keyword_batches Scenario.empty_store.
Proof.
  assert (Hrow : DatabaseManager.keyword_batches Scenario.empty_store !! "b1"
                 = None) by reflexivity.
  split; [exact Hrow |].
  pose proof (update_missing_batch Scenario.store_up "b1" "processing" None
                Scenario.empty_store Hrow) as H.
  cbv zeta in H. destruct H as (Hraise & Hkept & _).
  split; [exact Hraise | exact Hkept].
Defined.

Lemma rate_limit_per_user_witness :
  "bob" <> "alice"
  /\ fst (_check_rate_limit "bob"
            (snd (_check_rate_limit "alice" Scenario.world_fresh)))
     = fst (_check_rate_limit "bob" Scenario.world_fresh).
Proof.
  assert (Hother : "bob" <> "alice") by discriminate.
  split; [exact Hother |].
  pose proof (rate_limit_per_user "alice" "bob" Scenario.world_fresh Hother)
    as H.
  cbv zeta in H. destruct H as (H & _). exact H.
Defined.

Lemma foreign_request_starts_nothing_witness :
  (forall batch,
      DatabaseManager.keyword_batches (db Scenario.world_fresh)
        !! Py.strip (CommandHandler.text Scenario.command_of_bob)
      = Some batch ->
      Batch.user_id batch <> user_id Scenario.command_of_bob)
  /\ cache (snd (handle_process_command Scenario.store_up Scenario.slack_up
                   Scenario.command_of_bob Scenario.world_fresh))
     = cache Scenario.world_fresh
  /\ tasks (snd (handle_process_command Scenario.store_up Scenario.slack_up
                   Scenario.command_of_bob Scenario.world_fresh))
     = [].
Proof.
  assert (Hrow : DatabaseManager.keyword_batches (db Scenario.world_fresh)
                   !! Py.strip (CommandHandler.text Scenario.command_of_bob)
                 = Some Scenario.batch) by (vm_compute; reflexivity).
  assert (Hforeign : forall batch,
             DatabaseManager.keyword_batches (db Scenario.world_fresh)
               !! Py.strip (CommandHandler.text Scenario.command_of_bob)
             = Some batch ->
             Batch.user_id batch <> user_id Scenario.command_of_bob).
  { intros batch H. rewrite Hrow in H. injection H as <-. discriminate. }
  split; [exact Hforeign |].
  pose proof (foreign_request_starts_nothing Scenario.store_up
                Scenario.slack_up Scenario.command_of_bob
                Scenario.world_fresh Hforeign) as H.
  cbv zeta in H. destruct H as (Hcache & Htasks & _).
  split; [exact Hcache | exact Htasks].
Defined.

Lemma second_request_waits_for_the_lock_witness :
  Redis.live Scenario.redis_empty (lock_key "b1") = None
  /\ tasks (snd (handle_process_command Scenario.store_up Scenario.slack_up
                   command_of_alice_for_b1 Scenario.world_fresh))
     = [(Scenario.batch, "C042")]
  /\ lock_held "b1"
       (advance 1800
          (snd (handle_process_command Scenario.store_up Scenario.slack_up
                  command_of_alice_for_b1 Scenario.world_fresh)))
     = true
  /\ tasks (snd (handle_process_command Scenario.store_up Scenario.slack_up
                   command_of_alice_for_b1
                   (advance 60
                      (snd (handle_process_command Scenario.store_up
                              Scenario.slack_up command_of_alice_for_b1
                              Scenario.world_fresh)))))
     = [(Scenario.batch, "C042")]
  /\ length
       (tasks (snd (handle_process_command Scenario.store_up Scenario.slack_up
                      command_of_alice_for_b1
                      (advance 60
                         (snd (_process_batch_background 20 Scenario.no_model
                                 Scenario.kmeans Scenario.store_up
                                 Scenario.new_id Scenario.slack_up
                                 Scenario.outlines_up Scenario.ideas
                                 Scenario.report Scenario.batch "C042"
                                 (snd (handle_process_command Scenario.store_up
                                         Scenario.slack_up
                                         command_of_alice_for_b1
                                         Scenario.world_fresh))))))))
     = 2.
Proof.
  assert (Hfree : Redis.live Scenario.redis_empty
                    (lock_key (Batch.id Scenario.batch)) = None)
    by reflexivity.
  split; [exact Hfree |].
  assert (Hid : Py.strip (CommandHandler.text command_of_alice_for_b1)
                = Batch.id Scenario.batch) by (vm_compute; reflexivity).
  assert (Hne : Batch.id Scenario.batch <> "") by discriminate.
  assert (Hrow : DatabaseManager.keyword_batches (db Scenario.world_fresh)
                   !! Batch.id Scenario.batch = Some Scenario.batch)
    by reflexivity.
  pose proof (second_request_waits_for_the_lock Scenario.store_up
                Scenario.slack_up command_of_alice_for_b1
                Scenario.batch Scenario.world_fresh Scenario.redis_empty
                Hid Hne Hrow eq_refl (fun n => eq_refl) (fun m => eq_refl)
                eq_refl eq_refl Hfree) as H.
  cbv zeta in H. destruct H as ((Hfirst & _ & Hheld) & Hlater).
  split; [exact Hfirst |]. split; [exact (Hheld 1800) |].
  set (w1 := snd (handle_process_command Scenario.store_up Scenario.slack_up
                    command_of_alice_for_b1 Scenario.world_fresh)) in *.
  split.
  - destruct (Hlater (advance 60 w1) Scenario.batch) as [Hwaits _];
      [vm_compute; reflexivity | reflexivity | reflexivity
       | vm_compute; reflexivity |].
    destruct Hwaits as [Htasks _]; [exact (Hheld 60) |].
    rewrite Htasks. exact Hfirst.
  - set (w2 := advance 60 (snd (_process_batch_background _ _ _ _ _ _ _ _ _ _ _
                                  w1))).
    destruct (Hlater w2
                (Batch.mk "b1" "alice" Scenario.keywords12 12 "completed"
                   "text" (Some "now()")))
      as [_ Hagain];
      [vm_compute; reflexivity | reflexivity | reflexivity
       | vm_compute; reflexivity |].
    rewrite Hagain by (vm_compute; reflexivity).
    rewrite length_app. vm_compute. reflexivity.
Defined.

Lemma pasted_keywords_become_a_batch_witness :
  Scenario.store_up (DatabaseManager.calls (db Scenario.world_fresh)) = false
  /\ DatabaseManager.keyword_batches (db Scenario.world_fresh)
       !! Scenario.new_id (db Scenario.world_fresh) = None
  /\ DatabaseManager.keyword_batches
       (db (snd (_process_keywords_from_text Scenario.store_up Scenario.new_id
                   Scenario.slack_up "seo tips, seo guide" "alice" "C042"
                   Scenario.world_fresh)))
       !! Scenario.new_id (db Scenario.world_fresh)
     = Some (Batch.mk (Scenario.new_id (db Scenario.world_fresh)) "alice"
               ["seo tips"; "seo guide"] 2 "uploaded" "text" None).
Proof.
  assert (Hfresh : DatabaseManager.keyword_batches (db Scenario.world_fresh)
                     !! Scenario.new_id (db Scenario.world_fresh) = None)
    by (vm_compute; reflexivity).
  split; [reflexivity | split; [exact Hfresh |]].
  assert (Hparse : parse_keywords "seo tips, seo guide"
                   = ["seo tips"; "seo guide"]) by (vm_compute; reflexivity).
  pose proof (pasted_keywords_become_a_batch Scenario.store_up Scenario.new_id
                Scenario.slack_up "seo tips, seo guide" "alice" "C042"
                Scenario.world_fresh eq_refl Hfresh (fun m => eq_refl)) as H.
  cbv zeta in H. destruct H as (_ & _ & _ & H).
  rewrite Hparse in H. destruct H as [H _]; [discriminate |].
  rewrite H. apply lookup_insert_eq.
Defined.

Lemma fault_free_run_completes_witness :
  DatabaseManager.keyword_batches (db Scenario.world_locked)
    !! Batch.id Scenario.batch = Some Scenario.batch
  /\ cache_answers Scenario.world_locked = true
  /\ lock_held "b1" Scenario.world_locked = true
  /\ fst (_process_batch_background 20 Scenario.no_model Scenario.kmeans
            Scenario.store_up Scenario.new_id Scenario.slack_up
            Scenario.outlines_up Scenario.ideas Scenario.report
            Scenario.batch "C042" Scenario.world_locked)
     = Ok tt
  /\ persisted_status "b1"
       (snd (_process_batch_background 20 Scenario.no_model Scenario.kmeans
               Scenario.store_up Scenario.new_id Scenario.slack_up
               Scenario.outlines_up Scenario.ideas Scenario.report
               Scenario.batch "C042" Scenario.world_locked))
     = Some "completed"
  /\ lock_held "b1"
       (snd (_process_batch_background 20 Scenario.no_model Scenario.kmeans
               Scenario.store_up Scenario.new_id Scenario.slack_up
               Scenario.outlines_up Scenario.ideas Scenario.report
               Scenario.batch "C042" Scenario.world_locked))
     = false.
Proof.
  assert (Hrow : DatabaseManager.keyword_batches (db Scenario.world_locked)
                   !! Batch.id Scenario.batch = Some Scenario.batch)
    by reflexivity.
  split; [exact Hrow | split; [reflexivity | split; [reflexivity |]]].
  pose proof (fault_free_run_completes 20 Scenario.no_model Scenario.kmeans
                Scenario.store_up Scenario.new_id Scenario.slack_up
                Scenario.outlines_up Scenario.ideas Scenario.report
                Scenario.batch Scenario.batch "C042" Scenario.world_locked
                Scenario.outline []
                (mkReport ("/api/reports/" +:+ Batch.id Scenario.batch) false)
                (fun n => eq_refl) (fun m => eq_refl) Hrow
                (fun keywords => eq_refl) eq_refl eq_refl eq_refl) as H.
  cbv zeta in H. destruct H as (Hok & Hstatus & _ & _ & Hheld & _).
  split; [exact Hok | split; [exact Hstatus | exact Hheld]].
Defined.


